(** * micSQL: query-history API, voice-enrollment capture and the voice engine contract

    A shallow embedding of
    - [src/app/api/query-history/route.ts] (the four route handlers over the
      Prisma client),
    - the [VoiceEnrollment] component ([handleEnroll], browser capture flow),
    - the voice engine of the specification (decision policy, enrollment and
      verification orchestrators), whose implementation sits behind the opaque
      [/api/auth/enroll] endpoint and is modelled from the specification.

    Definitions come first, theorems follow. *)

From Stdlib Require Import ZArith QArith Qround Bool List String Ascii Lia.
From Stdlib Require Import Sorting.Sorted Sorting.Permutation.
From stdpp Require Import base decidable sorting.
Import ListNotations.
Set Warnings "-register-all".
Open Scope string_scope.
Open Scope Z_scope.

(* ===================================================================== *)
(** * JavaScript values *)
(* ===================================================================== *)

Module Js.

(** Numbers: the finite doubles, written as the rationals they are, and
    the three non-finite ones. Negative zero is identified with zero (the
    handlers never tell them apart: [JSON.stringify] prints both as [0]).
    Arithmetic rounds its exact result to the nearest double ([double]
    below). *)
Inductive Number : Type :=
| Fin (q : Q)
| NaN
| PosInf
| NegInf.

(** The number [z], for an integer that a double holds exactly. *)
Definition of_Z (z : Z) : Number := Fin (inject_Z z).

(** [Number.MAX_SAFE_INTEGER] *)
Definition MAX_SAFE_INTEGER : Z := 2 ^ 53 - 1.

(** [a / b] rounded to the nearest integer, a tie to the even one
    ([0 <= a], [0 < b]). *)
Definition div_half_even (a b : Z) : Z :=
  let k := a / b in
  match 2 * (a mod b) ?= b with
  | Lt => k
  | Gt => k + 1
  | Eq => if Z.even k then k else k + 1
  end.

(** The binary exponent of [n / d]: the [e] with [2^e <= n / d < 2^(e+1)]
    ([0 < n], [0 < d]). *)
Definition log2_floor (n d : Z) : Z :=
  let e := Z.log2 n - Z.log2 d in
  if n * 2 ^ Z.max (- e) 0 <? d * 2 ^ Z.max e 0 then e - 1 else e.

(** The double nearest to [n / d] ([0 < n], [0 < d]), IEEE 754 binary64
    with round-to-nearest, ties-to-even: 53 significant bits, exponents
    from -1022 on (below, the spacing stays [2^-1074]), infinity from
    [2^1024] on. With [x] the exponent of the last significant bit, [m] is
    [n / d / 2^x] rounded and the result is [m * 2^x]. *)
Definition double_pos (n d : Z) : Number :=
  let x := Z.max (log2_floor n d) (-1022) - 52 in
  let up := 2 ^ Z.max x 0 in
  let down := 2 ^ Z.max (- x) 0 in
  let m := div_half_even (n * down) (d * up) in
  if 2 ^ 1024 * down <=? m * up then PosInf
  else Fin (Qred (m * up # Z.to_pos down)).

Definition opp (a : Number) : Number :=
  match a with
  | Fin q => Fin (Qred (- q))
  | NaN => NaN
  | PosInf => NegInf
  | NegInf => PosInf
  end.

(** The double nearest to a rational. *)
Definition double (q : Q) : Number :=
  let r := Qred q in
  match Qnum r with
  | 0 => Fin 0
  | Z.pos n => double_pos (Z.pos n) (Z.pos (Qden r))
  | Z.neg n => opp (double_pos (Z.pos n) (Z.pos (Qden r)))
  end.

Definition sgn (q : Q) : Z := Z.sgn (Qnum q).

Definition inf_of_sign (s : Z) : Number :=
  if s =? 0 then NaN else if 0 <? s then PosInf else NegInf.

Definition sign_of (n : Number) : option Z :=
  match n with
  | Fin q => Some (sgn q)
  | PosInf => Some 1
  | NegInf => Some (-1)
  | NaN => None
  end.

(** [a - b] *)
Definition sub (a b : Number) : Number :=
  match a, b with
  | NaN, _ | _, NaN => NaN
  | Fin x, Fin y => double (x - y)
  | PosInf, PosInf | NegInf, NegInf => NaN
  | PosInf, _ | _, NegInf => PosInf
  | NegInf, _ | _, PosInf => NegInf
  end.

(** [a * b] *)
Definition mul (a b : Number) : Number :=
  match a, b with
  | Fin x, Fin y => double (x * y)
  | _, _ =>
      match sign_of a, sign_of b with
      | Some s, Some t => inf_of_sign (s * t)
      | _, _ => NaN
      end
  end.

(** [a / b] *)
Definition div (a b : Number) : Number :=
  match a, b with
  | NaN, _ | _, NaN => NaN
  | Fin x, Fin y =>
      if sgn y =? 0 then inf_of_sign (sgn x) else double (x / y)
  | Fin _, _ => Fin 0
  | _, Fin y => inf_of_sign ((match a with PosInf => 1 | _ => -1 end)
                             * (if sgn y <? 0 then -1 else 1))
  | _, _ => NaN
  end.

(** [Math.ceil(a)] *)
Definition ceil (a : Number) : Number :=
  match a with
  | Fin x => of_Z (Qceiling x)
  | _ => a
  end.

(** The integer a number denotes, if it is one. *)
Definition as_int (a : Number) : option Z :=
  match a with
  | Fin x => if Qeq_bool (inject_Z (Qfloor x)) x then Some (Qfloor x) else None
  | _ => None
  end.

(** ** [parseInt(string)] with the radix left out (ECMA-262, 19.2.5).
    A string is the UTF-8 encoding of the JavaScript string. Leading white
    space is stripped: the characters of [WhiteSpace] and [LineTerminator],
    one, two or three bytes long. *)

Definition byte_of (c : ascii) : Z := Z.of_nat (nat_of_ascii c).

(** TAB, LF, VT, FF, CR, SP *)
Definition is_space (c : ascii) : bool :=
  let n := byte_of c in
  (n =? 32) || ((9 <=? n) && (n <=? 13)).

(** U+00A0, the no-break space: C2 A0 *)
Definition is_space2 (c1 c2 : ascii) : bool :=
  (byte_of c1 =? 194) && (byte_of c2 =? 160).

(** U+1680: E1 9A 80; U+2000 to U+200A: E2 80 80 to E2 80 8A; U+2028,
    U+2029, U+202F: E2 80 A8, E2 80 A9, E2 80 AF; U+205F: E2 81 9F;
    U+3000: E3 80 80; U+FEFF: EF BB BF *)
Definition is_space3 (c1 c2 c3 : ascii) : bool :=
  let '(a, b, c) := (byte_of c1, byte_of c2, byte_of c3) in
  ((a =? 225) && (b =? 154) && (c =? 128)) ||
  ((a =? 226) && (b =? 128) &&
   (((128 <=? c) && (c <=? 138)) || (c =? 168) || (c =? 169) || (c =? 175))) ||
  ((a =? 226) && (b =? 129) && (c =? 159)) ||
  ((a =? 227) && (b =? 128) && (c =? 128)) ||
  ((a =? 239) && (b =? 187) && (c =? 191)).

Fixpoint trim_start (s : string) : string :=
  match s with
  | String c1 s1 =>
      if is_space c1 then trim_start s1
      else
        match s1 with
        | String c2 s2 =>
            if is_space2 c1 c2 then trim_start s2
            else
              match s2 with
              | String c3 s3 => if is_space3 c1 c2 c3 then trim_start s3 else s
              | EmptyString => s
              end
        | EmptyString => s
        end
  | EmptyString => s
  end.

Definition digit_val (radix : Z) (c : ascii) : option Z :=
  let n := Z.of_nat (nat_of_ascii c) in
  let v := if (48 <=? n) && (n <=? 57) then n - 48
           else if (97 <=? n) && (n <=? 122) then n - 87
           else if (65 <=? n) && (n <=? 90) then n - 55
           else radix in
  if v <? radix then Some v else None.

(** Value of the longest prefix of radix digits; [acc] is [None] until a
    digit has been read. *)
Fixpoint digits (radix : Z) (s : string) (acc : option Z) : option Z :=
  match s with
  | String c s' =>
      match digit_val radix c with
      | Some d => digits radix s' (Some (radix * (match acc with Some a => a | None => 0 end) + d))
      | None => acc
      end
  | EmptyString => acc
  end.

Definition strip_sign (s : string) : Z * string :=
  match s with
  | String "-" r => (-1, r)
  | String "+" r => (1, r)
  | _ => (1, s)
  end.

Definition strip_prefix (s : string) : Z * string :=
  match s with
  | String "0" (String "x" r) => (16, r)
  | String "0" (String "X" r) => (16, r)
  | _ => (10, s)
  end.

(** The digits are read exactly and the integer is rounded to a double
    (for more than 20 significant decimal digits the standard also lets an
    implementation read the later ones as zeros; the exact reading is the
    one it allows everywhere). *)
Definition parseInt (s : string) : Number :=
  let '(sign, s1) := strip_sign (trim_start s) in
  let '(radix, s2) := strip_prefix s1 in
  match digits radix s2 None with
  | Some n => double (inject_Z (sign * n))
  | None => NaN
  end.

(** ** JSON values, as [await req.json()] yields them, and [undefined] *)

Inductive Value : Type :=
| Undefined
| Null
| Bool (b : bool)
| Num (n : Q)
| Str (s : string)
| Arr (items : list Value)
| Obj (fields : list (string * Value)).

(** ToBoolean *)
Definition truthy (v : Value) : bool :=
  match v with
  | Undefined | Null => false
  | Bool b => b
  | Num n => negb (Qeq_bool n 0)
  | Str s => negb (String.eqb s "")
  | Arr _ | Obj _ => true
  end.

Definition truthy_string (s : string) : bool := negb (String.eqb s "").

(** [a || b] *)
Definition or (a b : Value) : Value := if truthy a then a else b.

(** [a ?? b] *)
Definition nullish (a b : Value) : Value :=
  match a with
  | Undefined | Null => b
  | _ => a
  end.

Fixpoint get_field (k : string) (fields : list (string * Value)) : Value :=
  match fields with
  | [] => Undefined
  | (k', v) :: rest => if String.eqb k' k then v else get_field k rest
  end.

(** [v.k] for a value that is not [null] or [undefined], and for the
    property names the handlers read (none of them is a built-in property of
    a string, a number, a boolean or an array). *)
Definition prop (v : Value) (k : string) : Value :=
  match v with
  | Obj fields => get_field k fields
  | _ => Undefined
  end.

(** Whether [const { ... } = v] can destructure [v]: [null] and [undefined]
    raise a TypeError. *)
Definition destructurable (v : Value) : bool :=
  match v with
  | Undefined | Null => false
  | _ => true
  end.

End Js.

(** [JSON.stringify] of a number, read back: non-finite numbers become
    [null]. *)
Definition json_of_number (n : Js.Number) : Js.Value :=
  match n with
  | Js.Fin q => Js.Num q
  | _ => Js.Null
  end.

(* ===================================================================== *)
(** * The session ([getServerSession]) *)
(* ===================================================================== *)

Module Auth.

Record User : Type := { id : string; role : string }.

(** [session.user] may be missing on a session object. *)
Record Session : Type := { user : option User }.

(** [session?.user], for a session that may be [null]. *)
Definition session_user (session : option Session) : option User :=
  match session with
  | Some s => user s
  | None => None
  end.

(** The session of a signed-in user. *)
Definition signed_in (u : User) : option Session := Some {| user := Some u |}.

End Auth.

(* ===================================================================== *)
(** * The Prisma client, as far as the handlers use it *)
(* ===================================================================== *)

Module Prisma.

Record Visualization : Type := {
  vid : string;
  queryId : string;
  chartType : Js.Value;
  chartOptions : Js.Value;
  title : Js.Value;
  description : Js.Value
}.

(** A [queryHistory] row with its one-to-one [visualization] relation
    (every read the handlers make that looks at it asks for
    [include: { visualization: true }]). *)
Record QueryHistory : Type := {
  id : string;
  userId : string;
  userQuery : Js.Value;
  sqlQuery : Js.Value;
  relatedQueries : Js.Value;
  results : Js.Value;
  executionTime : Js.Value;
  successful : Js.Value;
  errorMessage : Js.Value;
  createdAt : Z;
  visualization : option Visualization
}.

Record VisualizationInput : Type := {
  in_chartType : Js.Value;
  in_chartOptions : Js.Value;
  in_title : Js.Value;
  in_description : Js.Value
}.

(** The [data] of [queryHistory.create]. *)
Record CreateInput : Type := {
  c_userId : string;
  c_userQuery : Js.Value;
  c_sqlQuery : Js.Value;
  c_relatedQueries : Js.Value;
  c_results : Js.Value;
  c_executionTime : Js.Value;
  c_successful : Js.Value;
  c_errorMessage : Js.Value;
  c_visualization : option VisualizationInput
}.

(** The [data] of [queryHistory.update]. *)
Record UpdateInput : Type := {
  u_userQuery : Js.Value;
  u_sqlQuery : Js.Value;
  u_relatedQueries : Js.Value;
  u_results : Js.Value;
  u_executionTime : Js.Value;
  u_successful : Js.Value;
  u_errorMessage : Js.Value
}.

(** The [where] filter of [findMany] and [count]. *)
Record Where : Type := {
  w_userId : string;
  w_successful : option bool
}.

(** The calls the handlers make, with their arguments. *)
Inductive Op : Type :=
| FindMany (w : Where) (skip take : Js.Number)
| Count (w : Where)
| Create (data : CreateInput)
| FindUnique (key : Js.Value)
| Update (key : Js.Value) (data : UpdateInput)
| VisualizationUpdate (key : string) (data : VisualizationInput)
| VisualizationCreate (query : Js.Value) (data : VisualizationInput)
| Delete (key : Js.Value).

(** The database: the table, the number of ids handed out, the clock that
    stamps [createdAt]. *)
Record Db : Type := {
  rows : list QueryHistory;
  issued : nat;
  clock : Z
}.

(** The database together with the log of the calls made on it. *)
Record World : Type := {
  db : Db;
  log : list Op
}.

Definition matches (w : Where) (r : QueryHistory) : bool :=
  String.eqb (userId r) (w_userId w) &&
  match w_successful w with
  | None => true
  | Some b => match successful r with
              | Js.Bool b' => Bool.eqb b b'
              | _ => false
              end
  end.

(** [orderBy: { createdAt: 'desc' }] *)
Definition newer_first (a b : QueryHistory) : Prop := createdAt b <= createdAt a.

#[export] Instance newer_first_dec : RelDecision newer_first :=
  fun a b => Z_le_dec (createdAt b) (createdAt a).

(** [skip] and [take] on an ordered result. A negative [take] counts from
    the end of the list. *)
Definition window (skip take : Z) (l : list QueryHistory) : list QueryHistory :=
  if 0 <=? take
  then firstn (Z.to_nat take) (skipn (Z.to_nat skip) l)
  else rev (firstn (Z.to_nat (- take)) (skipn (Z.to_nat skip) (rev l))).

Definition selected (w : Where) (d : Db) : list QueryHistory :=
  merge_sort newer_first (List.filter (matches w) (rows d)).

Definition find_row (key : string) (d : Db) : option QueryHistory :=
  List.find (fun r => String.eqb (id r) key) (rows d).

Definition replace_row (key : string) (f : QueryHistory -> QueryHistory) (d : Db) : Db :=
  {| rows := List.map (fun r => if String.eqb (id r) key then f r else r) (rows d);
     issued := issued d;
     clock := clock d |}.

End Prisma.

(* ===================================================================== *)
(** * Handlers as computations over the database *)
(* ===================================================================== *)

(** A computation returns a value or throws, and threads the world. *)
Inductive Outcome (A : Type) : Type :=
| Ret (a : A)
| Throw.
Arguments Ret {A} a.
Arguments Throw {A}.

Definition M (A : Type) : Type := Prisma.World -> Outcome A * Prisma.World.

Definition ret {A} (a : A) : M A := fun w => (Ret a, w).

Definition throw {A} : M A := fun w => (Throw, w).

Definition bind {A B} (m : M A) (k : A -> M B) : M B :=
  fun w => match m w with
           | (Ret a, w') => k a w'
           | (Throw, w') => (Throw, w')
           end.

Declare Scope handler_scope.
Delimit Scope handler_scope with handler.
Notation "x <- m ;; k" := (bind m (fun x => k))
  (at level 100, m at next level, right associativity) : handler_scope.
Notation "m ;;; k" := (bind m (fun _ => k))
  (at level 100, right associativity) : handler_scope.
Open Scope handler_scope.

(** [Promise.all([a, b])]: both calls are made; the result is there when
    neither rejects. *)
Definition both {A B} (a : M A) (b : M B) : M (A * B) :=
  fun w => match a w with
           | (ra, w1) =>
               match b w1 with
               | (rb, w2) =>
                   (match ra, rb with
                    | Ret x, Ret y => Ret (x, y)
                    | _, _ => Throw
                    end, w2)
               end
           end.

Module Client.
Import Prisma.

Section Engine.

(** The Prisma schema and the database server are not among the sources:
    whether the engine carries out a call (schema validation, constraints,
    connectivity) and the ids it generates are parameters. *)
Variable permits : Db -> Op -> bool.
Variable gen_id : nat -> string.

(** A call is logged, then carried out by [run] if the engine permits it;
    otherwise, or when [run] has no result, the promise rejects. *)
Definition call {A} (op : Op) (run : Db -> option (A * Db)) : M A :=
  fun w =>
    let logged := (log w ++ [op])%list in
    if permits (db w) op then
      match run (db w) with
      | Some (a, d) => (Ret a, {| db := d; log := logged |})
      | None => (Throw, {| db := db w; log := logged |})
      end
    else (Throw, {| db := db w; log := logged |}).

(** [queryHistory.findMany({ where, orderBy: { createdAt: 'desc' }, skip,
    take, include })]. [skip] and [take] must be integers, [skip] not
    negative. *)
Definition findMany (w : Where) (skip take : Js.Number) : M (list QueryHistory) :=
  call (FindMany w skip take) (fun d =>
    match Js.as_int skip, Js.as_int take with
    | Some s, Some t => if s <? 0 then None else Some (window s t (selected w d), d)
    | _, _ => None
    end).

(** [queryHistory.count({ where })]. The count comes back as a JavaScript
    number, which holds it exactly for a table of at most 2^53 rows. *)
Definition count (w : Where) : M Z :=
  call (Count w) (fun d =>
    Some (Z.of_nat (length (List.filter (matches w) (rows d))), d)).

(** A column the [data] of a [create] leaves [undefined] is stored, and
    read back, as [null]. *)
Definition stored (v : Js.Value) : Js.Value :=
  match v with
  | Js.Undefined => Js.Null
  | _ => v
  end.

(** The visualization an update writes. *)
Definition new_visualization (key query : string) (v : VisualizationInput) : Visualization :=
  {| vid := key; queryId := query;
     chartType := in_chartType v; chartOptions := in_chartOptions v;
     title := in_title v; description := in_description v |}.

(** The visualization a create writes. *)
Definition created_visualization (key query : string) (v : VisualizationInput)
    : Visualization :=
  {| vid := key; queryId := query;
     chartType := stored (in_chartType v); chartOptions := stored (in_chartOptions v);
     title := stored (in_title v); description := stored (in_description v) |}.

Definition new_row (d : Db) (data : CreateInput) : QueryHistory :=
  {| id := gen_id (issued d);
     userId := c_userId data;
     userQuery := stored (c_userQuery data);
     sqlQuery := stored (c_sqlQuery data);
     relatedQueries := stored (c_relatedQueries data);
     results := stored (c_results data);
     executionTime := stored (c_executionTime data);
     successful := stored (c_successful data);
     errorMessage := stored (c_errorMessage data);
     createdAt := clock d;
     visualization :=
       option_map (created_visualization (gen_id (S (issued d))) (gen_id (issued d)))
                  (c_visualization data) |}.

(** [queryHistory.create({ data, include })] *)
Definition create (data : CreateInput) : M QueryHistory :=
  call (Create data) (fun d =>
    let row := new_row d data in
    Some (row, {| rows := (rows d ++ [row])%list;
                  issued := S (S (issued d));
                  clock := clock d + 1 |})).

(** [queryHistory.findUnique({ where: { id }, ... })]: the key must be a
    string; the result is [null] when no row has it. *)
Definition findUnique (key : Js.Value) : M (option QueryHistory) :=
  call (FindUnique key) (fun d =>
    match key with
    | Js.Str k => Some (find_row k d, d)
    | _ => None
    end).

Definition apply_update (data : UpdateInput) (r : QueryHistory) : QueryHistory :=
  {| id := id r; userId := userId r;
     userQuery := u_userQuery data;
     sqlQuery := u_sqlQuery data;
     relatedQueries := u_relatedQueries data;
     results := u_results data;
     executionTime := u_executionTime data;
     successful := u_successful data;
     errorMessage := u_errorMessage data;
     createdAt := createdAt r;
     visualization := visualization r |}.

(** [queryHistory.update({ where: { id }, data, include })] *)
Definition update (key : Js.Value) (data : UpdateInput) : M QueryHistory :=
  call (Update key data) (fun d =>
    match key with
    | Js.Str k =>
        match find_row k d with
        | Some r => Some (apply_update data r, replace_row k (apply_update data) d)
        | None => None
        end
    | _ => None
    end).

Definition set_visualization (v : option Visualization) (r : QueryHistory) : QueryHistory :=
  {| id := id r; userId := userId r; userQuery := userQuery r;
     sqlQuery := sqlQuery r; relatedQueries := relatedQueries r;
     results := results r; executionTime := executionTime r;
     successful := successful r; errorMessage := errorMessage r;
     createdAt := createdAt r; visualization := v |}.

Definition has_visualization (key : string) (r : QueryHistory) : bool :=
  match visualization r with
  | Some v => String.eqb (vid v) key
  | None => false
  end.

(** [visualization.update({ where: { id }, data })] *)
Definition visualization_update (key : string) (data : VisualizationInput) : M unit :=
  call (VisualizationUpdate key data) (fun d =>
    match List.find (has_visualization key) (rows d) with
    | Some r =>
        Some (tt, replace_row (id r)
                    (set_visualization (Some (new_visualization key (id r) data))) d)
    | None => None
    end).

(** [visualization.create({ data: { queryId, ... } })]: the row must exist
    and have no visualization yet. *)
Definition visualization_create (query : Js.Value) (data : VisualizationInput) : M unit :=
  call (VisualizationCreate query data) (fun d =>
    match query with
    | Js.Str k =>
        match find_row k d with
        | Some r =>
            match visualization r with
            | None =>
                let d' := replace_row k
                  (set_visualization (Some (created_visualization (gen_id (issued d)) k data)))
                  d in
                Some (tt, {| rows := rows d'; issued := S (issued d); clock := clock d |})
            | Some _ => None
            end
        | None => None
        end
    | _ => None
    end).

(** [queryHistory.delete({ where: { id } })]; the visualization goes with
    its row. *)
Definition delete (key : Js.Value) : M unit :=
  call (Delete key) (fun d =>
    match key with
    | Js.Str k =>
        match find_row k d with
        | Some _ =>
            Some (tt, {| rows := List.filter (fun r => negb (String.eqb (id r) k)) (rows d);
                         issued := issued d; clock := clock d |})
        | None => None
        end
    | _ => None
    end).

(** [prisma.$transaction(async (tx) => ...)]: when the callback throws, the
    writes it made are rolled back. *)
Definition transaction {A} (m : M A) : M A :=
  fun w => match m w with
           | (Ret a, w') => (Ret a, w')
           | (Throw, w') => (Throw, {| db := db w; log := log w' |})
           end.

End Engine.
End Client.

(* ===================================================================== *)
(** * [src/app/api/query-history/route.ts] *)
(* ===================================================================== *)

Module Route.
Import Prisma Client.

(** What a handler reads of the request: the query string and the parsed
    body ([None] when [req.json()] rejects). *)
Record Request : Type := {
  searchParams : list (string * string);
  json : option Js.Value
}.

(** [searchParams.get(name)]: the first value under [name], or [null]. *)
Fixpoint get (name : string) (params : list (string * string)) : option string :=
  match params with
  | [] => None
  | (k, v) :: rest => if String.eqb k name then Some v else get name rest
  end.

(** The JSON bodies the handlers send. *)
Inductive Body : Type :=
| Error (error : string)
| Page (queries : list QueryHistory) (total page limit totalPages : Js.Value)
| Row (row : option QueryHistory)
| Deleted.

Record Response : Type := { status : Z; body : Body }.

(** [NextResponse.json(body, { status })] *)
Definition respond (b : Body) (st : Z) : Response := {| status := st; body := b |}.

(** [try { ... } catch (err) { return NextResponse.json({ error }, { status: 500 }) }] *)
Definition catching (error : string) (m : M Response) (w : World) : Response * World :=
  match m w with
  | (Ret r, w') => (r, w')
  | (Throw, w') => (respond (Error error) 500, w')
  end.

(** [await req.json()] *)
Definition req_json (req : Request) : M Js.Value :=
  match json req with
  | Some v => ret v
  | None => throw
  end.

(** [const { ... } = payload] *)
Definition destructure (payload : Js.Value) : M unit :=
  if Js.destructurable payload then ret tt else throw.

(** [userId !== session.user.id], for [userId] a string or [null] *)
Definition differs (userId : option string) (own : string) : bool :=
  match userId with
  | Some u => negb (String.eqb u own)
  | None => true
  end.

(** [searchParams.get(name) ? parseInt(searchParams.get(name)!) : fallback] *)
Definition int_param (name : string) (fallback : Z) (params : list (string * string)) : Js.Number :=
  match get name params with
  | Some s => if Js.truthy_string s then Js.parseInt s else Js.of_Z fallback
  | None => Js.of_Z fallback
  end.

(** [searchParams.get(name) ? searchParams.get(name) === "true" : undefined] *)
Definition flag_param (name : string) (params : list (string * string)) : option bool :=
  match get name params with
  | Some s => if Js.truthy_string s then Some (String.eqb s "true") else None
  | None => None
  end.

(** [userId || session.user.id], for [userId] a string or [null] *)
Definition or_else (userId : option string) (own : string) : string :=
  match userId with
  | Some u => if Js.truthy_string u then u else own
  | None => own
  end.

(** The [visualization] object of a payload, read field by field. *)
Definition visualization_input (v : Js.Value) : VisualizationInput :=
  {| in_chartType := Js.prop v "chartType";
     in_chartOptions := Js.prop v "chartOptions";
     in_title := Js.prop v "title";
     in_description := Js.prop v "description" |}.

Section Handlers.

Variable permits : Db -> Op -> bool.
Variable gen_id : nat -> string.

Definition GET (session : option Auth.Session) (req : Request) : World -> Response * World :=
  catching "error fetching query history"
    match Auth.session_user session with
    | None => ret (respond (Error "unauthorized") 401)
    | Some user =>
        let params := searchParams req in
        let userId := get "userId" params in
        let limit := int_param "limit" 10 params in
        let page := int_param "page" 1 params in
        let skip := Js.mul (Js.sub page (Js.of_Z 1)) limit in
        let successful := flag_param "successful" params in
        if negb (String.eqb (Auth.role user) "ADMIN") && differs userId (Auth.id user)
        then ret (respond (Error "unauthorized: can only access your own query history") 403)
        else
          let where_ :=
            {| w_userId := or_else userId (Auth.id user);
               w_successful := successful |} in
          r <- both (findMany permits where_ skip limit) (count permits where_);;
          let '(queries, total) := r in
          ret (respond
                 (Page queries
                       (Js.Num (inject_Z total))
                       (json_of_number page)
                       (json_of_number limit)
                       (json_of_number (Js.ceil (Js.div (Js.of_Z total) limit))))
                 200)
    end.

Definition POST (session : option Auth.Session) (req : Request) : World -> Response * World :=
  catching "error saving query history"
    match Auth.session_user session with
    | None => ret (respond (Error "unauthorized") 401)
    | Some user =>
        payload <- req_json req;;
        destructure payload;;;
        let userQuery := Js.prop payload "userQuery" in
        let sqlQuery := Js.prop payload "sqlQuery" in
        let relatedQueries := Js.prop payload "relatedQueries" in
        let results := Js.prop payload "results" in
        let executionTime := Js.prop payload "executionTime" in
        let successful := Js.prop payload "successful" in
        let errorMessage := Js.prop payload "errorMessage" in
        let visualization := Js.prop payload "visualization" in
        let userId := Js.prop payload "userId" in
        if negb (Js.truthy userQuery) || negb (Js.truthy sqlQuery)
        then ret (respond (Error "userQuery and sqlQuery are required") 400)
        else
          queryHistory <- create permits gen_id
            {| c_userId := Auth.id user;
               c_userQuery := userQuery;
               c_sqlQuery := sqlQuery;
               c_relatedQueries := relatedQueries;
               c_results := results;
               c_executionTime := executionTime;
               c_successful := Js.nullish successful (Js.Bool true);
               c_errorMessage := errorMessage;
               c_visualization :=
                 if Js.truthy visualization
                 then Some (visualization_input visualization)
                 else None |};;
          ret (respond (Row (Some queryHistory)) 201)
    end.

Definition PUT (session : option Auth.Session) (req : Request) : World -> Response * World :=
  catching "error updating query history"
    match Auth.session_user session with
    | None => ret (respond (Error "unauthorized") 401)
    | Some user =>
        payload <- req_json req;;
        destructure payload;;;
        let id := Js.prop payload "id" in
        let userQuery := Js.prop payload "userQuery" in
        let sqlQuery := Js.prop payload "sqlQuery" in
        let relatedQueries := Js.prop payload "relatedQueries" in
        let results := Js.prop payload "results" in
        let executionTime := Js.prop payload "executionTime" in
        let successful := Js.prop payload "successful" in
        let errorMessage := Js.prop payload "errorMessage" in
        let visualization := Js.prop payload "visualization" in
        if negb (Js.truthy id)
        then ret (respond (Error "query history id is required") 400)
        else
          found <- findUnique permits id;;
          match found with
          | None => ret (respond (Error "query history not found") 404)
          | Some existingQuery =>
              if negb (String.eqb (Auth.role user) "ADMIN")
                 && negb (String.eqb (Prisma.userId existingQuery) (Auth.id user))
              then ret (respond (Error "unauthorized: can only update your own query history") 403)
              else
                transaction (
                  updated <- update permits id
                    {| u_userQuery := Js.or userQuery (Prisma.userQuery existingQuery);
                       u_sqlQuery := Js.or sqlQuery (Prisma.sqlQuery existingQuery);
                       u_relatedQueries := Js.or relatedQueries (Prisma.relatedQueries existingQuery);
                       u_results := Js.or results (Prisma.results existingQuery);
                       u_executionTime := Js.or executionTime (Prisma.executionTime existingQuery);
                       u_successful := match successful with
                                       | Js.Undefined => Prisma.successful existingQuery
                                       | _ => successful
                                       end;
                       u_errorMessage := Js.or errorMessage (Prisma.errorMessage existingQuery) |};;
                  (if Js.truthy visualization
                   then match Prisma.visualization existingQuery with
                        | Some existing =>
                            visualization_update permits (vid existing)
                              {| in_chartType := Js.or (Js.prop visualization "chartType") (chartType existing);
                                 in_chartOptions := Js.or (Js.prop visualization "chartOptions") (chartOptions existing);
                                 in_title := Js.or (Js.prop visualization "title") (title existing);
                                 in_description := Js.or (Js.prop visualization "description") (description existing) |}
                        | None =>
                            visualization_create permits gen_id id (visualization_input visualization)
                        end
                   else ret tt);;;
                  ret updated);;;
                result <- findUnique permits id;;
                ret (respond (Row result) 200)
          end
    end.

Definition DELETE (session : option Auth.Session) (req : Request) : World -> Response * World :=
  catching "error deleting query history"
    match Auth.session_user session with
    | None => ret (respond (Error "unauthorized") 401)
    | Some user =>
        payload <- req_json req;;
        destructure payload;;;
        let id := Js.prop payload "id" in
        if negb (Js.truthy id)
        then ret (respond (Error "query history id is required") 400)
        else
          found <- findUnique permits id;;
          match found with
          | None => ret (respond (Error "query history not found") 404)
          | Some existingQuery =>
              if negb (String.eqb (Auth.role user) "ADMIN")
                 && negb (String.eqb (Prisma.userId existingQuery) (Auth.id user))
              then ret (respond (Error "unauthorized: can only delete your own query history") 403)
              else
                delete permits id;;;
                ret (respond Deleted 200)
          end
    end.

End Handlers.

(** The filter GET builds for user [u]. *)
Definition filter_of (u : Auth.User) (req : Request) : Where :=
  {| w_userId := or_else (get "userId" (searchParams req)) (Auth.id u);
     w_successful := flag_param "successful" (searchParams req) |}.

(** The ceiling of [total / limit]. *)
Definition pages (total limit : Z) : Z := Qceiling (inject_Z total / inject_Z limit).

(** A response that is page [page] of the rows matching [wh] in [d], [limit]
    rows to a page: the first [(page - 1) * limit] rows of the newest-first
    order are skipped, at most [limit] rows follow, newest first, and
    [totalPages] is the ceiling of [total / limit]. *)
Definition paginated (d : Db) (wh : Where) (page limit : Z) (r : Response) : Prop :=
  let all := selected wh d in
  let total := Z.of_nat (length all) in
  exists queries,
    body r = Page queries (Js.Num (inject_Z total)) (Js.Num (inject_Z page))
                  (Js.Num (inject_Z limit)) (Js.Num (inject_Z (pages total limit))) /\
    queries = firstn (Z.to_nat limit) (skipn (Z.to_nat ((page - 1) * limit)) all) /\
    Z.of_nat (length queries) <= limit /\
    StronglySorted newer_first queries.

(** The page and the limit a request asks for, when both are integers. *)
Definition asks_for (req : Request) (page limit : Z) : Prop :=
  int_param "page" 1 (searchParams req) = Js.of_Z page /\
  int_param "limit" 10 (searchParams req) = Js.of_Z limit.

(** A GET that, if it succeeds, reports the page it was asked for. *)
Definition reports_page (permits : Db -> Op -> bool) (session : option Auth.Session)
    (req : Request) (w : World) : Prop :=
  let r := fst (GET permits session req w) in
  status r = 200 ->
  exists u page limit,
    Auth.session_user session = Some u /\
    asks_for req page limit /\
    paginated (db w) (filter_of u req) page limit r.

(** An engine that carries out every call. *)
Definition always : Db -> Op -> bool := fun _ _ => true.

(** The world after alice has saved one query to an empty table. *)
Definition one_query_world : World :=
  snd (POST always (fun n => if Nat.eqb n 0 then "q1" else "q2")
         (Auth.signed_in {| Auth.id := "alice"; Auth.role := "USER" |})
         {| searchParams := [];
            json := Some (Js.Obj [("userQuery", Js.Str "top customers");
                                  ("sqlQuery", Js.Str "select 1")]) |}
         {| db := {| rows := []; issued := 0; clock := 7 |}; log := [] |}).

(** Ids to run the handlers with: q1, v1, q2, v2, ... *)
Definition sample_id (n : nat) : string :=
  String (if Nat.even n then "q" else "v") (String (ascii_of_nat (49 + Nat.div2 n)) "").

(** The world after [name] has saved a query. *)
Definition post_as (name : string) (w : World) : World :=
  snd (POST always sample_id
         (Auth.signed_in {| Auth.id := name; Auth.role := "USER" |})
         {| searchParams := [];
            json := Some (Js.Obj [("userQuery", Js.Str "top customers");
                                  ("sqlQuery", Js.Str "select 1")]) |}
         w).

(** A table of seven rows, oldest first: q1, q3, q4, q6 and q7 of alice, q2
    and q5 of bob. *)
Definition seven_query_world : World :=
  fold_left (fun w name => post_as name w)
    ["alice"; "bob"; "alice"; "alice"; "bob"; "alice"; "alice"]
    {| db := {| rows := []; issued := 0; clock := 7 |}; log := [] |}.

End Route.

(* ===================================================================== *)
(** * The [VoiceEnrollment] component: one invocation of [handleEnroll] *)
(* ===================================================================== *)

Module Capture.

(** A [Blob] is its bytes; [size] is their number. *)
Definition Blob : Type := list Byte.byte.

Definition size (b : Blob) : Z := Z.of_nat (length b).

(** [new Blob(audioChunks, ...)] *)
Definition blob_of (chunks : list Blob) : Blob := List.concat chunks.

Inductive RecordingState : Type := inactive | recording.

(** What the invocation does that the outside can see, with the time (ms)
    it happens at. *)
Inductive Action : Type :=
| Start (at_ : Z)                  (* mediaRecorder.start() *)
| Stop (at_ : Z)                   (* mediaRecorder.stop() *)
| Fetch (at_ : Z) (audio : Blob).  (* fetch("/api/auth/enroll", { body }) *)

(** The variables of the closure, the component state it sets, and what is
    pending in the browser on its behalf. *)
Record State : Type := {
  now : Z;
  isEnrolling : bool;
  status : string;
  media_pending : bool;            (* getUserMedia not settled yet *)
  mediaRecorder : option RecordingState;
  audioChunks : list Blob;
  timer : option Z;                (* due time of the setTimeout callback *)
  stop_pending : bool;             (* stop() called, stop event not fired yet *)
  fetch_pending : bool;
  tracks_live : bool;              (* the stream is held: track.stop() has not run *)
  actions : list Action
}.

(** What the browser delivers to the invocation. [getUserMedia] resolves
    and the recorder starts ([MediaGranted]), it resolves but
    [new MediaRecorder(stream)] or [start()] throws ([RecorderRefused]), or
    it rejects ([MediaDenied]). The recorder stops through [stop()]
    ([Stopped]) or by itself, before [stop()] is called ([Ended]: the tracks
    of the stream ended, or the recorder failed); both ways it fires its
    last [dataavailable] and then [stop]. A timer callback runs at its due
    time. *)
Inductive Event : Type :=
| MediaGranted                    (* getUserMedia resolves, the recorder starts *)
| MediaDenied                     (* getUserMedia rejects *)
| RecorderRefused                 (* getUserMedia resolves, the recorder throws *)
| DataAvailable (data : Blob)     (* dataavailable while recording *)
| Elapse (ms : Z)                 (* time passes *)
| Stopped (data : Blob)           (* after stop(): the last dataavailable, then stop *)
| Ended (data : Blob)             (* the recorder stops by itself: the same two events *)
| Response (ok : bool).           (* the fetch settles *)

(** The recording window, [5000] in [setTimeout(..., 5000)]. *)
Definition recordingWindow : Z := 5000.

(** [handleEnroll] up to [await navigator.mediaDevices.getUserMedia(...)],
    called at time [t]. *)
Definition handleEnroll (t : Z) : State :=
  {| now := t;
     isEnrolling := true;
     status := "Recording enrollment sample... Speak now";
     media_pending := true;
     mediaRecorder := None;
     audioChunks := [];
     timer := None;
     stop_pending := false;
     fetch_pending := false;
     tracks_live := false;
     actions := [] |}.

(** The rest of the [try] block: create the recorder, install the handlers,
    [mediaRecorder.start()], [setTimeout(..., 5000)]. *)
Definition on_media (s : State) : State :=
  {| now := now s;
     isEnrolling := isEnrolling s;
     status := status s;
     media_pending := false;
     mediaRecorder := Some recording;
     audioChunks := [];
     timer := Some (now s + recordingWindow);
     stop_pending := false;
     fetch_pending := fetch_pending s;
     tracks_live := true;
     actions := (actions s ++ [Start (now s)])%list |}.

(** The [catch] block. *)
Definition on_error (s : State) : State :=
  {| now := now s;
     isEnrolling := false;
     status := "Error during enrollment";
     media_pending := false;
     mediaRecorder := mediaRecorder s;
     audioChunks := audioChunks s;
     timer := timer s;
     stop_pending := stop_pending s;
     fetch_pending := fetch_pending s;
     tracks_live := tracks_live s;
     actions := actions s |}.

(** [getUserMedia] has resolved: the invocation holds the stream. *)
Definition with_stream (s : State) : State :=
  {| now := now s;
     isEnrolling := isEnrolling s;
     status := status s;
     media_pending := media_pending s;
     mediaRecorder := mediaRecorder s;
     audioChunks := audioChunks s;
     timer := timer s;
     stop_pending := stop_pending s;
     fetch_pending := fetch_pending s;
     tracks_live := true;
     actions := actions s |}.

(** [mediaRecorder.ondataavailable] *)
Definition ondataavailable (data : Blob) (s : State) : State :=
  if 0 <? size data then
    {| now := now s;
       isEnrolling := isEnrolling s;
       status := status s;
       media_pending := media_pending s;
       mediaRecorder := mediaRecorder s;
       audioChunks := (audioChunks s ++ [data])%list;
       timer := timer s;
       stop_pending := stop_pending s;
       fetch_pending := fetch_pending s;
       tracks_live := tracks_live s;
       actions := actions s |}
  else s.

(** The timer callback, run at time [t]: [mediaRecorder.stop();
    setIsEnrolling(false)]. [stop()] makes a recording recorder inactive and
    has it fire its last events; on a recorder that is inactive already it
    returns without effect (MediaStream Recording, [stop()], step 2;
    browsers that follow the earlier draft throw there, and
    [setIsEnrolling(false)] is then skipped). *)
Definition on_timer (t : Z) (s : State) : State :=
  {| now := t;
     isEnrolling := false;
     status := status s;
     media_pending := media_pending s;
     mediaRecorder := option_map (fun _ => inactive) (mediaRecorder s);
     audioChunks := audioChunks s;
     timer := None;
     stop_pending := match mediaRecorder s with
                     | Some recording => true
                     | _ => stop_pending s
                     end;
     fetch_pending := fetch_pending s;
     tracks_live := tracks_live s;
     actions := (actions s ++ [Stop t])%list |}.

(** The recorder has stopped by itself: it is inactive when it fires its
    last events. *)
Definition ended (s : State) : State :=
  {| now := now s;
     isEnrolling := isEnrolling s;
     status := status s;
     media_pending := media_pending s;
     mediaRecorder := Some inactive;
     audioChunks := audioChunks s;
     timer := timer s;
     stop_pending := stop_pending s;
     fetch_pending := fetch_pending s;
     tracks_live := tracks_live s;
     actions := actions s |}.

(** [mediaRecorder.onstop] up to [await fetch(...)]: the chunks become one
    blob, which is posted. *)
Definition onstop (s : State) : State :=
  {| now := now s;
     isEnrolling := isEnrolling s;
     status := status s;
     media_pending := media_pending s;
     mediaRecorder := mediaRecorder s;
     audioChunks := audioChunks s;
     timer := timer s;
     stop_pending := false;
     fetch_pending := true;
     tracks_live := tracks_live s;
     actions := (actions s ++ [Fetch (now s) (blob_of (audioChunks s))])%list |}.

(** The rest of [onstop], once the response is there. A response that is
    not [ok] throws inside the handler: nothing else runs. *)
Definition on_response (ok : bool) (s : State) : State :=
  {| now := now s;
     isEnrolling := isEnrolling s;
     status := if ok then "Voice profile enrolled successfully" else status s;
     media_pending := media_pending s;
     mediaRecorder := mediaRecorder s;
     audioChunks := audioChunks s;
     timer := timer s;
     stop_pending := stop_pending s;
     fetch_pending := false;
     tracks_live := if ok then false else tracks_live s;
     actions := actions s |}.

Definition set_now (t : Z) (s : State) : State :=
  {| now := t;
     isEnrolling := isEnrolling s;
     status := status s;
     media_pending := media_pending s;
     mediaRecorder := mediaRecorder s;
     audioChunks := audioChunks s;
     timer := timer s;
     stop_pending := stop_pending s;
     fetch_pending := fetch_pending s;
     tracks_live := tracks_live s;
     actions := actions s |}.

(** Time moves on by [ms]; a timer that falls due on the way runs at its
    due time. *)
Definition elapse (ms : Z) (s : State) : State :=
  if ms <? 0 then s
  else
    match timer s with
    | Some due =>
        if due <=? now s + ms
        then set_now (now s + ms) (on_timer (Z.max due (now s)) s)
        else set_now (now s + ms) s
    | None => set_now (now s + ms) s
    end.

(** One event. The handlers are installed on the recorder for good: its
    last events run [ondataavailable] and [onstop] whether [stop()] was
    called or the recorder stopped by itself. A recorder that could not be
    started never fires an event, and no timer is set for it. An event that
    cannot occur in the state (a grant when [getUserMedia] has settled, data
    from a recorder that is not recording, a stop event without a stop) is
    dropped. *)
Definition step (s : State) (e : Event) : State :=
  match e with
  | MediaGranted => if media_pending s then on_media s else s
  | MediaDenied => if media_pending s then on_error s else s
  | RecorderRefused => if media_pending s then on_error (with_stream s) else s
  | DataAvailable data =>
      match mediaRecorder s with
      | Some recording => ondataavailable data s
      | _ => s
      end
  | Elapse ms => elapse ms s
  | Stopped data => if stop_pending s then onstop (ondataavailable data s) else s
  | Ended data =>
      match mediaRecorder s with
      | Some recording => onstop (ondataavailable data (ended s))
      | _ => s
      end
  | Response ok => if fetch_pending s then on_response ok s else s
  end.

Definition run (s : State) (events : list Event) : State :=
  fold_left step events s.

Definition timer_pending (s : State) : bool :=
  match timer s with
  | Some _ => true
  | None => false
  end.

(** The recorder stops by itself. *)
Definition stops_by_itself (e : Event) : bool :=
  match e with
  | Ended _ => true
  | _ => false
  end.



(** The actions of an invocation in the order the capture flow is meant to
    have: the recording starts, is stopped [recordingWindow] later, and only
    then is the audio posted. *)
Definition well_timed (acts : list Action) : Prop :=
  match acts with
  | [] => True
  | [Start t0] => True
  | [Start t0; Stop t1] => t1 = t0 + recordingWindow
  | [Start t0; Stop t1; Fetch t2 _] => t1 = t0 + recordingWindow /\ t1 <= t2
  | _ => False
  end.


(** The phases an invocation goes through: it waits for the microphone;
    it records, the timer pending; the timer has stopped the recorder; the
    audio is posted after that stop; or the recorder has stopped by itself
    and the audio is posted, the timer still pending or run since. *)
Inductive phase (s : State) : Prop :=
| waiting :
    actions s = [] -> mediaRecorder s = None -> timer s = None ->
    stop_pending s = false -> fetch_pending s = false -> phase s
| capturing (t0 : Z) :
    actions s = [Start t0] -> mediaRecorder s = Some recording ->
    timer s = Some (t0 + recordingWindow) -> now s < t0 + recordingWindow ->
    media_pending s = false -> stop_pending s = false -> fetch_pending s = false ->
    phase s
| stopping (t0 : Z) :
    actions s = [Start t0; Stop (t0 + recordingWindow)] ->
    mediaRecorder s = Some inactive -> timer s = None ->
    t0 + recordingWindow <= now s ->
    media_pending s = false -> stop_pending s = true -> fetch_pending s = false ->
    phase s
| posted (t0 t2 : Z) :
    actions s = [Start t0; Stop (t0 + recordingWindow);
                 Fetch t2 (blob_of (audioChunks s))] ->
    t0 + recordingWindow <= t2 ->
    mediaRecorder s = Some inactive -> timer s = None ->
    media_pending s = false -> stop_pending s = false ->
    phase s
| cut_short (t0 t1 : Z) :
    actions s = [Start t0; Fetch t1 (blob_of (audioChunks s))] ->
    t1 < t0 + recordingWindow ->
    mediaRecorder s = Some inactive -> timer s = Some (t0 + recordingWindow) ->
    now s < t0 + recordingWindow ->
    media_pending s = false -> stop_pending s = false ->
    phase s
| expired (t0 t1 : Z) :
    actions s = [Start t0; Fetch t1 (blob_of (audioChunks s));
                 Stop (t0 + recordingWindow)] ->
    t1 < t0 + recordingWindow ->
    mediaRecorder s = Some inactive -> timer s = None ->
    t0 + recordingWindow <= now s ->
    media_pending s = false -> stop_pending s = false ->
    phase s.

End Capture.

(* ===================================================================== *)
(** * The voice engine behind [/api/auth/enroll] *)
(* ===================================================================== *)

(** The sources hold the capture component and the call to the endpoint;
    the engine itself is not among them. Its operations are modelled from
    the specification, sections 3, 4 and 6. *)

Module Engine.

Definition UserId : Type := string.

Record AudioSample : Type := {
  waveform : list Q;
  sampleRate : Z;
  channels : Z;
  duration : Q
}.

(** An embedding carries the version of the extractor that produced it. *)
Record Embedding : Type := {
  extractor : nat;
  vector : list Q
}.

Inductive ExtractionError : Type := InsufficientSignal | UnsupportedFormat.

Inductive Decision : Type := Accept | Reject.

(** The decision policy: the threshold τ and what a score equal to it
    gets. *)
Record Policy : Type := { threshold : Q; tie : Decision }.

(** Modelled from the spec: the engine's [decide] is not among the sources.
    Section 4.4: "[decide(score, policy) -> Accept | Reject] applies a
    configured threshold τ". A score above τ is accepted, a score below it
    rejected. For a score equal to τ section 4.4 has two sentences,
    "[Accept] iff [score ≥ τ]", which accepts it, and "Ties at exactly τ
    resolve to [Reject] (fail closed)", which rejects it; with no code to
    settle it, the decision at the tie is a field of the policy. *)
Definition decide (score : Q) (policy : Policy) : Decision :=
  match (score ?= threshold policy)%Q with
  | Gt => Accept
  | Lt => Reject
  | Eq => tie policy
  end.

Record VoiceTemplate : Type := {
  owner : UserId;
  extractorVersion : nat;
  aggregate : Embedding;
  quality : Q;
  createdAt : Z;
  templateVersion : nat;
  active : bool
}.

(** The template store: every version ever written, oldest first. *)
Definition TemplateStore : Type := list VoiceTemplate.

Inductive FailureReason : Type :=
| EnrollmentIncomplete
| InconsistentSamples
| QualityBelowThreshold
| UnsupportedFormatReason.

Inductive EnrollStatus : Type :=
| Enrolled (version : nat)
| Failed (reason : FailureReason).

Record EnrollConfig : Type := {
  minSuccessfulSamples : nat;
  maxAttempts : nat;
  consistencyThreshold : Q;
  minQuality : Q
}.

Definition same_slot (u : UserId) (v : nat) (t : VoiceTemplate) : bool :=
  String.eqb (owner t) u && Nat.eqb (extractorVersion t) v.

Definition deactivate (t : VoiceTemplate) : VoiceTemplate :=
  {| owner := owner t; extractorVersion := extractorVersion t;
     aggregate := aggregate t; quality := quality t; createdAt := createdAt t;
     templateVersion := templateVersion t; active := false |}.

(** Modelled from the spec: [TemplateStore.getActive] (section 4.2). *)
Definition getActive (u : UserId) (store : TemplateStore) : option VoiceTemplate :=
  List.find (fun t => String.eqb (owner t) u && active t) store.

Definition next_version (u : UserId) (store : TemplateStore) : nat :=
  S (list_max (List.map templateVersion
                        (List.filter (fun t => String.eqb (owner t) u) store))).

(** Modelled from the spec: [TemplateStore.put] (section 4.2): a new version
    becomes the active one and the former active one of that user and
    extractor version stops being active, in one step; a quality below the
    minimum is refused. *)
Definition put (cfg : EnrollConfig) (u : UserId) (e : Embedding) (q : Q) (time : Z)
    (store : TemplateStore) : EnrollStatus * TemplateStore :=
  if Qle_bool (minQuality cfg) q then
    let v := next_version u store in
    (Enrolled v,
     (List.map (fun t => if same_slot u (extractor e) t then deactivate t else t) store
      ++ [{| owner := u; extractorVersion := extractor e; aggregate := e;
             quality := q; createdAt := time; templateVersion := v;
             active := true |}])%list)
  else (Failed QualityBelowThreshold, store).

(** The smallest similarity among all pairs; [None] when there is no pair. *)
Fixpoint min_pairwise (similarity : Embedding -> Embedding -> Q) (es : list Embedding)
    : option Q :=
  match es with
  | [] => None
  | e :: rest =>
      let here := List.map (similarity e) rest in
      let there := min_pairwise similarity rest in
      List.fold_left
        (fun acc x => match acc with
                      | Some m => Some (if Qle_bool x m then x else m)
                      | None => Some x
                      end)
        here there
  end.

Section Orchestrators.

(** The extractor is pluggable (section 4.1), and so are the similarity
    metric, the aggregate (mean, re-normalised) and the quality estimate. *)
Variable extract : AudioSample -> Embedding + ExtractionError.
Variable similarity : Embedding -> Embedding -> Q.
Variable aggregate_of : list Embedding -> Embedding.
Variable quality_of : list AudioSample -> list Embedding -> Q.

(** Modelled from the spec: the extraction pass of the enrollment
    orchestrator (section 4.3: "for each capture, run FeatureExtractor;
    discard (with a reported reason) any capture producing
    [InsufficientSignal]"). Section 4.1 expects the capture layer to
    normalise the format before the extractor is called; a capture the
    extractor still refuses for its format is no successful extraction
    either and is discarded with its reason. The result holds the
    embeddings and the reasons of the discarded captures. *)
Fixpoint extractions (captures : list AudioSample)
    : list Embedding * list ExtractionError :=
  match captures with
  | [] => ([], [])
  | c :: rest =>
      let '(es, discarded) := extractions rest in
      match extract c with
      | inl e => (e :: es, discarded)
      | inr reason => (es, reason :: discarded)
      end
  end.

(** The captures that yield an embedding. *)
Definition successful (captures : list AudioSample) : list AudioSample :=
  List.filter (fun c => match extract c with inl _ => true | inr _ => false end) captures.

(** Modelled from the spec: the Enroll operation (sections 4.3 and 6), on
    the first [maxAttempts] captures: "require at least
    [minSuccessfulSamples] successful extractions out of a bounded number of
    total attempts before declaring enrollment failed with
    [EnrollmentIncomplete]"; then the consistency check, the aggregate and
    [TemplateStore.put]. *)
Definition enroll (cfg : EnrollConfig) (u : UserId) (captures : list AudioSample)
    (time : Z) (store : TemplateStore) : EnrollStatus * TemplateStore :=
  let attempts := firstn (maxAttempts cfg) captures in
  let es := fst (extractions attempts) in
  if Nat.ltb (length es) (minSuccessfulSamples cfg)
  then (Failed EnrollmentIncomplete, store)
  else
    match min_pairwise similarity es with
    | Some m =>
        if Qle_bool (consistencyThreshold cfg) m
        then put cfg u (aggregate_of es) (quality_of attempts es) time store
        else (Failed InconsistentSamples, store)
    | None => put cfg u (aggregate_of es) (quality_of attempts es) time store
    end.

(** ** Verification *)

Inductive Reason : Type :=
| Matched
| Mismatch
| ExtractionFailed
| NoTemplate
| LockedOut
| VersionMismatch.

(** The audit record of one verification attempt. *)
Record VerificationAttempt : Type := {
  attempt_user : UserId;
  attempt_time : Z;
  attempt_score : option Q;
  attempt_decision : Decision;
  attempt_reason : Reason
}.

Record RateLimit : Type := {
  maxFailedAttempts : nat;
  slidingWindow : Z
}.

(** What a verification attempt reads and writes: the template store, the
    rejects the rate limiter counts (user and time), the audit log, the
    clock. *)
Record Context : Type := {
  templates : TemplateStore;
  failures : list (UserId * Z);
  audit : list VerificationAttempt;
  time : Z
}.

Definition recent_failures (limit : RateLimit) (u : UserId) (c : Context) : nat :=
  length (List.filter
            (fun f => String.eqb (fst f) u && (time c - slidingWindow limit <? snd f))
            (failures c)).

Definition locked_out (limit : RateLimit) (u : UserId) (c : Context) : bool :=
  Nat.leb (maxFailedAttempts limit) (recent_failures limit u c).

(** Modelled from the spec: the states of one verification attempt
    (section 4.5), [Received → Extracting → Matching → Decided → Recorded].
    [Received] holds a sample that passed the input checks upstream
    (section 3) and the claimed identity. *)
Inductive Stage : Type :=
| Received (sample : AudioSample) (user : UserId)
| Extracting (sample : AudioSample) (user : UserId)
| Matching (candidate : Embedding) (user : UserId)
| Decided (user : UserId) (decision : Decision) (reason : Reason) (score : option Q)
| Recorded.

(** Modelled from the spec: [score] (section 4.4), which fails when the
    extractor versions differ. *)
Definition score (candidate : Embedding) (t : VoiceTemplate) : option Q :=
  if Nat.eqb (extractor candidate) (extractorVersion t)
  then Some (similarity candidate (aggregate t))
  else None.

Variable policy : Policy.
Variable limit : RateLimit.

(** Modelled from the spec: [Decided → Recorded] (section 4.5): the audit
    record is appended; a reject counts for the rate limiter, an accept
    resets it. *)
Definition record (u : UserId) (d : Decision) (r : Reason) (sc : option Q)
    (c : Context) : Context :=
  {| templates := templates c;
     failures :=
       match d with
       | Reject => (failures c ++ [(u, time c)])%list
       | Accept => List.filter (fun f => negb (String.eqb (fst f) u)) (failures c)
       end;
     audit := (audit c ++ [{| attempt_user := u; attempt_time := time c;
                              attempt_score := sc; attempt_decision := d;
                              attempt_reason := r |}])%list;
     time := time c |}.

(** Modelled from the spec: the transitions of section 4.5. [None] marks
    the terminal state. *)
Definition step (st : Stage) (c : Context) : option (Stage * Context) :=
  match st with
  | Received sample u => Some (Extracting sample u, c)
  | Extracting sample u =>
      match extract sample with
      | inl e => Some (Matching e u, c)
      | inr _ => Some (Decided u Reject ExtractionFailed None, c)
      end
  | Matching e u =>
      match getActive u (templates c) with
      | None => Some (Decided u Reject NoTemplate None, c)
      | Some t =>
          if locked_out limit u c
          then Some (Decided u Reject LockedOut None, c)
          else
            match score e t with
            | None => Some (Decided u Reject VersionMismatch None, c)
            | Some sc =>
                match decide sc policy with
                | Accept => Some (Decided u Accept Matched (Some sc), c)
                | Reject => Some (Decided u Reject Mismatch (Some sc), c)
                end
            end
      end
  | Decided u d r sc => Some (Recorded, record u d r sc c)
  | Recorded => None
  end.

(** The attempt, run until it stops or the fuel is spent. *)
Fixpoint run (fuel : nat) (st : Stage) (c : Context) : Stage * Context :=
  match fuel with
  | O => (st, c)
  | S fuel' =>
      match step st c with
      | Some (st', c') => run fuel' st' c'
      | None => (st, c)
      end
  end.

(** The Verify operation: four transitions take [Received] to the end. *)
Definition verify (sample : AudioSample) (u : UserId) (c : Context) : Stage * Context :=
  run 4 (Received sample u) c.

(** The execution paths of the state machine. *)
Inductive path : Stage * Context -> Stage * Context -> Prop :=
| path_here : forall x, path x x
| path_step : forall st c y z, step st c = Some y -> path y z -> path (st, c) z.

(** Where the audit log stands on a path that started with the log
    [before]: one record longer once [Recorded] is reached, unchanged until
    then. *)
Definition audited (before : list VerificationAttempt) (x : Stage * Context) : Prop :=
  match fst x with
  | Recorded => exists a, audit (snd x) = (before ++ [a])%list
  | _ => audit (snd x) = before
  end.

End Orchestrators.

(** A small extractor to run the orchestrators on: mono input at 16 kHz is
    supported, an all-zero waveform has no signal, the embedding has two
    coordinates. *)
Definition sample_extract (a : AudioSample) : Embedding + ExtractionError :=
  if negb ((sampleRate a =? 16000) && (channels a =? 1)) then inr UnsupportedFormat
  else if forallb (fun x => Qeq_bool x 0) (waveform a) then inr InsufficientSignal
  else inl {| extractor := 1%nat;
              vector := [List.fold_right Qplus 0%Q (waveform a);
                         inject_Z (Z.of_nat (length (waveform a)))] |}.

End Engine.

(* ===================================================================== *)
(** * [src/components/login-form.tsx]: [LoginForm] and [FontProvider] *)
(* ===================================================================== *)

Module LoginForm.

(** The state of the form and what it has asked of its collaborators: the
    calls to [signIn] (user name and password), to [router.push] and to
    [console.error]. *)
Record State : Type := {
  username : string;
  password : string;
  isLoading : bool;
  defaultPrevented : bool;
  signIns : list (string * string);
  pushed : list string;
  errorsLogged : nat
}.

(** How [await signIn(...)] settles: with a result, or by throwing. *)
Inductive Settled : Type :=
| Resolved (result : Js.Value)
| Thrown.

(** [handleSubmit] up to [await signIn("credentials", { username, password,
    redirect: false })]. *)
Definition submit (s : State) : State :=
  {| username := username s;
     password := password s;
     isLoading := true;
     defaultPrevented := true;
     signIns := (signIns s ++ [(username s, password s)])%list;
     pushed := pushed s;
     errorsLogged := errorsLogged s |}.

(** [!result?.error] *)
Definition no_error (result : Js.Value) : bool :=
  match result with
  | Js.Undefined | Js.Null => true
  | _ => negb (Js.truthy (Js.prop result "error"))
  end.

(** The rest of [handleSubmit]: the [try] body after the [await], the
    [catch] and the [finally]. *)
Definition settle (outcome : Settled) (s : State) : State :=
  {| username := username s;
     password := password s;
     isLoading := false;
     defaultPrevented := defaultPrevented s;
     signIns := signIns s;
     pushed := match outcome with
               | Resolved result =>
                   if no_error result then (pushed s ++ ["/"])%list else pushed s
               | Thrown => pushed s
               end;
     errorsLogged := match outcome with
                     | Resolved _ => errorsLogged s
                     | Thrown => S (errorsLogged s)
                     end |}.

Definition handleSubmit (outcome : Settled) (s : State) : State :=
  settle outcome (submit s).

End LoginForm.

Module FontProvider.

(** An element, with the identity [document.createElement] gave it. *)
Record Element : Type := {
  ident : nat;
  tagName : string;
  textContent : string
}.

(** What the effect touches of the document: the class list of [body], the
    children of [head], and the number of elements created so far. *)
Record Document : Type := {
  bodyClassList : list string;
  headChildren : list Element;
  created : nat
}.

(** [classList.add(token)]: a class list holds a token once. *)
Definition classList_add (token : string) (l : list string) : list string :=
  if existsb (String.eqb token) l then l else (l ++ [token])%list.

(** [classList.remove(token)] *)
Definition classList_remove (token : string) (l : list string) : list string :=
  List.filter (fun c => negb (String.eqb token c)) l.

(** [parent.removeChild(child)]: throws when [child] is not a child. *)
Definition removeChild (child : Element) (children : list Element) : option (list Element) :=
  if existsb (fun e => Nat.eqb (ident e) (ident child)) children
  then Some (List.filter (fun e => negb (Nat.eqb (ident e) (ident child))) children)
  else None.

Section Effect.

(** The style sheet text the effect installs. *)
Variable css : string.

(** The body of the effect: returns the document and the [style] element
    the clean-up closes over. *)
Definition mount (d : Document) : Document * Element :=
  let style := {| ident := created d; tagName := "style"; textContent := css |} in
  ({| bodyClassList := classList_add "fonts-loaded" (bodyClassList d);
      headChildren := (headChildren d ++ [style])%list;
      created := S (created d) |},
   style).

(** The clean-up the effect returns. *)
Definition cleanup (style : Element) (d : Document) : option Document :=
  match removeChild style (headChildren d) with
  | Some children =>
      Some {| bodyClassList := classList_remove "fonts-loaded" (bodyClassList d);
              headChildren := children;
              created := created d |}
  | None => None
  end.

End Effect.

(** Every element in the document was created by the document. *)
Definition well_numbered (d : Document) : Prop :=
  Forall (fun e => (ident e < created d)%nat) (headChildren d).

End FontProvider.

(* ===================================================================== *)
(** * What the component shows during an invocation *)
(* ===================================================================== *)

Module Screen.
Import Capture.

Definition recordingText : string := "Recording enrollment sample... Speak now".
Definition errorText : string := "Error during enrollment".
Definition successText : string := "Voice profile enrolled successfully".

(** What the user sees, by the stage of the invocation: the status text,
    whether the button is disabled ([isEnrolling]) and whether the stream is
    held. Once the recorder is inactive the button is disabled exactly while
    the timer is pending, which is the case only when the recorder stopped
    by itself. *)
Inductive shows (s : State) : Prop :=
| asking :
    media_pending s = true -> mediaRecorder s = None -> actions s = [] ->
    status s = recordingText -> isEnrolling s = true -> tracks_live s = false ->
    shows s
| refused :
    media_pending s = false -> mediaRecorder s = None -> actions s = [] ->
    status s = errorText -> isEnrolling s = false ->
    shows s
| listening :
    mediaRecorder s = Some recording ->
    status s = recordingText -> isEnrolling s = true -> tracks_live s = true ->
    shows s
| stopped :
    mediaRecorder s = Some inactive ->
    status s = recordingText ->
    isEnrolling s = timer_pending s -> tracks_live s = true ->
    shows s
| enrolled :
    mediaRecorder s = Some inactive -> fetch_pending s = false ->
    (exists t audio, In (Fetch t audio) (actions s)) ->
    status s = successText ->
    isEnrolling s = timer_pending s -> tracks_live s = false ->
    shows s.

(** The schedule of an invocation that runs its course: the microphone is
    granted, chunks arrive, [ms] milliseconds pass, the recorder delivers
    its last chunk and stops. *)
Definition schedule (chunks : list Blob) (ms : Z) (final : Blob) : list Event :=
  (MediaGranted :: List.map DataAvailable chunks ++ [Elapse ms; Stopped final])%list.

(** The state with other chunks collected. *)
Definition with_chunks (chunks : list Blob) (s : State) : State :=
  {| now := now s;
     isEnrolling := isEnrolling s;
     status := status s;
     media_pending := media_pending s;
     mediaRecorder := mediaRecorder s;
     audioChunks := chunks;
     timer := timer s;
     stop_pending := stop_pending s;
     fetch_pending := fetch_pending s;
     tracks_live := tracks_live s;
     actions := actions s |}.

Definition nonempty (b : Blob) : bool := 0 <? size b.

(** An invocation that is over because the microphone was refused. *)
Definition over (s : State) : Prop :=
  media_pending s = false /\ mediaRecorder s = None /\ timer s = None /\
  stop_pending s = false /\ fetch_pending s = false /\
  actions s = [] /\ status s = errorText /\ isEnrolling s = false.

End Screen.

(* ===================================================================== *)
(** * What the properties of the handlers speak about *)
(* ===================================================================== *)

Module Views.
Import Prisma Route.

(** The rows a response carries in [queries]. *)
Definition queries_of (r : Response) : list QueryHistory :=
  match body r with
  | Page queries _ _ _ _ => queries
  | _ => []
  end.

(** The row a response carries. *)
Definition row_of (r : Response) : option QueryHistory :=
  match body r with
  | Row row => row
  | _ => None
  end.

(** The [pagination.total] a response carries. *)
Definition total_of (r : Response) : option Js.Value :=
  match body r with
  | Page _ total _ _ _ => Some total
  | _ => None
  end.

(** [{ error: ... }] *)
Definition is_error (r : Response) : bool :=
  match body r with
  | Error _ => true
  | _ => false
  end.

(** The rows user [own] does not own. *)
Definition foreign (own : string) (d : Db) : list QueryHistory :=
  List.filter (fun r => negb (String.eqb (userId r) own)) (rows d).

(** The ids of the visualizations in the table. *)
Definition visualization_ids (d : Db) : list string :=
  List.flat_map (fun r => match visualization r with
                          | Some v => [vid v]
                          | None => []
                          end) (rows d).

(** Primary keys are unique: no two rows share an id, no two visualizations
    share one. *)
Definition unique_keys (d : Db) : Prop :=
  List.NoDup (List.map id (rows d)) /\ List.NoDup (visualization_ids d).

(** The calls PUT makes inside [prisma.$transaction]. *)
Definition in_transaction (op : Op) : bool :=
  match op with
  | Update _ _ | VisualizationUpdate _ _ | VisualizationCreate _ _ => true
  | _ => false
  end.

(** The calls that only read. *)
Definition reads (op : Op) : bool :=
  match op with
  | FindMany _ _ _ | Count _ | FindUnique _ => true
  | _ => false
  end.

(** The world after one call was logged and the database left alone. *)
Definition after_read (op : Op) (w : World) : World :=
  {| db := db w; log := (log w ++ [op])%list |}.

(** What identifies a row and is never up for change: its id, its owner
    and its creation time. *)
Definition identity (r : QueryHistory) : string * string * Z :=
  (id r, userId r, createdAt r).

(** The columns of a row, its visualization left out. *)
Definition columns (r : QueryHistory) : QueryHistory :=
  Client.set_visualization None r.

(** A computation that takes every database to one related to it by [P]. *)
Definition preserves {A} (P : Db -> Db -> Prop) (m : M A) : Prop :=
  forall w, P (db w) (db (snd (m w))).

(** The last call in the log. *)
Definition last_call (w : World) : option Op :=
  match rev (log w) with
  | op :: _ => Some op
  | [] => None
  end.

(** The [data] PUT passes to [update]: a field of the payload when it is
    truthy, the stored value otherwise; [successful] whenever the payload
    has it. *)
Definition merged (v : Js.Value) (existing : QueryHistory) : UpdateInput :=
  {| u_userQuery := Js.or (Js.prop v "userQuery") (userQuery existing);
     u_sqlQuery := Js.or (Js.prop v "sqlQuery") (sqlQuery existing);
     u_relatedQueries := Js.or (Js.prop v "relatedQueries") (relatedQueries existing);
     u_results := Js.or (Js.prop v "results") (results existing);
     u_executionTime := Js.or (Js.prop v "executionTime") (executionTime existing);
     u_successful := match Js.prop v "successful" with
                     | Js.Undefined => successful existing
                     | _ => Js.prop v "successful"
                     end;
     u_errorMessage := Js.or (Js.prop v "errorMessage") (errorMessage existing) |}.

(** A row PUT may change, given the id asked for and the row found under
    it: it carries that id, or the id of a row whose visualization has the
    id of the found row's visualization. *)
Definition in_reach (d : Db) (k : string) (existing r : QueryHistory) : Prop :=
  id r = k \/
  exists r0 ev v0,
    In r0 (rows d) /\ visualization existing = Some ev /\
    visualization r0 = Some v0 /\ vid v0 = vid ev /\ id r = id r0.

(** A response with one of the statuses [codes], whose body is an error
    exactly when the status is not [ok]. *)
Definition shaped (ok : Z) (codes : list Z) (r : Response) : Prop :=
  In (status r) codes /\ is_error r = negb (status r =? ok).

(** The visualization PUT writes for a payload visualization [p]: into an
    existing one, a field of [p] when it is truthy and the stored value
    otherwise; a new one takes the fields of [p] as they are. *)
Definition merged_visualization (p : Js.Value) (existing : option Visualization)
    (fresh query : string) : Visualization :=
  match existing with
  | Some ev =>
      {| vid := vid ev; queryId := query;
         chartType := Js.or (Js.prop p "chartType") (chartType ev);
         chartOptions := Js.or (Js.prop p "chartOptions") (chartOptions ev);
         title := Js.or (Js.prop p "title") (title ev);
         description := Js.or (Js.prop p "description") (description ev) |}
  | None =>
      {| vid := fresh; queryId := query;
         chartType := Client.stored (Js.prop p "chartType");
         chartOptions := Client.stored (Js.prop p "chartOptions");
         title := Client.stored (Js.prop p "title");
         description := Client.stored (Js.prop p "description") |}
  end.

(** A request with a JSON body. *)
Definition with_body (v : Js.Value) : Request :=
  {| searchParams := []; json := Some v |}.

End Views.

(* ===================================================================== *)
(** * Theorems: the query-history handlers *)
(* ===================================================================== *)

(** C8. Without an authenticated session ([getServerSession] gives [null],
    or a session without [user]) each of GET, POST, PUT and DELETE returns
    status 401 with the body [{ error: "unauthorized" }], and the world is
    left as it was: no call reaches the database and nothing is written. *)
Theorem C8_no_session_401
    (permits : Prisma.Db -> Prisma.Op -> bool) (gen_id : nat -> string)
    (session : option Auth.Session) (req : Route.Request) (w : Prisma.World) :
  Auth.session_user session = None ->
  let denied := (Route.respond (Route.Error "unauthorized") 401, w) in
  Route.GET permits session req w = denied /\
  Route.POST permits gen_id session req w = denied /\
  Route.PUT permits gen_id session req w = denied /\
  Route.DELETE permits session req w = denied.
Proof.
  intros Hnone denied. subst denied.
  unfold Route.GET, Route.POST, Route.PUT, Route.DELETE.
  rewrite Hnone. repeat split.
Qed.

Lemma C8_no_session_401_witness :
  let w := {| Prisma.db := {| Prisma.rows := []; Prisma.issued := 0; Prisma.clock := 0 |};
              Prisma.log := [] |} in
  let req := {| Route.searchParams := [("userId", "alice")]; Route.json := None |} in
  let denied := (Route.respond (Route.Error "unauthorized") 401, w) in
  Route.GET (fun _ _ => true) (Some {| Auth.user := None |}) req w = denied /\
  Route.POST (fun _ _ => true) (fun _ => "id") (Some {| Auth.user := None |}) req w = denied /\
  Route.PUT (fun _ _ => true) (fun _ => "id") (Some {| Auth.user := None |}) req w = denied /\
  Route.DELETE (fun _ _ => true) (Some {| Auth.user := None |}) req w = denied.
Proof.
  intros w req.
  exact (C8_no_session_401 (fun _ _ => true) (fun _ => "id")
           (Some {| Auth.user := None |}) req w eq_refl).
Defined.

Section GetFacts.
Import Prisma Client Route.

Variable permits : Db -> Op -> bool.

(** [userId !== session.user.id] as a proposition. *)
Lemma differs_spec (userId : option string) (own : string) :
  differs userId own = true <-> userId <> Some own.
Proof.
  unfold differs. destruct userId as [u|]; [|split; [discriminate | reflexivity]].
  destruct (String.eqb_spec u own) as [->|Hne]; simpl; split; congruence.
Qed.

(** Past its two guards GET answers 200 or 500. *)
Lemma both_status (w_ : Where) (skip limit page : Js.Number) (w : World) :
  let r := fst (catching "error fetching query history"
    (r <- both (findMany permits w_ skip limit) (count permits w_);;
     let '(queries, total) := r in
     ret (respond
            (Page queries (Js.Num (inject_Z total)) (json_of_number page)
               (json_of_number limit)
               (json_of_number (Js.ceil (Js.div (Js.of_Z total) limit))))
            200)) w) in
  status r = 200 \/ status r = 500.
Proof.
  unfold catching, bind.
  destruct (both _ _ w) as [[[queries total]|] w']; simpl; auto.
Qed.

End GetFacts.

(** C9. For a signed-in user whose role is not ADMIN, GET answers 403 exactly
    when the [userId] query parameter is not the session user's id; a request
    without the parameter is among them, although the filter would have
    fallen back to the caller's own id. *)
Theorem C9_get_403_iff_not_own_id
    (permits : Prisma.Db -> Prisma.Op -> bool) (u : Auth.User)
    (req : Route.Request) (w : Prisma.World) :
  Auth.role u <> "ADMIN" ->
  let r := fst (Route.GET permits (Auth.signed_in u) req w) in
  (Route.status r = 403 <->
     Route.get "userId" (Route.searchParams req) <> Some (Auth.id u)) /\
  (Route.get "userId" (Route.searchParams req) = None -> Route.status r = 403).
Proof.
  intros Hrole r.
  assert (Hiff : Route.status r = 403 <->
            Route.get "userId" (Route.searchParams req) <> Some (Auth.id u)).
  { subst r. unfold Route.GET. cbn [Auth.session_user Auth.signed_in Auth.user].
    apply String.eqb_neq in Hrole. rewrite Hrole. cbn [negb andb].
    destruct (Route.differs _ _) eqn:Hd.
    - split; [intros _|reflexivity]. now apply differs_spec.
    - split.
      + intros H403.
        match type of H403 with
        | Route.status (fst (Route.catching _ (bind (both (Client.findMany _ ?w_ ?sk ?lim) _) _) _)) = _ =>
            pose proof (both_status permits w_ sk lim
                          (Route.int_param "page" 1 (Route.searchParams req)) w) as Hs
        end.
        cbv zeta in Hs. destruct Hs as [Hs|Hs]; rewrite Hs in H403; discriminate.
      + intros Hne. apply differs_spec in Hne. congruence. }
  split; [exact Hiff|].
  intros Hnone. apply Hiff. rewrite Hnone. discriminate.
Qed.

Lemma C9_get_403_iff_not_own_id_witness :
  let u := {| Auth.id := "alice"; Auth.role := "USER" |} in
  let w := {| Prisma.db := {| Prisma.rows := []; Prisma.issued := 0; Prisma.clock := 0 |};
              Prisma.log := [] |} in
  let req := {| Route.searchParams := [("limit", "5")]; Route.json := None |} in
  Route.status (fst (Route.GET (fun _ _ => true) (Auth.signed_in u) req w)) = 403.
Proof.
  intros u w req.
  apply (C9_get_403_iff_not_own_id (fun _ _ => true) u req w); [discriminate | reflexivity].
Defined.

(** C1. For a signed-in user, two POST payloads that differ at most in
    their [userId] field get the same response and leave the same world;
    and whenever POST creates a record (status 201) the row it stores and
    returns, and the [data] it passes to [create], carry the session user's
    id as owner. A POST that does not answer 201 leaves the table as it
    was. *)
Theorem C1_post_owner_is_session_user
    (permits : Prisma.Db -> Prisma.Op -> bool) (gen_id : nat -> string)
    (u : Auth.User) (params : list (string * string))
    (f1 f2 : list (string * Js.Value)) (w : Prisma.World) :
  (forall k, k <> "userId" -> Js.get_field k f1 = Js.get_field k f2) ->
  let post f := Route.POST permits gen_id (Auth.signed_in u)
                  {| Route.searchParams := params; Route.json := Some (Js.Obj f) |} w in
  post f1 = post f2 /\
  ((Route.status (fst (post f1)) = 201 /\
    exists row data,
      Route.body (fst (post f1)) = Route.Row (Some row) /\
      Prisma.userId row = Auth.id u /\
      Prisma.c_userId data = Auth.id u /\
      Prisma.log (snd (post f1)) = (Prisma.log w ++ [Prisma.Create data])%list /\
      Prisma.rows (Prisma.db (snd (post f1))) = (Prisma.rows (Prisma.db w) ++ [row])%list)
   \/
   (Route.status (fst (post f1)) <> 201 /\
    Prisma.db (snd (post f1)) = Prisma.db w)).
Proof.
  intros Hsame post. split.
  - subst post. cbv beta. unfold Route.POST, Route.catching, bind.
    cbn [Auth.session_user Auth.signed_in Auth.user Route.req_json Route.json
         Route.destructure Js.destructurable Js.prop ret].
    rewrite !(Hsame "userQuery"), !(Hsame "sqlQuery"), !(Hsame "relatedQueries"),
            !(Hsame "results"), !(Hsame "executionTime"), !(Hsame "successful"),
            !(Hsame "errorMessage"), !(Hsame "visualization") by discriminate.
    reflexivity.
  - subst post. cbv beta. unfold Route.POST, Route.catching, bind.
    cbn [Auth.session_user Auth.signed_in Auth.user Route.req_json Route.json
         Route.destructure Js.destructurable Js.prop ret].
    destruct (negb (Js.truthy _) || negb (Js.truthy _)).
    + right. cbn. split; [discriminate | reflexivity].
    + unfold Client.create, Client.call.
      destruct (permits (Prisma.db w) _).
      * left. cbn. split; [reflexivity|]. eexists _, _. repeat apply conj.
        4: reflexivity. all: reflexivity.
      * right. cbn. split; [discriminate | reflexivity].
Qed.

Lemma C1_post_owner_is_session_user_witness :
  let u := {| Auth.id := "alice"; Auth.role := "USER" |} in
  let w := {| Prisma.db := {| Prisma.rows := []; Prisma.issued := 0; Prisma.clock := 7 |};
              Prisma.log := [] |} in
  let fields := [("userQuery", Js.Str "top customers");
                 ("sqlQuery", Js.Str "select 1")] in
  let post f := Route.POST (fun _ _ => true) (fun _ => "q1") (Auth.signed_in u)
                  {| Route.searchParams := []; Route.json := Some (Js.Obj f) |} w in
  post (("userId", Js.Str "mallory") :: fields) = post fields.
Proof.
  intros u w fields post.
  refine (proj1 (C1_post_owner_is_session_user (fun _ _ => true) (fun _ => "q1") u []
                   (("userId", Js.Str "mallory") :: fields) fields w _)).
  intros k Hk. cbn [Js.get_field].
  destruct (String.eqb_spec "userId" k) as [E|_]; [congruence | reflexivity].
Defined.

Example post_ignores_payload_userId :
  let u := {| Auth.id := "alice"; Auth.role := "USER" |} in
  let w := {| Prisma.db := {| Prisma.rows := []; Prisma.issued := 0; Prisma.clock := 7 |};
              Prisma.log := [] |} in
  let r := fst (Route.POST (fun _ _ => true) (fun _ => "q1") (Auth.signed_in u)
                  {| Route.searchParams := [];
                     Route.json := Some (Js.Obj [("userId", Js.Str "mallory");
                                                 ("userQuery", Js.Str "top customers");
                                                 ("sqlQuery", Js.Str "select 1")]) |} w) in
  Route.status r = 201 /\
  exists row, Route.body r = Route.Row (Some row) /\ Prisma.userId row = "alice".
Proof. cbn. split; [reflexivity | eexists; split; reflexivity]. Qed.

Section Numbers.

Lemma Qred_inject_Z (z : Z) : Qred (inject_Z z) = inject_Z z.
Proof. apply Qcanon.Qred_identity. simpl. apply Z.gcd_1_r. Qed.

(** [double] looks at the value of the fraction only. *)
Lemma double_comp (x y : Q) : (x == y)%Q -> Js.double x = Js.double y.
Proof. intros H. unfold Js.double. now rewrite (Qred_complete x y H). Qed.

Lemma ceil_unique (a b c : Z) : 0 < b -> (c - 1) * b < a <= c * b -> - ((- a) / b) = c.
Proof.
  intros Hb H. rewrite <- (Z.div_unique (- a) b (- c) (c * b - a)); lia.
Qed.

(** The exponent [log2_floor] finds is not above that of [n / d]. *)
Lemma log2_floor_spec (n d : Z) :
  0 < n -> 0 < d ->
  let e := Js.log2_floor n d in
  d * 2 ^ Z.max e 0 <= n * 2 ^ Z.max (- e) 0 /\
  Z.log2 n - Z.log2 d - 1 <= e.
Proof.
  intros Hn Hd. unfold Js.log2_floor.
  destruct (Z.log2_spec n Hn) as [Hn1 Hn2], (Z.log2_spec d Hd) as [Hd1 Hd2].
  pose proof (Z.log2_nonneg n) as Ha. pose proof (Z.log2_nonneg d) as Hb.
  set (a := Z.log2 n) in *. set (b := Z.log2 d) in *.
  destruct (Z.ltb_spec (n * 2 ^ Z.max (- (a - b)) 0) (d * 2 ^ Z.max (a - b) 0)) as [Hlt|Hge];
    cbv zeta; [|lia].
  split; [|lia].
  destruct (Z.le_gt_cases 1 (a - b)) as [Hpos|Hneg].
  - rewrite (Z.max_l (a - b - 1) 0), (Z.max_r (- (a - b - 1)) 0) by lia.
    rewrite Z.pow_0_r, Z.mul_1_r.
    assert (E : 2 ^ a = 2 ^ (a - b - 1) * 2 ^ Z.succ b).
    { rewrite <- Z.pow_add_r by lia. f_equal. lia. }
    assert (0 < 2 ^ (a - b - 1)) by (apply Z.pow_pos_nonneg; lia).
    nia.
  - rewrite (Z.max_r (a - b - 1) 0), (Z.max_l (- (a - b - 1)) 0) by lia.
    rewrite Z.pow_0_r, Z.mul_1_r.
    assert (E : 2 ^ Z.succ b = 2 ^ a * 2 ^ (- (a - b - 1))).
    { rewrite <- Z.pow_add_r by lia. f_equal. lia. }
    assert (0 < 2 ^ (- (a - b - 1))) by (apply Z.pow_pos_nonneg; lia).
    nia.
Qed.

(** Rounding [a / b] to the nearest integer stays between the integers
    around the quotient. *)
Lemma div_half_even_spec (a b : Z) :
  0 <= a -> 0 < b ->
  let m := Js.div_half_even a b in
  (m = a / b \/ m = a / b + 1) /\
  (2 * (a mod b) < b -> m = a / b) /\
  (b < 2 * (a mod b) -> m = a / b + 1) /\
  (a mod b = 0 -> m = a / b).
Proof.
  intros Ha Hb. unfold Js.div_half_even. cbv zeta.
  destruct (Z.compare_spec (2 * (a mod b)) b) as [E|L|G].
  - destruct (Z.even (a / b)); repeat split; intros; auto; lia.
  - repeat split; intros; auto; lia.
  - repeat split; intros; auto; lia.
Qed.

(** The ceiling of a quotient of two positive integers below 2^53 survives
    the rounding of the quotient to a double. *)
Lemma ceil_double_pos (n d : Z) :
  0 < n < 2 ^ 53 -> 0 < d < 2 ^ 53 ->
  Js.ceil (Js.double_pos n d) = Js.of_Z (- ((- n) / d)).
Proof.
  intros [Hn Hn53] [Hd Hd53]. unfold Js.double_pos.
  destruct (log2_floor_spec n d Hn Hd) as [Hle Hlow]. cbv zeta in Hle, Hlow.
  set (e := Js.log2_floor n d) in *.
  assert (Hb : Z.log2 d < 53) by (apply Z.log2_lt_pow2; lia).
  pose proof (Z.log2_nonneg n) as Ha.
  assert (He53 : e <= 52).
  { destruct (Z.le_gt_cases e 52) as [|Hbig]; [assumption|exfalso].
    rewrite (Z.max_l e 0), (Z.max_r (- e) 0), Z.pow_0_r, Z.mul_1_r in Hle by lia.
    assert (2 ^ 53 <= 2 ^ e) by (apply Z.pow_le_mono_r; lia). nia. }
  rewrite (Z.max_l e (-1022)) by lia.
  set (s := 52 - e).
  replace (e - 52) with (- s) by (unfold s; lia).
  rewrite (Z.max_r (- s) 0), Z.opp_involutive, (Z.max_l s 0), Z.pow_0_r by (unfold s; lia).
  rewrite !Z.mul_1_r.
  assert (HS : 0 < 2 ^ s) by (apply Z.pow_pos_nonneg; unfold s; lia).
  assert (Hd2 : d < 2 * 2 ^ s).
  { replace (2 * 2 ^ s) with (2 ^ (53 - e))
      by (replace (53 - e) with (Z.succ s) by (unfold s; lia);
          rewrite Z.pow_succ_r by (unfold s; lia); reflexivity).
    destruct (Z.le_gt_cases 0 e) as [Hpos|Hneg].
    - rewrite (Z.max_l e 0), (Z.max_r (- e) 0), Z.pow_0_r, Z.mul_1_r in Hle by lia.
      assert (E : 2 ^ 53 = 2 ^ (53 - e) * 2 ^ e)
        by (rewrite <- Z.pow_add_r by lia; f_equal; lia).
      assert (0 < 2 ^ e) by (apply Z.pow_pos_nonneg; lia). nia.
    - rewrite (Z.max_r e 0), (Z.max_l (- e) 0), Z.pow_0_r, Z.mul_1_r in Hle by lia.
      assert (E : 2 ^ (53 - e) = 2 ^ 53 * 2 ^ (- e))
        by (rewrite <- Z.pow_add_r by lia; f_equal; lia).
      assert (0 < 2 ^ (- e)) by (apply Z.pow_pos_nonneg; lia). nia. }
  set (S := 2 ^ s) in *.
  set (c := - ((- n) / d)).
  assert (Hc : (c - 1) * d < n <= c * d).
  { unfold c. pose proof (Z.div_mod (- n) d ltac:(lia)) as Hdm.
    pose proof (Z.mod_pos_bound (- n) d Hd) as Hm. nia. }
  destruct (div_half_even_spec (n * S) d ltac:(nia) Hd) as (Hcases & Hlo & Hhi & Hex).
  cbv zeta in Hcases, Hlo, Hhi, Hex.
  set (m := Js.div_half_even (n * S) d) in *.
  pose proof (Z.div_mod (n * S) d ltac:(lia)) as Hdm.
  pose proof (Z.mod_pos_bound (n * S) d Hd) as Hm.
  set (k := n * S / d) in *. set (r := (n * S) mod d) in *.
  assert (Hbounds : (c - 1) * S < m <= c * S).
  { split.
    - (* the rounding does not fall to the integer below *)
      assert (Hk : (c - 1) * S <= k) by nia.
      destruct (Z.eq_dec k ((c - 1) * S)) as [Ek|]; [|lia].
      assert (b1 : S <= r) by nia.
      rewrite (Hhi ltac:(lia)). lia.
    - destruct (Z.eq_dec r 0) as [Er|Er].
      + rewrite (Hex Er). nia.
      + assert (k < c * S) by nia. lia. }
  assert (Hover : (2 ^ 1024 * S <=? m) = false).
  { apply Z.leb_gt. assert (2 ^ 53 < 2 ^ 1024) by (apply Z.pow_lt_mono_r; lia). nia. }
  rewrite Hover. unfold Js.ceil. f_equal.
  rewrite (Qceiling_comp _ _ (Qred_correct _)).
  unfold Qceiling, Qfloor, Qopp. cbn [Qnum Qden]. rewrite Z2Pos.id by exact HS.
  apply ceil_unique; assumption.
Qed.

(** An integer below 2^53 is a double. *)
Lemma double_pos_int (n : Z) : 0 < n < 2 ^ 53 -> Js.double_pos n 1 = Js.of_Z n.
Proof.
  intros [Hn Hn53]. unfold Js.double_pos.
  destruct (log2_floor_spec n 1 Hn ltac:(lia)) as [Hle Hlow]. cbv zeta in Hle, Hlow.
  set (e := Js.log2_floor n 1) in *.
  pose proof (Z.log2_nonneg n) as Ha. change (Z.log2 1) with 0 in Hlow.
  assert (He53 : e <= 52).
  { destruct (Z.le_gt_cases e 52) as [|Hbig]; [assumption|exfalso].
    rewrite (Z.max_l e 0), (Z.max_r (- e) 0), Z.pow_0_r, Z.mul_1_r in Hle by lia.
    assert (2 ^ 53 <= 2 ^ e) by (apply Z.pow_le_mono_r; lia). nia. }
  rewrite (Z.max_l e (-1022)) by lia.
  set (s := 52 - e).
  replace (e - 52) with (- s) by (unfold s; lia).
  rewrite (Z.max_r (- s) 0), Z.opp_involutive, (Z.max_l s 0), Z.pow_0_r by (unfold s; lia).
  rewrite !Z.mul_1_r.
  assert (HS : 0 < 2 ^ s) by (apply Z.pow_pos_nonneg; unfold s; lia).
  destruct (div_half_even_spec (n * 2 ^ s) 1 ltac:(nia) ltac:(lia)) as (_ & _ & _ & Hex).
  cbv zeta in Hex. rewrite (Hex (Z.mod_1_r _)), Z.div_1_r.
  assert (Hover : (2 ^ 1024 * 2 ^ s <=? n * 2 ^ s) = false).
  { apply Z.leb_gt. assert (2 ^ 53 < 2 ^ 1024) by (apply Z.pow_lt_mono_r; lia). nia. }
  rewrite Hover. unfold Js.of_Z. f_equal.
  rewrite <- (Qred_inject_Z n). apply Qred_complete.
  unfold Qeq, inject_Z. cbn [Qnum Qden]. rewrite Z2Pos.id by exact HS. lia.
Qed.

(** A safe integer is a double. *)
Lemma double_of_Z (z : Z) :
  Z.abs z <= Js.MAX_SAFE_INTEGER -> Js.double (inject_Z z) = Js.of_Z z.
Proof.
  unfold Js.MAX_SAFE_INTEGER. intros Hz. unfold Js.double. rewrite Qred_inject_Z.
  cbn [Qnum Qden inject_Z]. destruct z as [|p|p].
  - reflexivity.
  - apply double_pos_int. lia.
  - rewrite double_pos_int by lia. unfold Js.opp, Js.of_Z. f_equal.
    exact (Qred_inject_Z (Z.neg p)).
Qed.

(** Reducing a positive fraction does not make its terms larger. *)
Lemma Qred_bounds (n : Z) (d : positive) :
  0 < n ->
  0 < Qnum (Qred (n # d)) <= n /\ Z.pos (Qden (Qred (n # d))) <= Z.pos d.
Proof.
  intros Hn. unfold Qred.
  pose proof (Z.ggcd_gcd n (Z.pos d)) as Hg.
  pose proof (Z.ggcd_correct_divisors n (Z.pos d)) as Hdiv.
  pose proof (Z.gcd_nonneg n (Z.pos d)) as Hpos.
  destruct (Z.ggcd n (Z.pos d)) as [g [n' d']]. cbn [fst snd] in *. subst g.
  destruct Hdiv as [En Ed]. cbn [Qnum Qden].
  generalize dependent (Z.gcd n (Z.pos d)). intros g En Ed Hpos.
  assert (Hg : 0 < g) by (destruct (Z.eq_dec g 0) as [->|]; lia).
  assert (Hd' : 0 < d') by (destruct (Z.lt_trichotomy d' 0) as [|[->|]]; nia).
  assert (Hn' : 0 < n') by (destruct (Z.lt_trichotomy n' 0) as [|[->|]]; nia).
  rewrite Z2Pos.id by assumption. nia.
Qed.

(** The difference of two integers is exact when it is a safe integer. *)
Lemma sub_of_Z (a b : Z) :
  Z.abs (a - b) <= Js.MAX_SAFE_INTEGER ->
  Js.sub (Js.of_Z a) (Js.of_Z b) = Js.of_Z (a - b).
Proof.
  intros H. rewrite <- (double_of_Z _ H). unfold Js.sub, Js.of_Z. apply double_comp.
  unfold Z.sub. rewrite inject_Z_plus, inject_Z_opp. reflexivity.
Qed.

(** The product of two integers is exact when it is a safe integer. *)
Lemma mul_of_Z (a b : Z) :
  Z.abs (a * b) <= Js.MAX_SAFE_INTEGER ->
  Js.mul (Js.of_Z a) (Js.of_Z b) = Js.of_Z (a * b).
Proof.
  intros H. rewrite <- (double_of_Z _ H). unfold Js.mul, Js.of_Z. apply double_comp.
  rewrite inject_Z_mult. reflexivity.
Qed.

Lemma as_int_of_Z (z : Z) : Js.as_int (Js.of_Z z) = Some z.
Proof.
  unfold Js.as_int, Js.of_Z. rewrite Qfloor_Z.
  assert (H : Qeq_bool (inject_Z z) (inject_Z z) = true) by (apply Qeq_bool_iff; reflexivity).
  now rewrite H.
Qed.

(** [Math.ceil(total / limit)] is the ceiling of the exact quotient for a
    count and a positive limit that are safe integers: rounding the
    quotient to a double does not move it across an integer. *)
Lemma ceil_div_of_Z (total limit : Z) :
  0 <= total <= Js.MAX_SAFE_INTEGER ->
  0 < limit <= Js.MAX_SAFE_INTEGER ->
  Js.ceil (Js.div (Js.of_Z total) (Js.of_Z limit)) = Js.of_Z (Route.pages total limit).
Proof.
  unfold Js.MAX_SAFE_INTEGER. intros Ht Hl.
  unfold Js.div, Js.of_Z, Js.sgn. cbn [Qnum inject_Z].
  destruct limit as [|l|l]; try lia. cbn [Z.sgn Z.eqb].
  unfold Route.pages.
  destruct total as [|t|t]; try lia.
  - rewrite (double_comp _ 0%Q) by reflexivity.
    rewrite (Qceiling_comp (inject_Z 0 / inject_Z (Z.pos l)) 0%Q) by reflexivity.
    reflexivity.
  - change (inject_Z (Z.pos t) / inject_Z (Z.pos l))%Q with (Z.pos t * 1 # 1 * l)%Q.
    rewrite Z.mul_1_r, Pos.mul_1_l.
    destruct (Qred_bounds (Z.pos t) l ltac:(lia)) as [[Hn0 Hn] Hd].
    unfold Js.double. rewrite (Qceiling_comp _ _ (Qeq_sym _ _ (Qred_correct (Z.pos t # l)))).
    destruct (Qred (Z.pos t # l)) as [n d]. cbn [Qnum Qden] in *.
    destruct n as [|n|n]; try lia.
    rewrite ceil_double_pos by lia.
    unfold Qceiling, Qfloor, Qopp. cbn [Qnum Qden]. reflexivity.
Qed.

Example parseInt_decimal : Js.parseInt "10" = Js.of_Z 10.
Proof. reflexivity. Qed.

Example parseInt_not_a_number : Js.parseInt "abc" = Js.NaN.
Proof. reflexivity. Qed.

Example parseInt_leading_digits : Js.parseInt "  -12px" = Js.of_Z (-12).
Proof. reflexivity. Qed.

Example parseInt_hexadecimal : Js.parseInt "0x1f" = Js.of_Z 31.
Proof. reflexivity. Qed.

Example parseInt_rounds :
  Js.parseInt "9007199254740993" = Js.of_Z 9007199254740992.
Proof. vm_compute. reflexivity. Qed.

Example parseInt_no_break_space :
  Js.parseInt (String (ascii_of_nat 194) (String (ascii_of_nat 160) "42")) = Js.of_Z 42.
Proof. vm_compute. reflexivity. Qed.

Example division_rounds :
  Js.div (Js.of_Z 1) (Js.of_Z 3) = Js.Fin (6004799503160661 # 18014398509481984).
Proof. vm_compute. reflexivity. Qed.

(** A parameter that is absent gets its default. *)
Lemma int_param_default (name : string) (fallback : Z) (params : list (string * string)) :
  Route.get name params = None -> Route.int_param name fallback params = Js.of_Z fallback.
Proof. unfold Route.int_param. now intros ->. Qed.

End Numbers.

Section Ordering.
Import Prisma.

#[local] Instance newer_first_transitive : Transitive newer_first.
Proof. intros a b c. unfold newer_first. lia. Qed.

#[local] Instance newer_first_total : Total newer_first.
Proof. intros a b. unfold newer_first. lia. Qed.

Lemma selected_sorted (wh : Where) (d : Db) : StronglySorted newer_first (selected wh d).
Proof. unfold selected. apply StronglySorted_merge_sort; typeclasses eauto. Qed.

Lemma selected_length (wh : Where) (d : Db) :
  length (selected wh d) = length (List.filter (matches wh) (rows d)).
Proof. unfold selected. apply Permutation_length, merge_sort_Permutation. Qed.

(** A stretch cut out of a sorted list is sorted. *)
Lemma window_sorted (n m : nat) (l : list QueryHistory) :
  StronglySorted newer_first l ->
  StronglySorted newer_first (firstn n (skipn m l)).
Proof.
  intros Hl.
  rewrite <- (firstn_skipn m l) in Hl. apply StronglySorted_app_1_r in Hl.
  rewrite <- (firstn_skipn n (skipn m l)) in Hl. now apply StronglySorted_app_1_l in Hl.
Qed.

End Ordering.

Section Pagination.
Import Prisma Client Route.

Variable permits : Db -> Op -> bool.

(** What a GET that answers 200 has done: the session has a user, [skip]
    and [take] were integers, [skip] not negative, and the body holds the
    window of the selected rows with the numbers computed from the count. *)
Lemma GET_200 (session : option Auth.Session) (req : Request) (w : World) :
  let r := fst (GET permits session req w) in
  let page := int_param "page" 1 (searchParams req) in
  let limit := int_param "limit" 10 (searchParams req) in
  status r = 200 ->
  exists u s t,
    Auth.session_user session = Some u /\
    Js.as_int (Js.mul (Js.sub page (Js.of_Z 1)) limit) = Some s /\
    Js.as_int limit = Some t /\
    0 <= s /\
    let total := Z.of_nat (length (List.filter (matches (filter_of u req)) (rows (db w)))) in
    body r = Page (window s t (selected (filter_of u req) (db w)))
                  (Js.Num (inject_Z total)) (json_of_number page) (json_of_number limit)
                  (json_of_number (Js.ceil (Js.div (Js.of_Z total) limit))).
Proof.
  intros r page limit. subst r. unfold GET.
  destruct (Auth.session_user session) as [u|]; [|discriminate].
  destruct (negb _ && differs _ _); [discriminate|].
  fold page limit. fold (filter_of u req).
  unfold catching, bind, both, findMany, count, call.
  destruct (permits (db w) (FindMany _ _ _)); [|destruct (permits _ _); discriminate].
  destruct (Js.as_int (Js.mul _ _)) as [s|]; [|destruct (permits _ _); discriminate].
  destruct (Js.as_int limit) as [t|]; [|destruct (permits _ _); discriminate].
  destruct (Z.ltb_spec s 0); [destruct (permits _ _); discriminate|].
  cbn [db log]. destruct (permits _ _); [|discriminate].
  cbn. intros _. exists u, s, t. repeat split; assumption.
Qed.

End Pagination.

(** C10, as amended. For every GET that answers 200 on a table of at most
    2^53 - 1 rows, whose page (1 when the parameter is absent) and limit (10
    when it is absent) are read as the integers [page] and [limit], with
    [limit] positive and [limit] and [(page - 1) * limit] safe integers (so
    that the double arithmetic of the handler is exact): [page] is at least
    1, the first [(page - 1) * limit] rows of the newest-first order of the
    matching rows are skipped, at most [limit] rows are returned, newest
    first, and [pagination.totalPages] is the ceiling of [total / limit]. *)
Theorem C10_get_pagination
    (permits : Prisma.Db -> Prisma.Op -> bool) (session : option Auth.Session)
    (req : Route.Request) (w : Prisma.World) (page limit : Z) :
  Route.status (fst (Route.GET permits session req w)) = 200 ->
  Route.asks_for req page limit ->
  0 < limit <= Js.MAX_SAFE_INTEGER ->
  Z.abs ((page - 1) * limit) <= Js.MAX_SAFE_INTEGER ->
  Z.of_nat (length (Prisma.rows (Prisma.db w))) <= Js.MAX_SAFE_INTEGER ->
  (exists u,
     Auth.session_user session = Some u /\
     1 <= page /\
     Route.paginated (Prisma.db w) (Route.filter_of u req) page limit
       (fst (Route.GET permits session req w))) /\
  (Route.get "limit" (Route.searchParams req) = None -> limit = 10) /\
  (Route.get "page" (Route.searchParams req) = None -> page = 1).
Proof.
  intros H200 [Hpage Hlimit] Hpos Hskip Hrows. split; [|split].
  - destruct (GET_200 permits session req w H200) as (u & s & t & Hu & Hs & Ht & Hs0 & Hbody).
    cbv zeta in Hbody. rewrite Hlimit in Hs, Ht, Hbody. rewrite Hpage in Hs, Hbody.
    rewrite as_int_of_Z in Ht. injection Ht as <-.
    rewrite sub_of_Z, mul_of_Z, as_int_of_Z in Hs by nia. injection Hs as <-.
    exists u. split; [exact Hu|]. split; [nia|].
    unfold Route.paginated. eexists. split; [|split; [reflexivity|split]].
    + rewrite Hbody. rewrite ceil_div_of_Z, selected_length; [|split; [lia|]|exact Hpos].
      * unfold Prisma.window. destruct (Z.leb_spec 0 limit); [reflexivity|lia].
      * pose proof (List.filter_length_le (Prisma.matches (Route.filter_of u req))
                      (Prisma.rows (Prisma.db w))). lia.
    + rewrite length_firstn. lia.
    + apply window_sorted, selected_sorted.
  - intros Hnone. rewrite (int_param_default _ _ _ Hnone) in Hlimit.
    unfold Js.of_Z, inject_Z in Hlimit. congruence.
  - intros Hnone. rewrite (int_param_default _ _ _ Hnone) in Hpage.
    unfold Js.of_Z, inject_Z in Hpage. congruence.
Qed.

Lemma C10_get_pagination_witness :
  let alice := Auth.signed_in {| Auth.id := "alice"; Auth.role := "USER" |} in
  let req := {| Route.searchParams := [("userId", "alice"); ("page", "2"); ("limit", "2")];
                Route.json := None |} in
  let r := fst (Route.GET Route.always alice req Route.seven_query_world) in
  (exists u,
     Auth.session_user alice = Some u /\
     1 <= 2 /\
     Route.paginated (Prisma.db Route.seven_query_world) (Route.filter_of u req) 2 2 r) /\
  List.map Prisma.id (Views.queries_of r) = ["q4"; "q3"] /\
  Route.body r
  = Route.Page (Views.queries_of r) (Js.Num 5) (Js.Num 2) (Js.Num 2) (Js.Num 3).
Proof.
  intros alice req r. split; [|split; reflexivity].
  refine (proj1 (C10_get_pagination Route.always alice req Route.seven_query_world 2 2
                   _ _ _ _ _)).
  - reflexivity.
  - split; reflexivity.
  - vm_compute. split; [reflexivity | discriminate].
  - vm_compute. discriminate.
  - vm_compute. discriminate.
Defined.

(** C10 as stated fails: with [limit=0] the request succeeds, no row is
    returned and [totalPages] is [Math.ceil(1 / 0)], which is not a number
    in the response. *)
Lemma C10_limit_zero_counterexample :
  let alice := Auth.signed_in {| Auth.id := "alice"; Auth.role := "USER" |} in
  let req := {| Route.searchParams := [("userId", "alice"); ("limit", "0")];
                Route.json := None |} in
  let r := fst (Route.GET Route.always alice req Route.one_query_world) in
  Route.status r = 200 /\
  Route.body r = Route.Page [] (Js.Num 1) (Js.Num 1) (Js.Num 0) Js.Null /\
  ~ Route.reports_page Route.always alice req Route.one_query_world.
Proof.
  intros alice req r. split; [reflexivity|]. split; [reflexivity|].
  intros Hclaim. destruct (Hclaim eq_refl) as (u & page & limit & _ & _ & queries & Hbody & _).
  change (Route.Page [] (Js.Num 1) (Js.Num 1) (Js.Num 0) Js.Null
          = Route.Page queries
              (Js.Num (inject_Z (Z.of_nat (length (Prisma.selected (Route.filter_of u req)
                                                     (Prisma.db Route.one_query_world))))))
              (Js.Num (inject_Z page)) (Js.Num (inject_Z limit))
              (Js.Num (inject_Z (Route.pages
                                   (Z.of_nat (length (Prisma.selected (Route.filter_of u req)
                                                        (Prisma.db Route.one_query_world))))
                                   limit)))) in Hbody.
  discriminate Hbody.
Qed.

(* ===================================================================== *)
(** * Theorems: the capture flow *)
(* ===================================================================== *)

(** The cases of the phase of an invocation. *)
Ltac phases H :=
  destruct H as [Ha Hr Ht Hsp Hf
                |t0 Ha Hr Ht Hn Hmp Hsp Hf
                |t0 Ha Hr Ht Hn Hmp Hsp Hf
                |t0 t2 Ha Ht2 Hr Ht Hmp Hsp
                |t0 t1 Ha Ht1 Hr Ht Hn Hmp Hsp
                |t0 t1 Ha Ht1 Hr Ht Hn Hmp Hsp].

Section CaptureFacts.
Import Capture.

Lemma phase_handleEnroll (t : Z) : phase (handleEnroll t).
Proof. now apply waiting. Qed.

(** Every event keeps the invocation in one of its phases. *)
Lemma phase_step (s : State) (e : Event) : phase s -> phase (step s e).
Proof.
  intros Hs. destruct e as [| | |data|ms|data|data|ok]; cbn [step].
  - (* MediaGranted *)
    destruct (media_pending s) eqn:Hm; [|exact Hs].
    phases Hs; try congruence.
    apply (capturing _ (now s)); cbn; try reflexivity; try assumption.
    + now rewrite Ha.
    + unfold recordingWindow. lia.
  - (* MediaDenied *)
    destruct (media_pending s) eqn:Hm; [|exact Hs].
    phases Hs; try congruence.
    now apply waiting.
  - (* RecorderRefused *)
    destruct (media_pending s) eqn:Hm; [|exact Hs].
    phases Hs; try congruence.
    now apply waiting.
  - (* DataAvailable *)
    destruct (mediaRecorder s) as [[|]|] eqn:Hrec; try exact Hs.
    unfold ondataavailable. destruct (0 <? size data); [|exact Hs].
    phases Hs; try congruence.
    now apply (capturing _ t0).
  - (* Elapse *)
    unfold elapse. destruct (Z.ltb_spec ms 0); [exact Hs|].
    phases Hs; rewrite Ht.
    + now apply waiting.
    + destruct (Z.leb_spec (t0 + recordingWindow) (now s + ms)).
      * apply (stopping _ t0); cbn; rewrite ?Hr; try reflexivity; try assumption.
        rewrite Ha, Z.max_l by lia. reflexivity.
      * apply (capturing _ t0); cbn; try assumption; lia.
    + apply (stopping _ t0); cbn; try assumption. lia.
    + now apply (posted _ t0 t2).
    + destruct (Z.leb_spec (t0 + recordingWindow) (now s + ms)).
      * apply (expired _ t0 t1); cbn; rewrite ?Hr; try reflexivity; try assumption.
        rewrite Ha, Z.max_l by lia. reflexivity.
      * apply (cut_short _ t0 t1); cbn; try assumption; lia.
    + apply (expired _ t0 t1); cbn; try assumption. lia.
  - (* Stopped *)
    destruct (stop_pending s) eqn:Hsp'; [|exact Hs].
    phases Hs; try congruence.
    unfold ondataavailable.
    destruct (0 <? size data); apply (posted _ t0 (now s)); cbn; try assumption;
      try reflexivity; now rewrite Ha.
  - (* Ended *)
    destruct (mediaRecorder s) as [[|]|] eqn:Hrec; try exact Hs.
    phases Hs; try congruence.
    unfold ondataavailable.
    destruct (0 <? size data); apply (cut_short _ t0 (now s)); cbn; try assumption;
      try reflexivity; now rewrite Ha.
  - (* Response *)
    destruct (fetch_pending s) eqn:Hf'; [|exact Hs].
    phases Hs; try congruence.
    + now apply (posted _ t0 t2).
    + now apply (cut_short _ t0 t1).
    + now apply (expired _ t0 t1).
Qed.

Lemma phase_run (events : list Event) (s : State) : phase s -> phase (run s events).
Proof.
  revert s. induction events as [|e events IH]; intros s Hs; [exact Hs|].
  apply IH, phase_step, Hs.
Qed.

(** As long as the recorder does not stop by itself, the actions keep the
    order start, stop, post. *)
Lemma well_timed_step (s : State) (e : Event) :
  phase s -> well_timed (actions s) -> stops_by_itself e = false ->
  well_timed (actions (step s e)).
Proof.
  intros Hs Hw He. destruct e as [| | |data|ms|data|data|ok]; try discriminate He;
    cbn [step].
  - destruct (media_pending s) eqn:Hm; [|exact Hw].
    phases Hs; try congruence. cbn. now rewrite Ha.
  - destruct (media_pending s); exact Hw.
  - destruct (media_pending s); exact Hw.
  - destruct (mediaRecorder s) as [[|]|]; try exact Hw.
    unfold ondataavailable. destruct (0 <? size data); exact Hw.
  - unfold elapse. destruct (Z.ltb_spec ms 0); [exact Hw|].
    phases Hs; rewrite Ht; try exact Hw.
    + destruct (Z.leb_spec (t0 + recordingWindow) (now s + ms)); [|exact Hw].
      cbn. rewrite Ha, Z.max_l by lia. reflexivity.
    + rewrite Ha in Hw. cbn in Hw. contradiction.
  - destruct (stop_pending s) eqn:Hsp'; [|exact Hw].
    phases Hs; try congruence.
    unfold ondataavailable. destruct (0 <? size data); cbn; rewrite Ha; cbn; split;
      try reflexivity; assumption.
  - destruct (fetch_pending s); exact Hw.
Qed.

Lemma well_timed_run (events : list Event) (s : State) :
  phase s -> well_timed (actions s) -> existsb stops_by_itself events = false ->
  well_timed (actions (run s events)).
Proof.
  revert s. induction events as [|e events IH]; intros s Hs Hw He; [exact Hw|].
  cbn [existsb] in He. apply orb_false_iff in He. destruct He as [He Hrest].
  apply IH; [now apply phase_step | now apply well_timed_step | exact Hrest].
Qed.





End CaptureFacts.




Example self_stop_then_timer :
  let s := Capture.run (Capture.handleEnroll 0)
             [Capture.MediaGranted; Capture.Elapse 1000; Capture.Ended [Byte.x52];
              Capture.Response true; Capture.Elapse 4000] in
  Capture.actions s
  = [Capture.Start 0; Capture.Fetch 1000 [Byte.x52]; Capture.Stop 5000] /\
  Capture.status s = "Voice profile enrolled successfully".
Proof. split; reflexivity. Qed.

(* ===================================================================== *)
(** * Theorems: the voice engine *)
(* ===================================================================== *)

Section DecisionFacts.
Import Engine.

(** Above the threshold a score is accepted, below it rejected, and at the
    threshold it gets what the policy says. *)
Lemma decide_cases (s : Q) (p : Policy) :
  ((threshold p < s)%Q -> decide s p = Accept) /\
  ((s < threshold p)%Q -> decide s p = Reject) /\
  ((s == threshold p)%Q -> decide s p = tie p).
Proof.
  unfold decide.
  destruct (Qcompare_spec s (threshold p)) as [E|L|G]; repeat split; intros H;
    try reflexivity; exfalso.
  - rewrite E in H. exact (Qlt_irrefl _ H).
  - rewrite E in H. exact (Qlt_irrefl _ H).
  - exact (Qlt_irrefl _ (Qlt_trans _ _ _ H L)).
  - rewrite H in L. exact (Qlt_irrefl _ L).
  - exact (Qlt_irrefl _ (Qlt_trans _ _ _ H G)).
  - rewrite H in G. exact (Qlt_irrefl _ G).
Qed.

Lemma decide_accept (s : Q) (p : Policy) :
  decide s p = Accept -> (threshold p <= s)%Q.
Proof.
  intros H. apply Qnot_lt_le. intros Hlt.
  apply (proj1 (proj2 (decide_cases s p))) in Hlt. congruence.
Qed.

Lemma decide_reject (s : Q) (p : Policy) :
  decide s p = Reject -> (s <= threshold p)%Q.
Proof.
  intros H. apply Qnot_lt_le. intros Hlt.
  apply (proj1 (decide_cases s p)) in Hlt. congruence.
Qed.


End DecisionFacts.




(** C5. For every score and thresholds τ1 < τ2: a score accepted under τ2 is
    accepted under τ1, and a score rejected under τ1 is rejected under τ2. *)
Theorem C5_threshold_monotone (s : Q) (p1 p2 : Engine.Policy) :
  (Engine.threshold p1 < Engine.threshold p2)%Q ->
  (Engine.decide s p2 = Engine.Accept -> Engine.decide s p1 = Engine.Accept) /\
  (Engine.decide s p1 = Engine.Reject -> Engine.decide s p2 = Engine.Reject).
Proof.
  intros Hlt. split.
  - intros H2. apply decide_accept in H2. apply (proj1 (decide_cases s p1)).
    eapply Qlt_le_trans; eassumption.
  - intros H1. apply decide_reject in H1. apply (proj1 (proj2 (decide_cases s p2))).
    eapply Qle_lt_trans; eassumption.
Qed.

Lemma C5_threshold_monotone_witness :
  Engine.decide (3 # 4)%Q {| Engine.threshold := (1 # 2)%Q; Engine.tie := Engine.Reject |}
  = Engine.Accept.
Proof.
  refine (proj1 (C5_threshold_monotone (3 # 4)%Q
                   {| Engine.threshold := (1 # 2)%Q; Engine.tie := Engine.Reject |}
                   {| Engine.threshold := (3 # 4)%Q; Engine.tie := Engine.Accept |} _) _);
    reflexivity.
Defined.

Section EnrollmentFacts.
Import Engine.

Variable extract : AudioSample -> Embedding + ExtractionError.

(** The extraction pass yields one embedding per successful capture and one
    reason per discarded one. *)
Lemma extractions_spec (captures : list AudioSample) :
  length (fst (extractions extract captures)) = length (successful extract captures) /\
  (length (fst (extractions extract captures))
   + length (snd (extractions extract captures)) = length captures)%nat.
Proof.
  induction captures as [|c rest [IHes IHall]]; [split; reflexivity|].
  cbn [extractions]. unfold successful in *. cbn [List.filter].
  destruct (extractions extract rest) as [es discarded]. cbn [fst snd] in *.
  destruct (extract c) as [e|reason]; cbn [fst snd length]; lia.
Qed.

End EnrollmentFacts.

(** C3. For every enrollment run in which fewer than [minSuccessfulSamples]
    of the attempted captures (the first [maxAttempts]) yield an embedding,
    Enroll returns [Failed(EnrollmentIncomplete)] and the template store is
    as it was: no template is stored. *)
Theorem C3_enrollment_incomplete
    (extract : Engine.AudioSample -> Engine.Embedding + Engine.ExtractionError)
    (similarity : Engine.Embedding -> Engine.Embedding -> Q)
    (aggregate_of : list Engine.Embedding -> Engine.Embedding)
    (quality_of : list Engine.AudioSample -> list Engine.Embedding -> Q)
    (cfg : Engine.EnrollConfig) (u : Engine.UserId)
    (captures : list Engine.AudioSample) (time : Z) (store : Engine.TemplateStore) :
  let attempts := firstn (Engine.maxAttempts cfg) captures in
  (length (Engine.successful extract attempts) < Engine.minSuccessfulSamples cfg)%nat ->
  Engine.enroll extract similarity aggregate_of quality_of cfg u captures time store
  = (Engine.Failed Engine.EnrollmentIncomplete, store).
Proof.
  intros attempts Hfew. unfold Engine.enroll. fold attempts. cbv zeta.
  rewrite (proj1 (extractions_spec extract attempts)).
  apply Nat.ltb_lt in Hfew. now rewrite Hfew.
Qed.

Lemma C3_enrollment_incomplete_witness :
  let cfg := {| Engine.minSuccessfulSamples := 3; Engine.maxAttempts := 5;
                Engine.consistencyThreshold := (1 # 2)%Q; Engine.minQuality := 0%Q |} in
  let voiced := {| Engine.waveform := [(1 # 3)%Q; (1 # 4)%Q]; Engine.sampleRate := 16000;
                   Engine.channels := 1; Engine.duration := 3%Q |} in
  let silent := {| Engine.waveform := [0%Q; 0%Q]; Engine.sampleRate := 16000;
                   Engine.channels := 1; Engine.duration := 3%Q |} in
  let stereo := {| Engine.waveform := [(1 # 3)%Q; (1 # 4)%Q]; Engine.sampleRate := 44100;
                   Engine.channels := 2; Engine.duration := 3%Q |} in
  let captures := [voiced; silent; voiced; silent; stereo; voiced] in
  length (Engine.successful Engine.sample_extract (firstn 5 captures)) = 2%nat /\
  Engine.enroll Engine.sample_extract (fun _ _ => 1%Q)
    (fun es => {| Engine.extractor := 1; Engine.vector := [] |}) (fun _ _ => 1%Q)
    cfg "alice" captures 0 []
  = (Engine.Failed Engine.EnrollmentIncomplete, []).
Proof.
  intros cfg voiced silent stereo captures. split; [reflexivity|].
  apply (C3_enrollment_incomplete Engine.sample_extract (fun _ _ => 1%Q)
           (fun es => {| Engine.extractor := 1; Engine.vector := [] |}) (fun _ _ => 1%Q)
           cfg "alice" captures 0 []).
  vm_compute. lia.
Defined.

Example enroll_three_of_five :
  let cfg := {| Engine.minSuccessfulSamples := 3; Engine.maxAttempts := 5;
                Engine.consistencyThreshold := (1 # 2)%Q; Engine.minQuality := 0%Q |} in
  let voiced := {| Engine.waveform := [(1 # 3)%Q; (1 # 4)%Q]; Engine.sampleRate := 16000;
                   Engine.channels := 1; Engine.duration := 3%Q |} in
  let silent := {| Engine.waveform := [0%Q; 0%Q]; Engine.sampleRate := 16000;
                   Engine.channels := 1; Engine.duration := 3%Q |} in
  fst (Engine.enroll Engine.sample_extract (fun _ _ => 1%Q)
         (fun es => {| Engine.extractor := 1; Engine.vector := [] |}) (fun _ _ => 1%Q)
         cfg "alice" [voiced; silent; voiced; voiced] 0 [])
  = Engine.Enrolled 1.
Proof. reflexivity. Qed.

Section VerificationFacts.
Import Engine.

Variable extract : AudioSample -> Embedding + ExtractionError.
Variable similarity : Embedding -> Embedding -> Q.
Variable policy : Policy.
Variable limit : RateLimit.

#[local] Abbreviation step := (Engine.step extract similarity policy limit).
#[local] Abbreviation path := (Engine.path extract similarity policy limit).

(** A transition out of a state other than [Decided] leaves the audit log
    alone and does not reach [Recorded]; the one out of [Decided] reaches
    [Recorded] and appends one record. *)
Lemma audited_step (before : list VerificationAttempt) (st : Stage) (c : Context)
    (y : Stage * Context) :
  audited before (st, c) -> step st c = Some y -> audited before y.
Proof.
  unfold audited. cbn [fst snd]. intros Hinv Hstep.
  destruct st as [sample u|sample u|e u|u d r sc|]; cbn [Engine.step] in Hstep.
  - injection Hstep as <-. exact Hinv.
  - destruct (extract sample); injection Hstep as <-; exact Hinv.
  - destruct (getActive u (templates c)) as [t|]; [|injection Hstep as <-; exact Hinv].
    destruct (locked_out limit u c); [injection Hstep as <-; exact Hinv|].
    destruct (score similarity e t) as [sc|]; [|injection Hstep as <-; exact Hinv].
    destruct (decide sc policy); injection Hstep as <-; exact Hinv.
  - injection Hstep as <-. cbn. rewrite Hinv. eauto.
  - discriminate.
Qed.

Lemma audited_path (before : list VerificationAttempt) (x z : Stage * Context) :
  path x z -> audited before x -> audited before z.
Proof.
  induction 1 as [x|st c y z Hstep _ IH]; intros Hinv; [exact Hinv|].
  apply IH. eapply audited_step; eassumption.
Qed.

(** Only [Recorded] is terminal. *)
Lemma step_total (st : Stage) (c : Context) :
  st <> Recorded -> exists y, step st c = Some y.
Proof.
  intros Hst. destruct st as [sample u|sample u|e u|u d r sc|]; cbn [Engine.step];
    [eauto | | | eauto | contradiction].
  - destruct (extract sample); eauto.
  - destruct (getActive u (templates c)) as [t|]; [|eauto].
    destruct (locked_out limit u c); [eauto|].
    destruct (score similarity e t) as [sc|]; [|eauto].
    destruct (decide sc policy); eauto.
Qed.

(** Four transitions take [Received] to [Recorded], with one record for the
    claimed user appended. *)
Lemma verify_recorded (sample : AudioSample) (u : UserId) (c : Context) :
  fst (verify extract similarity policy limit sample u c) = Recorded /\
  exists a, audit (snd (verify extract similarity policy limit sample u c))
            = (audit c ++ [a])%list /\ attempt_user a = u.
Proof.
  unfold verify. cbn [run Engine.step].
  destruct (extract sample) as [e|err]; cbn [run Engine.step]; [|cbn; eauto].
  destruct (getActive u (templates c)) as [t|]; cbn [run Engine.step]; [|cbn; eauto].
  destruct (locked_out limit u c); cbn [run Engine.step]; [cbn; eauto|].
  destruct (score similarity e t) as [sc|]; cbn [run Engine.step]; [|cbn; eauto].
  destruct (decide sc policy); cbn; eauto.
Qed.

End VerificationFacts.

(** C6. In the verification state machine, from [Received] with any sample,
    claimed user and context: the attempt ends in [Recorded] with exactly
    one audit record appended; on every path, a [Decided] state (whatever
    its decision and reason, lockout and extraction failure included) steps
    to [Recorded], and that step appends the record of this decision to the
    log the attempt started with; [Recorded] is terminal; a state before
    [Recorded] is not terminal and has the log still unchanged. *)
Theorem C6_every_decision_is_recorded
    (extract : Engine.AudioSample -> Engine.Embedding + Engine.ExtractionError)
    (similarity : Engine.Embedding -> Engine.Embedding -> Q)
    (policy : Engine.Policy) (limit : Engine.RateLimit)
    (sample : Engine.AudioSample) (u : Engine.UserId) (c : Engine.Context) :
  let step := Engine.step extract similarity policy limit in
  let reaches := Engine.path extract similarity policy limit (Engine.Received sample u, c) in
  let final := Engine.verify extract similarity policy limit sample u c in
  (fst final = Engine.Recorded /\
   exists a, Engine.audit (snd final) = (Engine.audit c ++ [a])%list /\
             Engine.attempt_user a = u) /\
  (forall u' d r sc c1,
     reaches (Engine.Decided u' d r sc, c1) ->
     step (Engine.Decided u' d r sc) c1
       = Some (Engine.Recorded, Engine.record u' d r sc c1) /\
     Engine.audit (Engine.record u' d r sc c1)
       = (Engine.audit c ++ [{| Engine.attempt_user := u';
                                Engine.attempt_time := Engine.time c1;
                                Engine.attempt_score := sc;
                                Engine.attempt_decision := d;
                                Engine.attempt_reason := r |}])%list) /\
  (forall st c1,
     reaches (st, c1) ->
     match st with
     | Engine.Recorded =>
         step st c1 = None /\
         exists a, Engine.audit c1 = (Engine.audit c ++ [a])%list
     | _ => Engine.audit c1 = Engine.audit c /\ exists next, step st c1 = Some next
     end).
Proof.
  intros step reaches final. split; [apply verify_recorded|]. split.
  - intros u' d r sc c1 Hpath. split; [reflexivity|].
    apply (audited_path extract similarity policy limit (Engine.audit c)) in Hpath;
      [|reflexivity].
    cbn in Hpath. cbn. now rewrite Hpath.
  - intros st c1 Hpath.
    pose proof (audited_path extract similarity policy limit (Engine.audit c) _ _ Hpath
                  eq_refl) as Hinv.
    unfold Engine.audited in Hinv. cbn [fst snd] in Hinv.
    destruct st; try (split; [exact Hinv | apply step_total; discriminate]).
    split; [reflexivity | exact Hinv].
Qed.

Example verify_locked_out :
  let t := {| Engine.owner := "alice"; Engine.extractorVersion := 1;
              Engine.aggregate := {| Engine.extractor := 1; Engine.vector := [1%Q] |};
              Engine.quality := 1%Q; Engine.createdAt := 0; Engine.templateVersion := 1;
              Engine.active := true |} in
  let c := {| Engine.templates := [t];
              Engine.failures := [("alice", 10); ("alice", 11); ("alice", 12)];
              Engine.audit := []; Engine.time := 20 |} in
  let voiced := {| Engine.waveform := [(1 # 3)%Q]; Engine.sampleRate := 16000;
                   Engine.channels := 1; Engine.duration := 3%Q |} in
  let final := Engine.verify Engine.sample_extract (fun _ _ => 1%Q)
                 {| Engine.threshold := (1 # 2)%Q; Engine.tie := Engine.Reject |}
                 {| Engine.maxFailedAttempts := 3; Engine.slidingWindow := 60 |}
                 voiced "alice" c in
  fst final = Engine.Recorded /\
  Engine.audit (snd final)
  = [{| Engine.attempt_user := "alice"; Engine.attempt_time := 20;
        Engine.attempt_score := None; Engine.attempt_decision := Engine.Reject;
        Engine.attempt_reason := Engine.LockedOut |}].
Proof. split; reflexivity. Qed.

Lemma C6_every_decision_is_recorded_witness :
  let c := {| Engine.templates := []; Engine.failures := []; Engine.audit := [];
              Engine.time := 20 |} in
  let voiced := {| Engine.waveform := [(1 # 3)%Q]; Engine.sampleRate := 16000;
                   Engine.channels := 1; Engine.duration := 3%Q |} in
  let policy := {| Engine.threshold := (1 # 2)%Q; Engine.tie := Engine.Reject |} in
  let limit := {| Engine.maxFailedAttempts := 3; Engine.slidingWindow := 60 |} in
  Engine.audit (Engine.record "alice" Engine.Reject Engine.NoTemplate None c)
  = [{| Engine.attempt_user := "alice"; Engine.attempt_time := 20;
        Engine.attempt_score := None; Engine.attempt_decision := Engine.Reject;
        Engine.attempt_reason := Engine.NoTemplate |}].
Proof.
  intros c voiced policy limit.
  refine (proj2 (proj1 (proj2 (C6_every_decision_is_recorded Engine.sample_extract
                                 (fun _ _ => 1%Q) policy limit voiced "alice" c))
                   "alice" Engine.Reject Engine.NoTemplate None c _)).
  eapply Engine.path_step; [reflexivity|].
  eapply Engine.path_step; [reflexivity|].
  eapply Engine.path_step; [reflexivity|].
  apply Engine.path_here.
Defined.

(* ===================================================================== *)
(** * More on the query-history handlers *)
(* ===================================================================== *)

Section ReadPath.
Import Prisma Client Route.

Variable permits : Db -> Op -> bool.

Lemma In_first {A} (n : nat) (l : list A) (x : A) : In x (firstn n l) -> In x l.
Proof. intros H. rewrite <- (firstn_skipn n l). apply in_or_app. now left. Qed.

Lemma In_rest {A} (n : nat) (l : list A) (x : A) : In x (skipn n l) -> In x l.
Proof. intros H. rewrite <- (firstn_skipn n l). apply in_or_app. now right. Qed.

(** Membership survives the cut of a window, in both directions of [take]. *)
Lemma window_incl (skip take : Z) (l : list QueryHistory) (r : QueryHistory) :
  In r (window skip take l) -> In r l.
Proof.
  unfold window. destruct (0 <=? take); intros Hin.
  - eapply In_rest, In_first, Hin.
  - apply in_rev in Hin. apply In_first, In_rest in Hin. now apply in_rev.
Qed.

Lemma selected_In (wh : Where) (d : Db) (r : QueryHistory) :
  In r (selected wh d) <-> In r (rows d) /\ matches wh r = true.
Proof.
  unfold selected. rewrite <- filter_In.
  split; apply Permutation_in;
    [apply merge_sort_Permutation | symmetry; apply merge_sort_Permutation].
Qed.

(** A GET that answers 200 passed the ownership guard. *)
Lemma GET_200_guard (session : option Auth.Session) (req : Request) (w : World) :
  status (fst (GET permits session req w)) = 200 ->
  exists u, Auth.session_user session = Some u /\
            (Auth.role u = "ADMIN" \/ get "userId" (searchParams req) = Some (Auth.id u)).
Proof.
  unfold GET. destruct (Auth.session_user session) as [u|]; [|discriminate].
  intros H. exists u. split; [reflexivity|].
  destruct (String.eqb_spec (Auth.role u) "ADMIN") as [|Hrole]; [now left|right].
  cbn [negb andb] in H.
  destruct (differs _ _) eqn:Hd; [discriminate H|].
  unfold differs in Hd. destruct (get "userId" (searchParams req)) as [x|]; [|discriminate].
  destruct (String.eqb_spec x (Auth.id u)) as [E|]; [now rewrite E | discriminate].
Qed.

End ReadPath.

(** The database after GET is the database before it, and the calls GET
    made are reads. *)
Lemma GET_reads_only
    (permits : Prisma.Db -> Prisma.Op -> bool) (session : option Auth.Session)
    (req : Route.Request) (w : Prisma.World) :
  let w' := snd (Route.GET permits session req w) in
  Prisma.db w' = Prisma.db w /\
  exists calls, Prisma.log w' = (Prisma.log w ++ calls)%list /\
                forallb Views.reads calls = true.
Proof.
  cbv zeta. unfold Route.GET.
  destruct (Auth.session_user session) as [u|];
    [|split; [reflexivity | exists []; split; [now rewrite app_nil_r | reflexivity]]].
  destruct (negb _ && Route.differs _ _);
    [split; [reflexivity | exists []; split; [now rewrite app_nil_r | reflexivity]]|].
  unfold Route.catching, bind, both, Client.findMany, Client.count, Client.call.
  match goal with
  | |- context [Prisma.FindMany ?wh ?sk ?tk] =>
      assert (Hlog : forall l : list Prisma.Op,
                 ((l ++ [Prisma.FindMany wh sk tk]) ++ [Prisma.Count wh]
                  = l ++ [Prisma.FindMany wh sk tk; Prisma.Count wh])%list)
        by (intros l; now rewrite <- app_assoc);
      assert (Hex : Prisma.db w = Prisma.db w /\
                    exists calls,
                      (Prisma.log w ++ [Prisma.FindMany wh sk tk; Prisma.Count wh]
                       = Prisma.log w ++ calls)%list /\
                      forallb Views.reads calls = true)
        by (split; [reflexivity | eexists; split; reflexivity])
  end.
  destruct (permits (Prisma.db w) (Prisma.FindMany _ _ _));
    [destruct (Js.as_int (Js.mul _ _)) as [s|];
       [destruct (Js.as_int (Route.int_param "limit" 10 _)) as [t|];
          [destruct (s <? 0)|]|]|];
    cbn [Prisma.db Prisma.log];
    destruct (permits (Prisma.db w) (Prisma.Count _)); cbn; rewrite Hlog; exact Hex.
Qed.

(** X1. GET never writes: whatever the session and the request, the
    database after the handler is the database before it, and the calls it
    made are reads ([findMany], [count]) only. *)
Theorem GET_never_writes
    (permits : Prisma.Db -> Prisma.Op -> bool) (session : option Auth.Session)
    (req : Route.Request) (w : Prisma.World) :
  let w' := snd (Route.GET permits session req w) in
  Prisma.db w' = Prisma.db w /\
  exists calls, Prisma.log w' = (Prisma.log w ++ calls)%list /\
                forallb Views.reads calls = true.
Proof. exact (GET_reads_only permits session req w). Qed.

(** X2. Every row a successful GET returns is a row of the table that
    matches the filter the handler built: its owner is the [userId]
    parameter (the session user's id when the parameter is absent or
    empty), and its [successful] column agrees with the [successful]
    parameter when that is given. *)
Theorem GET_rows_match_filter
    (permits : Prisma.Db -> Prisma.Op -> bool) (session : option Auth.Session)
    (req : Route.Request) (w : Prisma.World) :
  let r := fst (Route.GET permits session req w) in
  Route.status r = 200 ->
  exists u, Auth.session_user session = Some u /\
    forall row, In row (Views.queries_of r) ->
      In row (Prisma.rows (Prisma.db w)) /\
      Prisma.matches (Route.filter_of u req) row = true /\
      Prisma.userId row
      = Route.or_else (Route.get "userId" (Route.searchParams req)) (Auth.id u).
Proof.
  intros r H200.
  destruct (GET_200 permits session req w H200) as (u & s & t & Hu & _ & _ & _ & Hbody).
  exists u. split; [exact Hu|]. intros row Hin.
  unfold Views.queries_of in Hin. fold r in Hbody. cbv zeta in Hbody. rewrite Hbody in Hin.
  apply window_incl, selected_In in Hin. destruct Hin as [Hrow Hm].
  split; [exact Hrow|]. split; [exact Hm|].
  unfold Prisma.matches in Hm. apply andb_true_iff in Hm. destruct Hm as [Hm _].
  now apply String.eqb_eq in Hm.
Qed.

Lemma GET_rows_match_filter_witness :
  let alice := Auth.signed_in {| Auth.id := "alice"; Auth.role := "USER" |} in
  let req := {| Route.searchParams := [("userId", "alice")]; Route.json := None |} in
  exists u, Auth.session_user alice = Some u /\
    forall row,
      In row (Views.queries_of (fst (Route.GET Route.always alice req Route.one_query_world))) ->
      In row (Prisma.rows (Prisma.db Route.one_query_world)) /\
      Prisma.matches (Route.filter_of u req) row = true /\
      Prisma.userId row
      = Route.or_else (Route.get "userId" (Route.searchParams req)) (Auth.id u).
Proof.
  intros alice req.
  exact (GET_rows_match_filter Route.always alice req Route.one_query_world eq_refl).
Defined.

(** X3. A user who is not an admin only ever sees their own rows: every row
    of a successful GET belongs to the session user. *)
Theorem GET_non_admin_sees_own_rows
    (permits : Prisma.Db -> Prisma.Op -> bool) (u : Auth.User)
    (req : Route.Request) (w : Prisma.World) :
  Auth.role u <> "ADMIN" ->
  forall row, In row (Views.queries_of (fst (Route.GET permits (Auth.signed_in u) req w))) ->
    Prisma.userId row = Auth.id u.
Proof.
  intros Hrole row Hin.
  destruct (Z.eq_dec (Route.status (fst (Route.GET permits (Auth.signed_in u) req w))) 200)
    as [H200|Hne].
  - destruct (GET_200_guard permits _ req w H200) as (u' & Hu' & Hguard).
    cbn in Hu'. injection Hu' as <-.
    destruct Hguard as [Hadmin|Hown]; [contradiction|].
    destruct (GET_200 permits _ req w H200) as (u' & s & t & Hu' & _ & _ & _ & Hbody).
    cbn in Hu'. injection Hu' as <-. cbv zeta in Hbody.
    unfold Views.queries_of in Hin. rewrite Hbody in Hin.
    apply window_incl, selected_In in Hin. destruct Hin as [_ Hm].
    unfold Prisma.matches in Hm. apply andb_true_iff in Hm. destruct Hm as [Hm _].
    apply String.eqb_eq in Hm. rewrite Hm. cbn [Route.filter_of Prisma.w_userId].
    rewrite Hown. cbn [Route.or_else]. now destruct (Js.truthy_string (Auth.id u)).
  - exfalso. revert Hin Hne. unfold Views.queries_of, Route.GET.
    cbn [Auth.session_user Auth.signed_in Auth.user].
    destruct (negb _ && Route.differs _ _); [cbn; contradiction|].
    unfold Route.catching, bind.
    destruct (both _ _ w) as [[[queries total]|] w']; cbn; [congruence | contradiction].
Qed.

Lemma GET_non_admin_sees_own_rows_witness :
  let u := {| Auth.id := "alice"; Auth.role := "USER" |} in
  let req := {| Route.searchParams := [("userId", "alice")]; Route.json := None |} in
  Auth.role u <> "ADMIN" /\
  Forall (fun row => Prisma.userId row = "alice")
    (Views.queries_of
       (fst (Route.GET Route.always (Auth.signed_in u) req Route.one_query_world))).
Proof.
  intros u req. split; [discriminate|].
  apply List.Forall_forall.
  apply (GET_non_admin_sees_own_rows Route.always u req Route.one_query_world).
  discriminate.
Defined.

Section PageCount.

(** The ceiling of [total / limit] is the least number of pages of [limit]
    rows that hold [total] rows. *)
Lemma pages_spec (total limit : Z) :
  0 < limit ->
  (Route.pages total limit - 1) * limit < total <= Route.pages total limit * limit.
Proof.
  intros Hl. unfold Route.pages, Qceiling.
  destruct limit as [|p|p]; try lia.
  assert (E : Qfloor (- (inject_Z total / inject_Z (Z.pos p))) = (- total) / Z.pos p).
  { unfold Qfloor, Qdiv, Qinv, Qmult, Qopp, inject_Z. cbn [Qnum Qden].
    rewrite Z.mul_1_r, Pos.mul_1_l. reflexivity. }
  rewrite E.
  pose proof (Z.div_mod (- total) (Z.pos p) ltac:(lia)) as Hdm.
  pose proof (Z.mod_pos_bound (- total) (Z.pos p) ltac:(lia)) as Hb.
  nia.
Qed.

End PageCount.

(** X4. For a GET that answers 200, whose page and limit are read as the
    integers [page] and [limit] with [limit] positive and [limit] and
    [(page - 1) * limit] safe integers, the page holds
    [min(limit, total - (page - 1) * limit)] rows (none when that is
    negative), so every page before the last is full, and a page has rows
    exactly when its number does not exceed the ceiling of
    [total / limit]. *)
Theorem GET_page_sizes
    (permits : Prisma.Db -> Prisma.Op -> bool) (session : option Auth.Session)
    (u : Auth.User) (req : Route.Request) (w : Prisma.World) (page limit : Z) :
  Route.status (fst (Route.GET permits session req w)) = 200 ->
  Auth.session_user session = Some u ->
  Route.asks_for req page limit ->
  0 < limit <= Js.MAX_SAFE_INTEGER ->
  Z.abs ((page - 1) * limit) <= Js.MAX_SAFE_INTEGER ->
  let total := Z.of_nat (length (Prisma.selected (Route.filter_of u req) (Prisma.db w))) in
  let queries := Views.queries_of (fst (Route.GET permits session req w)) in
  Z.of_nat (length queries) = Z.max 0 (Z.min limit (total - (page - 1) * limit)) /\
  (queries <> [] <-> page <= Route.pages total limit).
Proof.
  intros H200 Hu [Hpage Hlimit] [Hpos Hsafe] Hskip total queries.
  destruct (GET_200 permits session req w H200) as (u' & s & t & Hu' & Hs & Ht & Hs0 & Hbody).
  rewrite Hu in Hu'. injection Hu' as <-. cbv zeta in Hbody.
  rewrite Hpage, Hlimit in Hs. rewrite Hlimit in Ht.
  rewrite sub_of_Z, mul_of_Z, as_int_of_Z in Hs by nia. rewrite as_int_of_Z in Ht.
  injection Hs as <-. injection Ht as <-.
  assert (Hlen : Z.of_nat (length queries)
                 = Z.max 0 (Z.min limit (total - (page - 1) * limit))).
  { subst queries total. unfold Views.queries_of. rewrite Hbody. unfold Prisma.window.
    destruct (Z.leb_spec 0 limit); [|lia].
    rewrite length_firstn, length_skipn. lia. }
  split; [exact Hlen|].
  pose proof (pages_spec total limit Hpos) as Hp.
  assert (Hne : queries <> [] <-> 0 < Z.of_nat (length queries)).
  { destruct queries; cbn; split; intros; try congruence; lia. }
  rewrite Hne, Hlen. split; intros H; nia.
Qed.

Lemma GET_page_sizes_witness :
  let u := {| Auth.id := "alice"; Auth.role := "USER" |} in
  let req := {| Route.searchParams := [("userId", "alice"); ("page", "3"); ("limit", "2")];
                Route.json := None |} in
  let queries := Views.queries_of
                   (fst (Route.GET Route.always (Auth.signed_in u) req
                           Route.seven_query_world)) in
  (Z.of_nat (length queries)
   = Z.max 0 (Z.min 2 (Z.of_nat (length (Prisma.selected (Route.filter_of u req)
                                           (Prisma.db Route.seven_query_world)))
                       - (3 - 1) * 2)) /\
   (queries <> []
    <-> 3 <= Route.pages (Z.of_nat (length (Prisma.selected (Route.filter_of u req)
                                              (Prisma.db Route.seven_query_world)))) 2)) /\
  List.map Prisma.id queries = ["q1"] /\
  Route.pages 5 2 = 3.
Proof.
  intros u req queries. split; [|split; reflexivity].
  refine (GET_page_sizes Route.always (Auth.signed_in u) u req
            Route.seven_query_world 3 2 _ _ _ _ _).
  - reflexivity.
  - reflexivity.
  - split; reflexivity.
  - vm_compute. split; [reflexivity | discriminate].
  - vm_compute. discriminate.
Defined.

Section WritePathGuards.
Import Prisma Client Route.

Variable permits : Db -> Op -> bool.
Variable gen_id : nat -> string.

Lemma find_row_removed (k : string) (l : list QueryHistory) :
  List.find (fun r => String.eqb (id r) k)
            (List.filter (fun r => negb (String.eqb (id r) k)) l) = None.
Proof.
  induction l as [|r l IH]; [reflexivity|]. cbn [List.filter].
  destruct (String.eqb (id r) k) eqn:E; cbn [negb]; [exact IH|].
  cbn [List.find]. now rewrite E.
Qed.

End WritePathGuards.

(** X5. POST checks the payload before it touches the database: when
    [userQuery] or [sqlQuery] is missing or falsy (empty string, [0],
    [false], [null]) the answer is 400 and no call is made; otherwise
    exactly one call, the [create], is made and the answer is 201 or 500. *)
Theorem POST_requires_both_queries
    (permits : Prisma.Db -> Prisma.Op -> bool) (gen_id : nat -> string)
    (u : Auth.User) (params : list (string * string)) (v : Js.Value) (w : Prisma.World) :
  Js.destructurable v = true ->
  let out := Route.POST permits gen_id (Auth.signed_in u)
               {| Route.searchParams := params; Route.json := Some v |} w in
  if Js.truthy (Js.prop v "userQuery") && Js.truthy (Js.prop v "sqlQuery")
  then (Route.status (fst out) = 201 \/ Route.status (fst out) = 500) /\
       exists data, Prisma.log (snd out) = (Prisma.log w ++ [Prisma.Create data])%list
  else out = (Route.respond (Route.Error "userQuery and sqlQuery are required") 400, w).
Proof.
  intros Hd out. subst out. unfold Route.POST, Route.catching, bind.
  cbn [Auth.session_user Auth.signed_in Auth.user Route.req_json Route.json ret].
  unfold Route.destructure. rewrite Hd. cbn [ret].
  destruct (Js.truthy (Js.prop v "userQuery")); [|reflexivity].
  destruct (Js.truthy (Js.prop v "sqlQuery")); [|reflexivity].
  cbn [negb orb andb]. unfold Client.create, Client.call.
  destruct (permits (Prisma.db w) _); cbn; (split; [auto | eexists; reflexivity]).
Qed.

Lemma POST_requires_both_queries_witness :
  let u := {| Auth.id := "alice"; Auth.role := "USER" |} in
  let w := {| Prisma.db := {| Prisma.rows := []; Prisma.issued := 0; Prisma.clock := 0 |};
              Prisma.log := [] |} in
  Route.POST Route.always (fun _ => "q") (Auth.signed_in u)
    {| Route.searchParams := [];
       Route.json := Some (Js.Obj [("userQuery", Js.Str ""); ("sqlQuery", Js.Str "select 1")]) |}
    w
  = (Route.respond (Route.Error "userQuery and sqlQuery are required") 400, w).
Proof.
  intros u w.
  exact (POST_requires_both_queries Route.always (fun _ => "q") u []
           (Js.Obj [("userQuery", Js.Str ""); ("sqlQuery", Js.Str "select 1")]) w eq_refl).
Defined.

(** X6. A signed-in request whose body cannot be parsed, or is the JSON
    value [null], makes POST, PUT and DELETE answer 500 with their own error
    message; no call reaches the database. *)
Theorem body_required
    (permits : Prisma.Db -> Prisma.Op -> bool) (gen_id : nat -> string)
    (u : Auth.User) (req : Route.Request) (w : Prisma.World) :
  Route.json req = None \/ Route.json req = Some Js.Null ->
  Route.POST permits gen_id (Auth.signed_in u) req w
    = (Route.respond (Route.Error "error saving query history") 500, w) /\
  Route.PUT permits gen_id (Auth.signed_in u) req w
    = (Route.respond (Route.Error "error updating query history") 500, w) /\
  Route.DELETE permits (Auth.signed_in u) req w
    = (Route.respond (Route.Error "error deleting query history") 500, w).
Proof.
  intros Hbody.
  unfold Route.POST, Route.PUT, Route.DELETE, Route.catching, bind, Route.req_json.
  cbn [Auth.session_user Auth.signed_in Auth.user].
  destruct Hbody as [-> | ->]; repeat split.
Qed.

Lemma body_required_witness :
  let u := {| Auth.id := "alice"; Auth.role := "USER" |} in
  Route.DELETE Route.always (Auth.signed_in u) (Views.with_body Js.Null) Route.one_query_world
  = (Route.respond (Route.Error "error deleting query history") 500, Route.one_query_world).
Proof.
  intros u.
  exact (proj2 (proj2 (body_required Route.always (fun _ => "q") u (Views.with_body Js.Null)
                         Route.one_query_world (or_intror eq_refl)))).
Defined.

(** X7. PUT and DELETE check for the id before they touch the database: a
    body without [id], or with a falsy one, is answered with 400 and no call
    is made. *)
Theorem id_required
    (permits : Prisma.Db -> Prisma.Op -> bool) (gen_id : nat -> string)
    (u : Auth.User) (params : list (string * string)) (v : Js.Value) (w : Prisma.World) :
  Js.destructurable v = true ->
  Js.truthy (Js.prop v "id") = false ->
  let req := {| Route.searchParams := params; Route.json := Some v |} in
  let refused := (Route.respond (Route.Error "query history id is required") 400, w) in
  Route.PUT permits gen_id (Auth.signed_in u) req w = refused /\
  Route.DELETE permits (Auth.signed_in u) req w = refused.
Proof.
  intros Hd Hid req refused. subst req refused.
  unfold Route.PUT, Route.DELETE, Route.catching, bind, Route.req_json, Route.destructure.
  cbn [Auth.session_user Auth.signed_in Auth.user Route.json ret].
  rewrite Hd. cbn [ret]. rewrite Hid. split; reflexivity.
Qed.

Lemma id_required_witness :
  let u := {| Auth.id := "alice"; Auth.role := "USER" |} in
  Route.DELETE Route.always (Auth.signed_in u)
    (Views.with_body (Js.Obj [("id", Js.Str "")])) Route.one_query_world
  = (Route.respond (Route.Error "query history id is required") 400, Route.one_query_world).
Proof.
  intros u.
  exact (proj2 (id_required Route.always (fun _ => "q") u []
                  (Js.Obj [("id", Js.Str "")]) Route.one_query_world eq_refl eq_refl)).
Defined.

Section RowGuards.
Import Prisma Client Route Views.

Variable permits : Db -> Op -> bool.
Variable gen_id : nat -> string.

(** What DELETE does for a signed-in user once the body gave a string id
    and the look-up was carried out. *)
Lemma DELETE_found (u : Auth.User) (params : list (string * string)) (v : Js.Value)
    (k : string) (w : World) :
  Js.destructurable v = true ->
  Js.prop v "id" = Js.Str k -> k <> "" ->
  permits (db w) (FindUnique (Js.Str k)) = true ->
  DELETE permits (Auth.signed_in u) {| searchParams := params; json := Some v |} w
  = match find_row k (db w) with
    | None => (respond (Error "query history not found") 404,
               after_read (FindUnique (Js.Str k)) w)
    | Some row =>
        if negb (String.eqb (Auth.role u) "ADMIN")
           && negb (String.eqb (userId row) (Auth.id u))
        then (respond (Error "unauthorized: can only delete your own query history") 403,
              after_read (FindUnique (Js.Str k)) w)
        else catching "error deleting query history"
               (delete permits (Js.Str k);;; ret (respond Deleted 200))
               (after_read (FindUnique (Js.Str k)) w)
    end.
Proof.
  intros Hd Hid Hk Hp.
  unfold DELETE, catching, bind, req_json, destructure.
  cbn [Auth.session_user Auth.signed_in Auth.user json ret]. rewrite Hd. cbn [ret].
  rewrite Hid. cbn [Js.truthy]. apply String.eqb_neq in Hk. rewrite Hk. cbn [negb].
  unfold findUnique, call. rewrite Hp. unfold after_read.
  destruct (find_row k (db w)) as [row|]; [|reflexivity].
  destruct (negb _ && negb _); reflexivity.
Qed.

(** The same for PUT, up to the transaction. *)
Lemma PUT_found (u : Auth.User) (params : list (string * string)) (v : Js.Value)
    (k : string) (w : World) :
  Js.destructurable v = true ->
  Js.prop v "id" = Js.Str k -> k <> "" ->
  permits (db w) (FindUnique (Js.Str k)) = true ->
  match find_row k (db w) with
  | None =>
      PUT permits gen_id (Auth.signed_in u) {| searchParams := params; json := Some v |} w
      = (respond (Error "query history not found") 404,
         after_read (FindUnique (Js.Str k)) w)
  | Some row =>
      negb (String.eqb (Auth.role u) "ADMIN")
        && negb (String.eqb (userId row) (Auth.id u)) = true ->
      PUT permits gen_id (Auth.signed_in u) {| searchParams := params; json := Some v |} w
      = (respond (Error "unauthorized: can only update your own query history") 403,
         after_read (FindUnique (Js.Str k)) w)
  end.
Proof.
  intros Hd Hid Hk Hp.
  unfold PUT, catching, bind, req_json, destructure.
  cbn [Auth.session_user Auth.signed_in Auth.user json ret]. rewrite Hd. cbn [ret].
  rewrite Hid. cbn [Js.truthy]. apply String.eqb_neq in Hk. rewrite Hk. cbn [negb].
  unfold findUnique, call. rewrite Hp. unfold after_read.
  destruct (find_row k (db w)) as [row|]; [|reflexivity].
  intros ->. reflexivity.
Qed.

End RowGuards.

(** X8. PUT and DELETE on an id no row has answer 404 after the one
    look-up; the database is left as it was. *)
Theorem missing_row_404
    (permits : Prisma.Db -> Prisma.Op -> bool) (gen_id : nat -> string)
    (u : Auth.User) (params : list (string * string)) (v : Js.Value) (k : string)
    (w : Prisma.World) :
  Js.destructurable v = true ->
  Js.prop v "id" = Js.Str k -> k <> "" ->
  permits (Prisma.db w) (Prisma.FindUnique (Js.Str k)) = true ->
  Prisma.find_row k (Prisma.db w) = None ->
  let req := {| Route.searchParams := params; Route.json := Some v |} in
  let missing := (Route.respond (Route.Error "query history not found") 404,
                  Views.after_read (Prisma.FindUnique (Js.Str k)) w) in
  Route.PUT permits gen_id (Auth.signed_in u) req w = missing /\
  Route.DELETE permits (Auth.signed_in u) req w = missing.
Proof.
  intros Hd Hid Hk Hp Hnone req missing. subst req missing. split.
  - pose proof (PUT_found permits gen_id u params v k w Hd Hid Hk Hp) as H.
    now rewrite Hnone in H.
  - rewrite (DELETE_found permits u params v k w Hd Hid Hk Hp). now rewrite Hnone.
Qed.

Lemma missing_row_404_witness :
  let u := {| Auth.id := "alice"; Auth.role := "USER" |} in
  Route.DELETE Route.always (Auth.signed_in u)
    (Views.with_body (Js.Obj [("id", Js.Str "nope")])) Route.one_query_world
  = (Route.respond (Route.Error "query history not found") 404,
     Views.after_read (Prisma.FindUnique (Js.Str "nope")) Route.one_query_world).
Proof.
  intros u.
  refine (proj2 (missing_row_404 Route.always (fun _ => "q") u []
                   (Js.Obj [("id", Js.Str "nope")]) "nope" Route.one_query_world
                   _ _ _ _ _)); try reflexivity.
  discriminate.
Defined.

(** X9. A user who is not an admin cannot update or delete a row of another
    user: PUT and DELETE answer 403 after the one look-up, and the database
    is left as it was. *)
Theorem foreign_row_403
    (permits : Prisma.Db -> Prisma.Op -> bool) (gen_id : nat -> string)
    (u : Auth.User) (params : list (string * string)) (v : Js.Value) (k : string)
    (row : Prisma.QueryHistory) (w : Prisma.World) :
  Js.destructurable v = true ->
  Js.prop v "id" = Js.Str k -> k <> "" ->
  permits (Prisma.db w) (Prisma.FindUnique (Js.Str k)) = true ->
  Prisma.find_row k (Prisma.db w) = Some row ->
  Auth.role u <> "ADMIN" ->
  Prisma.userId row <> Auth.id u ->
  let req := {| Route.searchParams := params; Route.json := Some v |} in
  let w' := Views.after_read (Prisma.FindUnique (Js.Str k)) w in
  Route.PUT permits gen_id (Auth.signed_in u) req w
  = (Route.respond (Route.Error "unauthorized: can only update your own query history") 403,
     w') /\
  Route.DELETE permits (Auth.signed_in u) req w
  = (Route.respond (Route.Error "unauthorized: can only delete your own query history") 403,
     w').
Proof.
  intros Hd Hid Hk Hp Hrow Hrole Hown req w'. subst req w'.
  apply String.eqb_neq in Hrole, Hown. split.
  - pose proof (PUT_found permits gen_id u params v k w Hd Hid Hk Hp) as H.
    rewrite Hrow in H. apply H. now rewrite Hrole, Hown.
  - rewrite (DELETE_found permits u params v k w Hd Hid Hk Hp), Hrow.
    now rewrite Hrole, Hown.
Qed.

Lemma foreign_row_403_witness :
  let bob := {| Auth.id := "bob"; Auth.role := "USER" |} in
  Route.DELETE Route.always (Auth.signed_in bob)
    (Views.with_body (Js.Obj [("id", Js.Str "q1")])) Route.one_query_world
  = (Route.respond (Route.Error "unauthorized: can only delete your own query history") 403,
     Views.after_read (Prisma.FindUnique (Js.Str "q1")) Route.one_query_world).
Proof.
  intros bob. unfold Views.with_body.
  refine (proj2 (foreign_row_403 Route.always (fun _ => "q") bob []
                   (Js.Obj [("id", Js.Str "q1")]) "q1" _ Route.one_query_world
                   _ _ _ _ _ _ _)); try reflexivity; cbn; discriminate.
Defined.

Section DeletePath.
Import Prisma Client Route Views.

Variable permits : Db -> Op -> bool.

(** What a DELETE that answers 200 has done. *)
Lemma DELETE_200 (session : option Auth.Session) (req : Request) (w : World) :
  status (fst (DELETE permits session req w)) = 200 ->
  exists u v k row,
    Auth.session_user session = Some u /\
    json req = Some v /\
    Js.prop v "id" = Js.Str k /\
    k <> "" /\
    find_row k (db w) = Some row /\
    (Auth.role u = "ADMIN" \/ userId row = Auth.id u) /\
    rows (db (snd (DELETE permits session req w)))
    = List.filter (fun r => negb (String.eqb (id r) k)) (rows (db w)) /\
    log (snd (DELETE permits session req w))
    = (log w ++ [FindUnique (Js.Str k); Delete (Js.Str k)])%list.
Proof.
  unfold DELETE, catching, bind, req_json, destructure.
  destruct (Auth.session_user session) as [u|]; [|discriminate].
  destruct (json req) as [v|]; [|discriminate]. cbn [ret throw].
  destruct (Js.destructurable v); [|discriminate]. cbn [ret].
  destruct (negb (Js.truthy (Js.prop v "id"))) eqn:Htruthy; [discriminate|].
  unfold findUnique, delete, call.
  destruct (permits (db w) (FindUnique _)); [|discriminate].
  destruct (Js.prop v "id") as [| | | |k| |] eqn:Hid; try discriminate.
  assert (Hk : k <> "").
  { cbn in Htruthy. apply negb_false_iff, negb_true_iff in Htruthy.
    now apply String.eqb_neq. }
  destruct (find_row k (db w)) as [row|] eqn:Hrow; [|discriminate].
  cbn [db log].
  destruct (negb (String.eqb (Auth.role u) "ADMIN") && negb (String.eqb (userId row) (Auth.id u)))
    eqn:Hguard; [discriminate|].
  cbn [db log].
  destruct (permits (db w) (Delete _)); [|discriminate].
  rewrite Hrow. cbn. intros _. exists u, v, k, row.
  repeat split; try reflexivity; try assumption.
  - apply andb_false_iff in Hguard. destruct Hguard as [H|H]; apply negb_false_iff in H;
      apply String.eqb_eq in H; auto.
  - now rewrite <- app_assoc.
Qed.

End DeletePath.

(** X10. A DELETE that answers 200 was asked for by an admin or by the
    owner of the row that carries the [id] of the request body, and it
    removes what carries that id and nothing else: the rows with another id
    are all still there, in their order, and a look-up of the id finds
    nothing. *)
Theorem DELETE_removes_the_row
    (permits : Prisma.Db -> Prisma.Op -> bool) (session : option Auth.Session)
    (req : Route.Request) (w : Prisma.World) :
  let out := Route.DELETE permits session req w in
  Route.status (fst out) = 200 ->
  exists u v k row,
    Auth.session_user session = Some u /\
    Route.json req = Some v /\
    Js.prop v "id" = Js.Str k /\
    Prisma.find_row k (Prisma.db w) = Some row /\
    (Auth.role u = "ADMIN" \/ Prisma.userId row = Auth.id u) /\
    Prisma.rows (Prisma.db (snd out))
    = List.filter (fun r => negb (String.eqb (Prisma.id r) k)) (Prisma.rows (Prisma.db w)) /\
    Prisma.find_row k (Prisma.db (snd out)) = None.
Proof.
  intros out H200.
  destruct (DELETE_200 permits session req w H200)
    as (u & v & k & row & Hu & Hv & Hid & _ & Hrow & Hauth & Hrows & _).
  exists u, v, k, row. repeat split; try assumption.
  unfold Prisma.find_row. subst out. rewrite Hrows. apply find_row_removed.
Qed.

Lemma DELETE_removes_the_row_witness :
  let alice := Auth.signed_in {| Auth.id := "alice"; Auth.role := "USER" |} in
  let req := Views.with_body (Js.Obj [("id", Js.Str "q4")]) in
  let out := Route.DELETE Route.always alice req Route.seven_query_world in
  List.map Prisma.id (Prisma.rows (Prisma.db Route.seven_query_world))
  = ["q1"; "q2"; "q3"; "q4"; "q5"; "q6"; "q7"] /\
  List.map Prisma.id (Prisma.rows (Prisma.db (snd out)))
  = ["q1"; "q2"; "q3"; "q5"; "q6"; "q7"] /\
  Prisma.find_row "q4" (Prisma.db (snd out)) = None.
Proof.
  intros alice req out. split; [reflexivity|].
  destruct (DELETE_removes_the_row Route.always alice req Route.seven_query_world eq_refl)
    as (u & v & k & row & _ & Hv & Hid & _ & _ & Hrows & Hgone).
  injection Hv as <-. injection Hid as <-.
  split; [|exact Hgone].
  fold out in Hrows. rewrite Hrows. reflexivity.
Defined.

(** X11. Once a DELETE has answered 200, the row is gone for everyone: a
    PUT or a DELETE with the same id, made next by any signed-in user,
    answers 404 (or 500 when the look-up fails), and changes nothing. *)
Theorem deleted_row_stays_gone
    (permits : Prisma.Db -> Prisma.Op -> bool) (gen_id : nat -> string)
    (session : option Auth.Session) (req : Route.Request) (w : Prisma.World)
    (u' : Auth.User) (params : list (string * string)) (v' : Js.Value) :
  let w1 := snd (Route.DELETE permits session req w) in
  Route.status (fst (Route.DELETE permits session req w)) = 200 ->
  (exists v, Route.json req = Some v /\ Js.prop v' "id" = Js.prop v "id") ->
  let req' := {| Route.searchParams := params; Route.json := Some v' |} in
  let put := Route.PUT permits gen_id (Auth.signed_in u') req' w1 in
  let del := Route.DELETE permits (Auth.signed_in u') req' w1 in
  (Route.status (fst put) = 404 \/ Route.status (fst put) = 500) /\
  (Route.status (fst del) = 404 \/ Route.status (fst del) = 500) /\
  Prisma.db (snd put) = Prisma.db w1 /\
  Prisma.db (snd del) = Prisma.db w1.
Proof.
  intros w1 H200 (v & Hv & Hsame) req' put del.
  destruct (DELETE_200 permits session req w H200)
    as (u & v0 & k & row & _ & Hv0 & Hid & Hk & _ & _ & Hrows & _).
  rewrite Hv in Hv0. injection Hv0 as <-. rewrite Hid in Hsame.
  assert (Hgone : Prisma.find_row k (Prisma.db w1) = None).
  { unfold Prisma.find_row. subst w1. rewrite Hrows. apply find_row_removed. }
  subst put del req'.
  unfold Route.PUT, Route.DELETE, Route.catching, bind, Route.req_json, Route.destructure.
  cbn [Auth.session_user Auth.signed_in Auth.user Route.json ret].
  destruct (Js.destructurable v'); cbn [ret throw]; [|cbn; auto].
  rewrite Hsame. cbn [Js.truthy]. apply String.eqb_neq in Hk. rewrite Hk. cbn [negb].
  unfold Client.findUnique, Client.call.
  destruct (permits (Prisma.db w1) (Prisma.FindUnique _)); [|cbn; auto].
  rewrite Hgone. cbn. auto.
Qed.

Lemma deleted_row_stays_gone_witness :
  let alice := Auth.signed_in {| Auth.id := "alice"; Auth.role := "USER" |} in
  let req := Views.with_body (Js.Obj [("id", Js.Str "q1")]) in
  let w1 := snd (Route.DELETE Route.always alice req Route.one_query_world) in
  let put := Route.PUT Route.always (fun _ => "q")
               (Auth.signed_in {| Auth.id := "root"; Auth.role := "ADMIN" |})
               {| Route.searchParams := [];
                  Route.json := Some (Js.Obj [("id", Js.Str "q1");
                                              ("userQuery", Js.Str "again")]) |} w1 in
  Route.status (fst put) = 404 \/ Route.status (fst put) = 500.
Proof.
  intros alice req w1 put.
  refine (proj1 (deleted_row_stays_gone Route.always (fun _ => "q") alice req
                   Route.one_query_world {| Auth.id := "root"; Auth.role := "ADMIN" |} []
                   (Js.Obj [("id", Js.Str "q1"); ("userQuery", Js.Str "again")]) eq_refl _)).
  eexists. split; reflexivity.
Defined.

(* ===================================================================== *)
(** * What the handlers keep *)
(* ===================================================================== *)

Section Preservation.
Import Prisma Client Route Views.

Variable permits : Db -> Op -> bool.
Variable gen_id : nat -> string.
Variable P : Db -> Db -> Prop.
Hypothesis P_refl : forall d, P d d.
Hypothesis P_trans : forall a b c, P a b -> P b c -> P a c.

Lemma preserves_ret {A} (a : A) : preserves P (ret a).
Proof. intros w. apply P_refl. Qed.

Lemma preserves_throw {A} : preserves P (@throw A).
Proof. intros w. apply P_refl. Qed.

Lemma preserves_bind {A B} (m : M A) (k : A -> M B) :
  preserves P m -> (forall a, preserves P (k a)) -> preserves P (bind m k).
Proof.
  intros Hm Hk w. unfold bind. specialize (Hm w).
  destruct (m w) as [[a|] w1]; cbn [snd] in *; [|exact Hm].
  eapply P_trans; [exact Hm | apply Hk].
Qed.

Lemma preserves_call {A} (op : Op) (run : Db -> option (A * Db)) :
  (forall d a d', run d = Some (a, d') -> P d d') ->
  preserves P (call permits op run).
Proof.
  intros Hrun w. unfold call.
  destruct (permits (db w) op); [|apply P_refl].
  destruct (run (db w)) as [[a d']|] eqn:E; [|apply P_refl].
  cbn. eapply Hrun, E.
Qed.

Lemma preserves_transaction {A} (m : M A) :
  preserves P m -> preserves P (transaction m).
Proof.
  intros Hm w. unfold transaction. specialize (Hm w).
  destruct (m w) as [[a|] w1]; cbn [snd db] in *; [exact Hm | apply P_refl].
Qed.

Lemma preserves_catching (error : string) (m : M Response) (w : World) :
  preserves P m -> P (db w) (db (snd (catching error m w))).
Proof.
  intros Hm. unfold catching. specialize (Hm w).
  destruct (m w) as [[r|] w1]; exact Hm.
Qed.

End Preservation.

Section PutKeeps.
Import Prisma Client Route Views.

Variable permits : Db -> Op -> bool.
Variable gen_id : nat -> string.

Lemma findUnique_reads (P : Db -> Db -> Prop) (key : Js.Value) :
  (forall d, P d d) -> preserves P (findUnique permits key).
Proof.
  intros P_refl. apply preserves_call; [exact P_refl|].
  intros d a d' H. destruct key; try discriminate H. injection H as _ <-. apply P_refl.
Qed.

(** Whatever relation between databases the three writes of PUT keep, PUT
    keeps. *)
Lemma PUT_preserves (P : Db -> Db -> Prop) :
  (forall d, P d d) ->
  (forall a b c, P a b -> P b c -> P a c) ->
  (forall key data, preserves P (update permits key data)) ->
  (forall key data, preserves P (visualization_update permits key data)) ->
  (forall key data, preserves P (visualization_create permits gen_id key data)) ->
  forall session req w, P (db w) (db (snd (PUT permits gen_id session req w))).
Proof.
  intros P_refl P_trans Hupdate Hvu Hvc session req w.
  pose proof (@preserves_ret P P_refl) as Hret.
  pose proof (@preserves_bind P P_trans) as Hbind.
  unfold PUT. apply preserves_catching.
  destruct (Auth.session_user session) as [u|]; [|apply Hret].
  apply Hbind; [unfold req_json; destruct (json req);
                  [apply Hret | apply preserves_throw, P_refl]|].
  intros payload.
  apply Hbind; [unfold destructure; destruct (Js.destructurable payload);
                  [apply Hret | apply preserves_throw, P_refl]|].
  intros _. cbv zeta.
  destruct (negb (Js.truthy _)); [apply Hret|].
  apply Hbind; [now apply findUnique_reads|].
  intros [existing|]; [|apply Hret].
  destruct (negb _ && negb _); [apply Hret|].
  apply Hbind.
  - apply preserves_transaction; [exact P_refl|].
    apply Hbind; [apply Hupdate|]. intros updated.
    apply Hbind; [|intros _; apply Hret].
    destruct (Js.truthy _); [|apply Hret].
    destruct (visualization existing); [apply Hvu | apply Hvc].
  - intros _. apply Hbind; [now apply findUnique_reads|]. intros result. apply Hret.
Qed.

Lemma replace_row_identity (k : string) (f : QueryHistory -> QueryHistory) (d : Db) :
  (forall r, identity (f r) = identity r) ->
  List.map identity (rows (replace_row k f d)) = List.map identity (rows d).
Proof.
  intros Hf. unfold replace_row. cbn [rows]. rewrite map_map. apply map_ext.
  intros r. destruct (String.eqb (id r) k); [apply Hf | reflexivity].
Qed.

End PutKeeps.

(** X12. PUT never adds or removes a row and never changes the id, the
    owner or the creation time of any row, whoever asks and whatever the
    payload holds ([userId] and [createdAt] in a payload are ignored). *)
Theorem PUT_keeps_row_identities
    (permits : Prisma.Db -> Prisma.Op -> bool) (gen_id : nat -> string)
    (session : option Auth.Session) (req : Route.Request) (w : Prisma.World) :
  List.map Views.identity (Prisma.rows (Prisma.db (snd (Route.PUT permits gen_id session req w))))
  = List.map Views.identity (Prisma.rows (Prisma.db w)).
Proof.
  apply (PUT_preserves permits gen_id
           (fun d d' => List.map Views.identity (Prisma.rows d')
                        = List.map Views.identity (Prisma.rows d))).
  - reflexivity.
  - intros a b c Hab Hbc. now rewrite Hbc.
  - intros key data. apply preserves_call; [reflexivity|].
    intros d a d' H. destruct key; try discriminate H.
    destruct (Prisma.find_row s d); [|discriminate H]. injection H as _ <-.
    now apply replace_row_identity.
  - intros key data. apply preserves_call; [reflexivity|]. intros d a d' H.
    destruct (List.find _ _); [|discriminate H]. injection H as _ <-.
    now apply replace_row_identity.
  - intros key data. apply preserves_call; [reflexivity|]. intros d a d' H.
    destruct key; try discriminate H.
    destruct (Prisma.find_row s d) as [r|]; [|discriminate H].
    destruct (Prisma.visualization r); [discriminate H|]. injection H as _ <-.
    cbn [Prisma.rows]. now apply replace_row_identity.
Qed.

Section PutPath.
Import Prisma Client Route Views.

Variable permits : Db -> Op -> bool.
Variable gen_id : nat -> string.

Lemma replace_row_columns (k : string) (f : QueryHistory -> QueryHistory) (d : Db) :
  (forall r, columns (f r) = columns r) ->
  List.map columns (rows (replace_row k f d)) = List.map columns (rows d).
Proof.
  intros Hf. unfold replace_row. cbn [rows]. rewrite map_map. apply map_ext.
  intros r. destruct (String.eqb (id r) k); [apply Hf | reflexivity].
Qed.

(** Looking a row up by id sees the same columns in two tables whose rows
    have the same columns. *)
Lemma find_row_columns (k : string) (l l' : list QueryHistory) :
  List.map columns l' = List.map columns l ->
  option_map columns (List.find (fun r => String.eqb (id r) k) l')
  = option_map columns (List.find (fun r => String.eqb (id r) k) l).
Proof.
  revert l'. induction l as [|r l IH]; intros [|r' l'] H; try discriminate H; [reflexivity|].
  change (columns r' :: List.map columns l' = columns r :: List.map columns l) in H.
  assert (Hr : columns r' = columns r) by congruence.
  assert (Hl : List.map columns l' = List.map columns l) by congruence.
  cbn [List.find].
  assert (Hid : id r' = id r) by exact (f_equal id Hr). rewrite Hid.
  destruct (String.eqb (id r) k); [cbn; now rewrite Hr | now apply IH].
Qed.

(** The look-up after [replace_row] on the same id. *)
Lemma find_row_replaced (k : string) (f : QueryHistory -> QueryHistory) (d : Db) :
  (forall r, id (f r) = id r) ->
  find_row k (replace_row k f d) = option_map f (find_row k d).
Proof.
  intros Hf. unfold find_row, replace_row. cbn [rows].
  induction (rows d) as [|r l IH]; [reflexivity|]. cbn [List.map List.find].
  destruct (String.eqb (id r) k) eqn:E.
  - now rewrite Hf, E.
  - rewrite E. exact IH.
Qed.

(** What a PUT that answers 200 has done. *)
Lemma PUT_200 (session : option Auth.Session) (req : Request) (w w' : World)
    (r : Response) :
  PUT permits gen_id session req w = (r, w') ->
  status r = 200 ->
  exists u v k existing,
    Auth.session_user session = Some u /\
    json req = Some v /\
    Js.prop v "id" = Js.Str k /\
    k <> "" /\
    find_row k (db w) = Some existing /\
    (Auth.role u = "ADMIN" \/ userId existing = Auth.id u) /\
    body r = Row (find_row k (db w')) /\
    List.map columns (rows (db w'))
    = List.map columns (rows (replace_row k (apply_update (merged v existing)) (db w))).
Proof.
  unfold PUT, catching, bind, req_json, destructure, transaction.
  destruct (Auth.session_user session) as [u|]; [|intros [= <- <-]; discriminate].
  destruct (json req) as [v|]; [|intros [= <- <-]; discriminate]. cbn [ret throw].
  destruct (Js.destructurable v); [|intros [= <- <-]; discriminate]. cbn [ret].
  destruct (negb (Js.truthy (Js.prop v "id"))) eqn:Htruthy; [intros [= <- <-]; discriminate|].
  unfold findUnique at 1. unfold call at 1.
  destruct (permits (db w) (FindUnique _)); [|intros [= <- <-]; discriminate].
  destruct (Js.prop v "id") as [| | | |k| |] eqn:Hid; try (intros [= <- <-]; discriminate).
  assert (Hk : k <> "").
  { cbn in Htruthy. apply negb_false_iff, negb_true_iff in Htruthy.
    now apply String.eqb_neq. }
  destruct (find_row k (db w)) as [existing|] eqn:Hrow; [|intros [= <- <-]; discriminate].
  cbn [db log].
  destruct (negb (String.eqb (Auth.role u) "ADMIN")
            && negb (String.eqb (userId existing) (Auth.id u))) eqn:Hguard;
    [intros [= <- <-]; discriminate|].
  assert (Hauth : Auth.role u = "ADMIN" \/ userId existing = Auth.id u).
  { apply andb_false_iff in Hguard. destruct Hguard as [H|H]; apply negb_false_iff in H;
      apply String.eqb_eq in H; auto. }
  fold (merged v existing).
  unfold update, call. cbn [db log].
  destruct (permits (db w) (Update _ _)); [|intros [= <- <-]; discriminate].
  rewrite Hrow.
  destruct (Js.truthy (Js.prop v "visualization")).
  - destruct (visualization existing) as [ev|] eqn:Hvis.
    + unfold visualization_update, call. cbn [db log].
      destruct (permits _ (VisualizationUpdate _ _)); [|intros [= <- <-]; discriminate].
      match goal with
      | |- context [List.find (has_visualization ?a) ?b] =>
          destruct (List.find (has_visualization a) b) as [r0|] eqn:Hfind
      end; [|intros [= <- <-]; discriminate].
      cbn [ret db log]. unfold findUnique, call. cbn [ret db log].
      destruct (permits _ (FindUnique _)); [|intros [= <- <-]; discriminate].
      intros [= <- <-] _. exists u, v, k, existing.
      repeat split; try reflexivity; try assumption.
      now apply replace_row_columns.
    + unfold visualization_create, call. cbn [db log].
      destruct (permits _ (VisualizationCreate _ _)); [|intros [= <- <-]; discriminate].
      rewrite (find_row_replaced k _ (db w)) by reflexivity. rewrite Hrow.
      cbn [option_map visualization apply_update]. rewrite Hvis.
      cbn [ret db log]. unfold findUnique, call. cbn [ret db log].
      destruct (permits _ (FindUnique _)); [|intros [= <- <-]; discriminate].
      intros [= <- <-] _. exists u, v, k, existing.
      repeat split; try reflexivity; try assumption.
      now apply (replace_row_columns k _ (replace_row k _ (db w))).
  - cbn [ret db log]. unfold findUnique, call. cbn [ret db log].
    destruct (permits _ (FindUnique _)); [|intros [= <- <-]; discriminate].
    intros [= <- <-] _. exists u, v, k, existing.
    repeat split; try reflexivity; try assumption.
Qed.

End PutPath.

(** X13. A PUT that answers 200 returns the stored row, and that row is the
    former one with each of [userQuery], [sqlQuery], [relatedQueries],
    [results], [executionTime] and [errorMessage] replaced by the payload's
    value when that is truthy and kept otherwise (so a PUT cannot set one of
    them to an empty string, [0], [false] or [null]), and [successful]
    replaced whenever the payload has the field; id, owner and creation
    time stay. It was asked for by an admin or by the owner. *)
Theorem PUT_merges_fields
    (permits : Prisma.Db -> Prisma.Op -> bool) (gen_id : nat -> string)
    (session : option Auth.Session) (req : Route.Request) (w : Prisma.World) :
  let out := Route.PUT permits gen_id session req w in
  Route.status (fst out) = 200 ->
  exists u v k existing stored,
    Auth.session_user session = Some u /\
    Route.json req = Some v /\
    Js.prop v "id" = Js.Str k /\
    Prisma.find_row k (Prisma.db w) = Some existing /\
    (Auth.role u = "ADMIN" \/ Prisma.userId existing = Auth.id u) /\
    Route.body (fst out) = Route.Row (Some stored) /\
    Prisma.find_row k (Prisma.db (snd out)) = Some stored /\
    Prisma.id stored = Prisma.id existing /\
    Prisma.userId stored = Prisma.userId existing /\
    Prisma.createdAt stored = Prisma.createdAt existing /\
    Prisma.userQuery stored = Js.or (Js.prop v "userQuery") (Prisma.userQuery existing) /\
    Prisma.sqlQuery stored = Js.or (Js.prop v "sqlQuery") (Prisma.sqlQuery existing) /\
    Prisma.relatedQueries stored
    = Js.or (Js.prop v "relatedQueries") (Prisma.relatedQueries existing) /\
    Prisma.results stored = Js.or (Js.prop v "results") (Prisma.results existing) /\
    Prisma.executionTime stored
    = Js.or (Js.prop v "executionTime") (Prisma.executionTime existing) /\
    Prisma.errorMessage stored
    = Js.or (Js.prop v "errorMessage") (Prisma.errorMessage existing) /\
    Prisma.successful stored
    = match Js.prop v "successful" with
      | Js.Undefined => Prisma.successful existing
      | _ => Js.prop v "successful"
      end.
Proof.
  intros out H200. subst out.
  destruct (Route.PUT permits gen_id session req w) as [r w'] eqn:Hput. cbn [fst snd] in *.
  destruct (PUT_200 permits gen_id session req w w' r Hput H200)
    as (u & v & k & existing & Hu & Hv & Hid & _ & Hrow & Hauth & Hbody & Hcols).
  pose proof (find_row_columns k _ _ Hcols) as Hfind.
  fold (Prisma.find_row k (Prisma.db w')) in Hfind.
  fold (Prisma.find_row k (Prisma.replace_row k
          (Client.apply_update (Views.merged v existing)) (Prisma.db w))) in Hfind.
  rewrite find_row_replaced, Hrow in Hfind by reflexivity.
  destruct (Prisma.find_row k (Prisma.db w')) as [stored|] eqn:Hstored; [|discriminate Hfind].
  cbn [option_map] in Hfind. injection Hfind as Hfields.
  exists u, v, k, existing, stored.
  rewrite Hbody. repeat split; assumption.
Qed.

Lemma PUT_merges_fields_witness :
  let alice := Auth.signed_in {| Auth.id := "alice"; Auth.role := "USER" |} in
  let req := Views.with_body (Js.Obj [("id", Js.Str "q1"); ("userQuery", Js.Str "");
                                      ("successful", Js.Bool false)]) in
  let out := Route.PUT Route.always (fun _ => "v1") alice req Route.one_query_world in
  exists stored,
    Prisma.find_row "q1" (Prisma.db (snd out)) = Some stored /\
    Prisma.userQuery stored = Js.Str "top customers" /\
    Prisma.successful stored = Js.Bool false.
Proof.
  intros alice req out.
  destruct (PUT_merges_fields Route.always (fun _ => "v1") alice req Route.one_query_world
              eq_refl)
    as (u & v & k & existing & stored & _ & Hv & Hid & Hrow & _ & _ & Hstored & _ & _ & _
        & Hq & _ & _ & _ & _ & _ & Hs).
  injection Hv as <-. injection Hid as <-. injection Hrow as <-.
  exists stored. split; [exact Hstored|]. split; [exact Hq | exact Hs].
Defined.

Section PutAtomic.
Import Prisma Client Route Views.

Variable permits : Db -> Op -> bool.
Variable gen_id : nat -> string.

Lemma last_call_snoc (d : Db) (l : list Op) (op : Op) :
  last_call {| db := d; log := (l ++ [op])%list |} = Some op.
Proof. unfold last_call. cbn [log]. now rewrite rev_unit. Qed.

(** PUT either makes no call, or its last call is outside the transaction,
    or the database is as before. *)
Lemma PUT_stops (session : option Auth.Session) (req : Request) (w w' : World)
    (r : Response) :
  PUT permits gen_id session req w = (r, w') ->
  w' = w \/
  (exists c, last_call w' = Some c /\ (in_transaction c = false \/ db w' = db w)).
Proof.
  unfold PUT, catching, bind, req_json, destructure, transaction.
  destruct (Auth.session_user session) as [u|]; [|intros [= <- <-]; now left].
  destruct (json req) as [v|]; [|intros [= <- <-]; now left]. cbn [ret throw].
  destruct (Js.destructurable v); [|intros [= <- <-]; now left]. cbn [ret].
  destruct (negb (Js.truthy (Js.prop v "id"))); [intros [= <- <-]; now left|].
  assert (Hleaf : forall (d : Db) (l : list Op) (c : Op) (x : Response),
             in_transaction c = false \/ d = db w ->
             (x, {| db := d; log := (l ++ [c])%list |}) = (r, w') ->
             w' = w \/
             (exists c, last_call w' = Some c /\ (in_transaction c = false \/ db w' = db w))).
  { intros d l c x Hc [= <- <-]. right. exists c. split; [apply last_call_snoc | exact Hc]. }
  unfold findUnique at 1. unfold call at 1.
  destruct (permits (db w) (FindUnique _)); [|apply Hleaf; now left].
  destruct (Js.prop v "id") as [| | | |k| |]; try (apply Hleaf; now left).
  destruct (find_row k (db w)) as [existing|] eqn:Hrow; [|apply Hleaf; now left].
  cbn [db log].
  destruct (negb _ && negb _); [apply Hleaf; now left|].
  unfold update, call. cbn [db log].
  destruct (permits (db w) (Update _ _)); [|apply Hleaf; now right].
  rewrite Hrow.
  destruct (Js.truthy (Js.prop v "visualization")).
  - destruct (visualization existing) as [ev|] eqn:Hvis.
    + unfold visualization_update, call. cbn [db log].
      destruct (permits _ (VisualizationUpdate _ _)); [|apply Hleaf; now right].
      match goal with
      | |- context [List.find (has_visualization ?a) ?b] =>
          destruct (List.find (has_visualization a) b) as [r0|]
      end; [|apply Hleaf; now right].
      cbn [ret db log]. unfold findUnique, call. cbn [ret db log].
      destruct (permits _ (FindUnique _)); apply Hleaf; now left.
    + unfold visualization_create, call. cbn [db log].
      destruct (permits _ (VisualizationCreate _ _)); [|apply Hleaf; now right].
      rewrite (find_row_replaced k _ (db w)) by reflexivity. rewrite Hrow.
      cbn [option_map visualization apply_update]. rewrite Hvis.
      cbn [ret db log]. unfold findUnique, call. cbn [ret db log].
      destruct (permits _ (FindUnique _)); apply Hleaf; now left.
  - cbn [ret db log]. unfold findUnique, call. cbn [ret db log].
    destruct (permits _ (FindUnique _)); apply Hleaf; now left.
Qed.

End PutAtomic.

(** X14. The writes of PUT are all or nothing: when the last call the
    handler made is one of the calls inside [prisma.$transaction] (the
    update or the write of the visualization was refused), the database is
    as it was before the request, although the calls before it had been
    carried out. *)
Theorem PUT_writes_all_or_nothing
    (permits : Prisma.Db -> Prisma.Op -> bool) (gen_id : nat -> string)
    (session : option Auth.Session) (req : Route.Request) (w : Prisma.World) (op : Prisma.Op) :
  let w' := snd (Route.PUT permits gen_id session req w) in
  Views.last_call w' = Some op ->
  Views.in_transaction op = true ->
  Prisma.db w' = Prisma.db w.
Proof.
  cbv zeta. destruct (Route.PUT permits gen_id session req w) as [r w'] eqn:Hput.
  cbn [snd]. intros Hlast Htx.
  destruct (PUT_stops permits gen_id session req w w' r Hput) as [->|(c & Hc & Hcase)];
    [reflexivity|].
  rewrite Hc in Hlast. injection Hlast as ->.
  destruct Hcase as [Hfalse|Hdb]; [congruence | exact Hdb].
Qed.

Lemma PUT_writes_all_or_nothing_witness :
  let alice := Auth.signed_in {| Auth.id := "alice"; Auth.role := "USER" |} in
  let req := Views.with_body (Js.Obj [("id", Js.Str "q1"); ("userQuery", Js.Str "changed");
                                      ("visualization", Js.Obj [("title", Js.Str "t")])]) in
  let no_visualization (d : Prisma.Db) (op : Prisma.Op) :=
    match op with Prisma.VisualizationCreate _ _ => false | _ => true end in
  Prisma.db (snd (Route.PUT no_visualization (fun _ => "v1") alice req Route.one_query_world))
  = Prisma.db Route.one_query_world.
Proof.
  intros alice req no_visualization.
  refine (PUT_writes_all_or_nothing no_visualization (fun _ => "v1") alice req
            Route.one_query_world _ _ _); reflexivity.
Defined.

Section PutFrame.
Import Prisma Client Route Views.

Variable permits : Db -> Op -> bool.
Variable gen_id : nat -> string.

Lemma rows_replace_row (k : string) (f : QueryHistory -> QueryHistory) (d : Db) :
  rows (replace_row k f d)
  = List.map (fun r => if String.eqb (id r) k then f r else r) (rows d).
Proof. reflexivity. Qed.

(** The frame of PUT: the table after it is the table before it with some
    rows rewritten in place; a rewritten row keeps its identity and is in
    reach of the request, which an admin or the owner of the found row
    made. *)
Lemma PUT_frame (session : option Auth.Session) (req : Request) (w w' : World)
    (r : Response) :
  PUT permits gen_id session req w = (r, w') ->
  db w' = db w \/
  exists u k existing h,
    Auth.session_user session = Some u /\
    find_row k (db w) = Some existing /\
    (Auth.role u = "ADMIN" \/ userId existing = Auth.id u) /\
    rows (db w') = List.map h (rows (db w)) /\
    (forall x, identity (h x) = identity x) /\
    (forall x, In x (rows (db w)) -> h x = x \/ in_reach (db w) k existing x).
Proof.
  unfold PUT, catching, bind, req_json, destructure, transaction.
  destruct (Auth.session_user session) as [u|]; [|intros [= <- <-]; now left].
  destruct (json req) as [v|]; [|intros [= <- <-]; now left]. cbn [ret throw].
  destruct (Js.destructurable v); [|intros [= <- <-]; now left]. cbn [ret].
  destruct (negb (Js.truthy (Js.prop v "id"))); [intros [= <- <-]; now left|].
  unfold findUnique at 1. unfold call at 1.
  destruct (permits (db w) (FindUnique _)); [|intros [= <- <-]; now left].
  destruct (Js.prop v "id") as [| | | |k| |]; try (intros [= <- <-]; now left).
  destruct (find_row k (db w)) as [existing|] eqn:Hrow; [|intros [= <- <-]; now left].
  cbn [db log].
  destruct (negb (String.eqb (Auth.role u) "ADMIN")
            && negb (String.eqb (userId existing) (Auth.id u))) eqn:Hguard;
    [intros [= <- <-]; now left|].
  assert (Hauth : Auth.role u = "ADMIN" \/ userId existing = Auth.id u).
  { apply andb_false_iff in Hguard. destruct Hguard as [H|H]; apply negb_false_iff in H;
      apply String.eqb_eq in H; auto. }
  fold (merged v existing). set (upd := apply_update (merged v existing)).
  set (h1 := fun x => if String.eqb (id x) k then upd x else x).
  assert (Hh1 : forall x, identity (h1 x) = identity x).
  { intros x. unfold h1. now destruct (String.eqb (id x) k). }
  match goal with
  | |- _ -> ?G =>
      assert (Hupdated : forall (x : Response) (l : list Op),
                 (x, {| db := replace_row k upd (db w); log := l |}) = (r, w') -> G)
  end.
  { intros x l [= <- <-]. right. exists u, k, existing, h1.
    repeat split; try assumption; try reflexivity.
    intros y _. unfold h1. destruct (String.eqb_spec (id y) k); [right; now left | now left]. }
  unfold update, call. cbn [db log].
  destruct (permits (db w) (Update _ _)); [|intros [= <- <-]; now left].
  rewrite Hrow.
  destruct (Js.truthy (Js.prop v "visualization")).
  - destruct (visualization existing) as [ev|] eqn:Hvis.
    + unfold visualization_update, call. cbn [db log].
      destruct (permits _ (VisualizationUpdate _ _)); [|intros [= <- <-]; now left].
      match goal with
      | |- context [List.find (has_visualization ?a) ?b] =>
          destruct (List.find (has_visualization a) b) as [r0|] eqn:Hfind
      end; [|intros [= <- <-]; now left].
      apply find_some in Hfind. destruct Hfind as [Hin0 Hhas].
      rewrite rows_replace_row in Hin0. apply in_map_iff in Hin0.
      destruct Hin0 as (r0' & Hr0 & Hin0). fold h1 in Hr0.
      unfold has_visualization in Hhas.
      destruct (visualization r0) as [v0|] eqn:Hv0; [|discriminate Hhas].
      apply String.eqb_eq in Hhas.
      assert (Hv0' : visualization r0' = Some v0).
      { rewrite <- Hv0, <- Hr0. unfold h1. now destruct (String.eqb (id r0') k). }
      assert (Hid0 : id r0 = id r0').
      { rewrite <- Hr0. exact (f_equal (fun t => fst (fst t)) (Hh1 r0')). }
      cbn [ret db log]. unfold findUnique, call. cbn [ret db log].
      match goal with
      | |- context [replace_row (id r0) ?g _] => set (sv := g)
      end.
      match goal with
      | |- _ -> ?G =>
          assert (Hdone : forall (x : Response) (l : list Op),
                     (x, {| db := replace_row (id r0) sv (replace_row k upd (db w));
                            log := l |}) = (r, w') -> G)
      end.
      { intros x l [= <- <-]. right.
        exists u, k, existing,
          (fun y => if String.eqb (id (h1 y)) (id r0) then sv (h1 y) else h1 y).
        repeat split; try assumption; try reflexivity.
        - cbn [db rows]. rewrite ?rows_replace_row, map_map. reflexivity.
        - intros y. destruct (String.eqb (id (h1 y)) (id r0)); [|apply Hh1].
          rewrite <- (Hh1 y). reflexivity.
        - intros y _.
          destruct (String.eqb_spec (id (h1 y)) (id r0)) as [E|_].
          + right. right. exists r0', ev, v0. repeat split; try assumption.
            rewrite <- Hid0, <- E. symmetry. exact (f_equal (fun t => fst (fst t)) (Hh1 y)).
          + unfold h1. destruct (String.eqb_spec (id y) k); [right; now left | now left]. }
      destruct (permits _ (FindUnique _)); apply Hdone.
    + unfold visualization_create, call. cbn [db log].
      destruct (permits _ (VisualizationCreate _ _)); [|intros [= <- <-]; now left].
      rewrite (find_row_replaced k _ (db w)) by reflexivity. rewrite Hrow.
      cbn [option_map visualization apply_update]. rewrite Hvis.
      cbn [ret db log]. unfold findUnique, call. cbn [ret db log].
      match goal with
      | |- context [replace_row k ?g (replace_row k _ (db w))] => set (sv := g)
      end.
      match goal with
      | |- _ -> ?G =>
          assert (Hdone : forall (x : Response) (l : list Op) (n : nat) (c : Z),
                     (x, {| db := {| rows := rows (replace_row k sv
                                                     (replace_row k upd (db w)));
                                     issued := n; clock := c |};
                            log := l |}) = (r, w') -> G)
      end.
      { intros x l n c [= <- <-]. right.
        exists u, k, existing,
          (fun y => if String.eqb (id (h1 y)) k then sv (h1 y) else h1 y).
        repeat split; try assumption; try reflexivity.
        - cbn [db rows]. rewrite ?rows_replace_row, map_map. reflexivity.
        - intros y. destruct (String.eqb (id (h1 y)) k); [|apply Hh1].
          rewrite <- (Hh1 y). reflexivity.
        - intros y _.
          assert (Hy : id (h1 y) = id y) by exact (f_equal (fun t => fst (fst t)) (Hh1 y)).
          rewrite Hy. unfold h1.
          destruct (String.eqb_spec (id y) k); [right; now left | now left]. }
      destruct (permits _ (FindUnique _)); apply Hdone.
  - cbn [ret db log]. unfold findUnique, call. cbn [ret db log].
    destruct (permits _ (FindUnique _)); apply Hupdated.
Qed.

End PutFrame.

Section Ownership.
Import Prisma Client Route Views.

Variable permits : Db -> Op -> bool.
Variable gen_id : nat -> string.

(** With unique ids, the row found under an id is the only row with it. *)
Lemma unique_row (k : string) (l : list QueryHistory) (a x : QueryHistory) :
  List.NoDup (List.map id l) ->
  List.find (fun r => String.eqb (id r) k) l = Some a ->
  In x l -> id x = k -> x = a.
Proof.
  induction l as [|r l IH]; intros Hnd Hfind Hin Hid; [contradiction|].
  cbn in Hnd. apply List.NoDup_cons_iff in Hnd. destruct Hnd as [Hnotin Hnd].
  cbn [List.find] in Hfind. destruct (String.eqb_spec (id r) k) as [Hr|Hr].
  - injection Hfind as <-. destruct Hin as [->|Hin]; [reflexivity|].
    exfalso. apply Hnotin. rewrite Hr, <- Hid. now apply in_map.
  - destruct Hin as [->|Hin]; [contradiction|]. now apply IH.
Qed.

Lemma visualization_id_In (l : list QueryHistory) (r : QueryHistory) (v : Visualization) :
  In r l -> visualization r = Some v ->
  In (vid v) (List.flat_map (fun r => match visualization r with
                                      | Some v => [vid v]
                                      | None => []
                                      end) l).
Proof.
  intros Hin Hv. apply in_flat_map. exists r. split; [exact Hin|]. rewrite Hv. now left.
Qed.

(** With unique visualization ids, two rows whose visualizations share an
    id are one row. *)
Lemma unique_visualization (d : Db) (a b : QueryHistory) (va vb : Visualization) :
  List.NoDup (visualization_ids d) ->
  In a (rows d) -> In b (rows d) ->
  visualization a = Some va -> visualization b = Some vb -> vid va = vid vb -> a = b.
Proof.
  unfold visualization_ids. induction (rows d) as [|r l IH]; intros Hnd Ha Hb Hva Hvb Hv;
    [contradiction|].
  cbn [List.flat_map] in Hnd.
  assert (Htail : List.NoDup (List.flat_map (fun r => match visualization r with
                                                  | Some v => [vid v]
                                                  | None => []
                                                  end) l))
    by (eapply List.NoDup_app_remove_l; exact Hnd).
  destruct Ha as [<-|Ha], Hb as [<-|Hb]; [reflexivity | | |now apply IH].
  - exfalso. rewrite Hva in Hnd. cbn in Hnd. apply List.NoDup_cons_iff in Hnd.
    apply (proj1 Hnd). rewrite Hv. eapply visualization_id_In; eassumption.
  - exfalso. rewrite Hvb in Hnd. cbn in Hnd. apply List.NoDup_cons_iff in Hnd.
    apply (proj1 Hnd). rewrite <- Hv. eapply visualization_id_In; eassumption.
Qed.

(** Rewriting rows in place leaves the rows of others alone when it keeps
    owners and does not touch their rows. *)
Lemma foreign_map (own : string) (h : QueryHistory -> QueryHistory) (l : list QueryHistory) :
  (forall x, userId (h x) = userId x) ->
  (forall x, In x l -> userId x <> own -> h x = x) ->
  List.filter (fun r => negb (String.eqb (userId r) own)) (List.map h l)
  = List.filter (fun r => negb (String.eqb (userId r) own)) l.
Proof.
  intros Hown Hfix. induction l as [|r l IH]; [reflexivity|].
  cbn [List.map List.filter]. rewrite Hown.
  rewrite IH by (intros x Hx; apply Hfix; now right).
  destruct (String.eqb_spec (userId r) own) as [|Hne]; cbn [negb]; [reflexivity|].
  rewrite (Hfix r) by (auto; now left). reflexivity.
Qed.

(** Removing rows by id leaves the rows of others alone when the rows with
    that id are one's own. *)
Lemma foreign_remove (own k : string) (l : list QueryHistory) :
  (forall y, In y l -> id y = k -> userId y = own) ->
  List.filter (fun r => negb (String.eqb (userId r) own))
              (List.filter (fun r => negb (String.eqb (id r) k)) l)
  = List.filter (fun r => negb (String.eqb (userId r) own)) l.
Proof.
  induction l as [|x l IH]; intros Hown; [reflexivity|]. cbn [List.filter].
  rewrite <- IH by (intros y Hy; apply Hown; now right).
  destruct (String.eqb_spec (id x) k) as [Hk|Hk]; cbn [negb List.filter]; [|reflexivity].
  rewrite (Hown x (or_introl eq_refl) Hk), String.eqb_refl. reflexivity.
Qed.

(** POST leaves the table as it is or appends one row of the session
    user. *)
Lemma POST_frame (session : option Auth.Session) (req : Request) (w : World) :
  let w' := snd (POST permits gen_id session req w) in
  db w' = db w \/
  exists u row, Auth.session_user session = Some u /\ userId row = Auth.id u /\
                rows (db w') = (rows (db w) ++ [row])%list.
Proof.
  cbv zeta. unfold POST, catching, bind, req_json, destructure.
  destruct (Auth.session_user session) as [u|]; [|now left].
  destruct (json req) as [v|]; [|now left]. cbn [ret throw].
  destruct (Js.destructurable v); [|now left]. cbn [ret].
  destruct (negb _ || negb _); [now left|].
  unfold create, call. destruct (permits (db w) _); [|now left].
  right. cbn. eexists u, _. repeat apply conj.
  3: reflexivity. all: reflexivity.
Qed.

(** A DELETE that does not answer 200 has removed nothing. *)
Lemma DELETE_else (session : option Auth.Session) (req : Request) (w : World) :
  status (fst (DELETE permits session req w)) <> 200 ->
  db (snd (DELETE permits session req w)) = db w.
Proof.
  unfold DELETE, catching, bind, req_json, destructure.
  destruct (Auth.session_user session) as [u|]; [|reflexivity].
  destruct (json req) as [v|]; [|reflexivity]. cbn [ret throw].
  destruct (Js.destructurable v); [|reflexivity]. cbn [ret].
  destruct (negb (Js.truthy (Js.prop v "id"))); [reflexivity|].
  unfold findUnique, delete, call.
  destruct (permits (db w) (FindUnique _)); [|reflexivity].
  destruct (Js.prop v "id") as [| | | |k| |]; try reflexivity.
  destruct (find_row k (db w)) as [row|] eqn:Hrow; [|reflexivity].
  cbn [db log]. destruct (negb _ && negb _); [reflexivity|]. cbn [db log].
  destruct (permits (db w) (Delete _)); [|reflexivity].
  rewrite Hrow. cbn. congruence.
Qed.

End Ownership.

(** X15. With unique keys in the table, a user who is not an admin cannot
    change, remove or add a row of another user through any of the four
    handlers: the rows the user does not own are the same, in the same
    order, after GET, POST, PUT and DELETE, whatever the request holds. *)
Theorem non_admin_leaves_foreign_rows
    (permits : Prisma.Db -> Prisma.Op -> bool) (gen_id : nat -> string)
    (u : Auth.User) (req : Route.Request) (w : Prisma.World) :
  Auth.role u <> "ADMIN" ->
  Views.unique_keys (Prisma.db w) ->
  let untouched (out : Route.Response * Prisma.World) :=
    Views.foreign (Auth.id u) (Prisma.db (snd out)) = Views.foreign (Auth.id u) (Prisma.db w) in
  untouched (Route.GET permits (Auth.signed_in u) req w) /\
  untouched (Route.POST permits gen_id (Auth.signed_in u) req w) /\
  untouched (Route.PUT permits gen_id (Auth.signed_in u) req w) /\
  untouched (Route.DELETE permits (Auth.signed_in u) req w).
Proof.
  intros Hrole [Hids Hvids] untouched. subst untouched. cbv beta.
  split; [|split; [|split]].
  - now rewrite (proj1 (GET_reads_only permits (Auth.signed_in u) req w)).
  - destruct (POST_frame permits gen_id (Auth.signed_in u) req w)
      as [->|(u' & row & Hu & Hown & Hrows)]; [reflexivity|].
    cbn in Hu. injection Hu as <-.
    unfold Views.foreign. rewrite Hrows, List.filter_app. cbn [List.filter].
    rewrite Hown, String.eqb_refl. cbn [negb]. apply app_nil_r.
  - destruct (Route.PUT permits gen_id (Auth.signed_in u) req w) as [r w'] eqn:Hput.
    cbn [snd].
    destruct (PUT_frame permits gen_id _ req w w' r Hput)
      as [->|(u' & k & existing & h & Hu & Hrow & Hauth & Hrows & Hident & Hreach)];
      [reflexivity|].
    cbn in Hu. injection Hu as <-.
    destruct Hauth as [Hadmin|Howned]; [contradiction|].
    assert (Hin : In existing (Prisma.rows (Prisma.db w)))
      by (eapply find_some; exact Hrow).
    unfold Views.foreign. rewrite Hrows. apply foreign_map.
    + intros x. exact (f_equal (fun t => snd (fst t)) (Hident x)).
    + intros x Hx Hforeign. destruct (Hreach x Hx) as [Hfix|Hr]; [exact Hfix|].
      exfalso. apply Hforeign.
      assert (Hsame : forall y, In y (Prisma.rows (Prisma.db w)) -> Prisma.id y = k ->
                                y = existing)
        by (intros y Hy Hk; eapply unique_row; eassumption).
      destruct Hr as [Hk|(r0 & ev & v0 & Hr0 & Hev & Hv0 & Hvid & Hid)].
      * now rewrite (Hsame x Hx Hk).
      * assert (Hr0e : r0 = existing)
          by (eapply unique_visualization; eassumption).
        subst r0. rewrite (Hsame x Hx); [exact Howned|].
        rewrite Hid. apply find_some in Hrow. now apply String.eqb_eq.
  - destruct (Z.eq_dec (Route.status (fst (Route.DELETE permits (Auth.signed_in u) req w))) 200)
      as [H200|Hne]; [|now rewrite (DELETE_else permits _ req w Hne)].
    destruct (DELETE_200 permits _ req w H200)
      as (u' & v & k & row & Hu & _ & _ & _ & Hrow & Hauth & Hrows & _).
    cbn in Hu. injection Hu as <-.
    destruct Hauth as [Hadmin|Howned]; [contradiction|].
    unfold Views.foreign. rewrite Hrows.
    apply foreign_remove. intros y Hy Hk.
    now rewrite (unique_row k _ row y Hids Hrow Hy Hk).
Qed.

Lemma non_admin_leaves_foreign_rows_witness :
  let bob := {| Auth.id := "bob"; Auth.role := "USER" |} in
  let req := Views.with_body (Js.Obj [("id", Js.Str "q1"); ("userQuery", Js.Str "mine now")]) in
  Views.foreign "bob"
    (Prisma.db (snd (Route.PUT Route.always (fun _ => "v1") (Auth.signed_in bob) req
                       Route.one_query_world)))
  = Views.foreign "bob" (Prisma.db Route.one_query_world).
Proof.
  intros bob req.
  refine (proj1 (proj2 (proj2 (non_admin_leaves_foreign_rows Route.always (fun _ => "v1")
                                 bob req Route.one_query_world _ _)))).
  - discriminate.
  - split; cbn; repeat constructor. intros [].
Defined.

Section CreatePath.
Import Prisma Client Route Views.

Variable permits : Db -> Op -> bool.
Variable gen_id : nat -> string.

(** What a POST that answers 201 has done. *)
Lemma POST_201 (session : option Auth.Session) (req : Request) (w : World) :
  let out := POST permits gen_id session req w in
  status (fst out) = 201 ->
  exists u row,
    Auth.session_user session = Some u /\
    row_of (fst out) = Some row /\
    userId row = Auth.id u /\
    rows (db (snd out)) = (rows (db w) ++ [row])%list.
Proof.
  cbv zeta. unfold POST, catching, bind, req_json, destructure.
  destruct (Auth.session_user session) as [u|]; [|discriminate].
  destruct (json req) as [v|]; [|discriminate]. cbn [ret throw].
  destruct (Js.destructurable v); [|discriminate]. cbn [ret].
  destruct (negb _ || negb _); [discriminate|].
  unfold create, call. destruct (permits (db w) _); [|discriminate].
  cbn. intros _. eexists u, _. repeat apply conj.
  4: reflexivity. all: reflexivity.
Qed.

End CreatePath.

(** X16. What POST saves, GET counts: after a POST that answered 201, a
    successful GET (by anyone, with any filter) reports as [total] the
    number of rows that matched its filter before the POST, plus one exactly
    when the new row, which belongs to the user who posted, matches the
    filter. *)
Theorem POST_then_GET_total
    (permits : Prisma.Db -> Prisma.Op -> bool) (gen_id : nat -> string)
    (session : option Auth.Session) (req : Route.Request) (w : Prisma.World)
    (session' : option Auth.Session) (req' : Route.Request) :
  let posted := Route.POST permits gen_id session req w in
  let listed := Route.GET permits session' req' (snd posted) in
  Route.status (fst posted) = 201 ->
  Route.status (fst listed) = 200 ->
  exists u u' row,
    Auth.session_user session = Some u /\
    Auth.session_user session' = Some u' /\
    Views.row_of (fst posted) = Some row /\
    Prisma.userId row = Auth.id u /\
    Views.total_of (fst listed)
    = Some (Js.Num (inject_Z
        (Z.of_nat (length (List.filter (Prisma.matches (Route.filter_of u' req'))
                                       (Prisma.rows (Prisma.db w))))
         + (if Prisma.matches (Route.filter_of u' req') row then 1 else 0)))).
Proof.
  intros posted listed H201 H200.
  destruct (POST_201 permits gen_id session req w H201) as (u & row & Hu & Hrow & Hown & Hrows).
  destruct (GET_200 permits session' req' (snd posted) H200)
    as (u' & s & t & Hu' & _ & _ & _ & Hbody).
  exists u, u', row. repeat (split; [assumption|]).
  unfold Views.total_of. fold listed in Hbody. cbv zeta in Hbody. rewrite Hbody.
  fold posted in Hrows. rewrite Hrows, List.filter_app, length_app. cbn [List.filter].
  do 3 f_equal. destruct (Prisma.matches (Route.filter_of u' req') row); cbn [length]; lia.
Qed.

Lemma POST_then_GET_total_witness :
  let alice := Auth.signed_in {| Auth.id := "alice"; Auth.role := "USER" |} in
  let req := Views.with_body (Js.Obj [("userQuery", Js.Str "late orders");
                                      ("sqlQuery", Js.Str "select 2")]) in
  let req' := {| Route.searchParams := [("userId", "alice")]; Route.json := None |} in
  let posted := Route.POST Route.always (fun _ => "q3") alice req Route.one_query_world in
  Views.total_of (fst (Route.GET Route.always alice req' (snd posted)))
  = Some (Js.Num (inject_Z 2)).
Proof.
  intros alice req req' posted.
  destruct (POST_then_GET_total Route.always (fun _ => "q3") alice req Route.one_query_world
              alice req' eq_refl eq_refl)
    as (u & u' & row & Hu & Hu' & Hrow & _ & Htotal).
  injection Hu' as <-. injection Hrow as <-. exact Htotal.
Defined.

Section Shapes.
Import Prisma Client Route Views.

Variable permits : Db -> Op -> bool.
Variable gen_id : nat -> string.

Ltac leaf := intros [= <- <-]; unfold shaped, is_error; cbn; auto 10.

Lemma GET_shape (session : option Auth.Session) (req : Request) (w w' : World)
    (r : Response) :
  GET permits session req w = (r, w') -> shaped 200 [200; 401; 403; 500] r.
Proof.
  unfold GET, catching, bind.
  destruct (Auth.session_user session) as [u|]; [|leaf].
  destruct (negb _ && differs _ _); [leaf|].
  destruct (both _ _ w) as [[[queries total]|] w1]; leaf.
Qed.

Lemma POST_shape (session : option Auth.Session) (req : Request) (w w' : World)
    (r : Response) :
  POST permits gen_id session req w = (r, w') -> shaped 201 [201; 400; 401; 500] r.
Proof.
  unfold POST, catching, bind, req_json, destructure.
  destruct (Auth.session_user session) as [u|]; [|leaf].
  destruct (json req) as [v|]; [|leaf]. cbn [ret throw].
  destruct (Js.destructurable v); [|leaf]. cbn [ret].
  destruct (negb _ || negb _); [leaf|].
  destruct (create _ _ _ w) as [[row|] w1]; leaf.
Qed.

Lemma DELETE_shape (session : option Auth.Session) (req : Request) (w w' : World)
    (r : Response) :
  DELETE permits session req w = (r, w') -> shaped 200 [200; 400; 401; 403; 404; 500] r.
Proof.
  unfold DELETE, catching, bind, req_json, destructure.
  destruct (Auth.session_user session) as [u|]; [|leaf].
  destruct (json req) as [v|]; [|leaf]. cbn [ret throw].
  destruct (Js.destructurable v); [|leaf]. cbn [ret].
  destruct (negb (Js.truthy (Js.prop v "id"))); [leaf|].
  destruct (findUnique _ _ w) as [[[row|]|] w1]; [|leaf|leaf].
  destruct (negb _ && negb _); [leaf|].
  destruct (delete _ _ w1) as [[[]|] w2]; leaf.
Qed.

Lemma PUT_shape (session : option Auth.Session) (req : Request) (w w' : World)
    (r : Response) :
  PUT permits gen_id session req w = (r, w') -> shaped 200 [200; 400; 401; 403; 404; 500] r.
Proof.
  unfold PUT, catching, bind, req_json, destructure.
  destruct (Auth.session_user session) as [u|]; [|leaf].
  destruct (json req) as [v|]; [|leaf]. cbn [ret throw].
  destruct (Js.destructurable v); [|leaf]. cbn [ret].
  destruct (negb (Js.truthy (Js.prop v "id"))); [leaf|].
  destruct (findUnique _ _ w) as [[[existing|]|] w1]; [|leaf|leaf].
  destruct (negb _ && negb _); [leaf|].
  destruct (transaction _ w1) as [[updated|] w2]; [|leaf].
  destruct (findUnique _ _ w2) as [[result|] w3]; leaf.
Qed.

End Shapes.

(** X17. Each handler answers with one of a fixed set of statuses, and the
    body is [{ error }] exactly when the status is not the success status:
    GET 200 or 401, 403, 500; POST 201 or 400, 401, 500; PUT and DELETE 200
    or 400, 401, 403, 404, 500. No failure is reported with a success
    status, no success with an error body. *)
Theorem responses_are_shaped
    (permits : Prisma.Db -> Prisma.Op -> bool) (gen_id : nat -> string)
    (session : option Auth.Session) (req : Route.Request) (w : Prisma.World) :
  Views.shaped 200 [200; 401; 403; 500] (fst (Route.GET permits session req w)) /\
  Views.shaped 201 [201; 400; 401; 500] (fst (Route.POST permits gen_id session req w)) /\
  Views.shaped 200 [200; 400; 401; 403; 404; 500]
    (fst (Route.PUT permits gen_id session req w)) /\
  Views.shaped 200 [200; 400; 401; 403; 404; 500]
    (fst (Route.DELETE permits session req w)).
Proof.
  repeat split.
  - eapply GET_shape, surjective_pairing.
  - eapply GET_shape, surjective_pairing.
  - eapply POST_shape, surjective_pairing.
  - eapply POST_shape, surjective_pairing.
  - eapply PUT_shape, surjective_pairing.
  - eapply PUT_shape, surjective_pairing.
  - eapply DELETE_shape, surjective_pairing.
  - eapply DELETE_shape, surjective_pairing.
Qed.

(* ===================================================================== *)
(** * More on the capture flow *)
(* ===================================================================== *)

(** The cases of what the component shows. *)
Ltac screens H :=
  destruct H as [Hmp' Hr' Ha' Hst Hie Htl
                |Hmp' Hr' Ha' Hst Hie
                |Hr' Hst Hie Htl
                |Hr' Hst Hie Htl
                |Hr' Hf' Hx Hst Hie Htl].

Section ScreenFacts.
Import Capture Screen.

Lemma shows_handleEnroll (t : Z) : shows (handleEnroll t).
Proof. now apply asking. Qed.

(** Every event keeps the screen in step with the invocation. *)
Lemma shows_step (s : State) (e : Event) : phase s -> shows s -> shows (step s e).
Proof.
  intros Hphase Hs. destruct e as [| | |data|ms|data|data|ok]; cbn [step].
  - (* MediaGranted *)
    destruct (media_pending s) eqn:Hm; [|exact Hs].
    phases Hphase; try congruence.
    screens Hs; try congruence. now apply listening.
  - (* MediaDenied *)
    destruct (media_pending s) eqn:Hm; [|exact Hs].
    phases Hphase; try congruence.
    screens Hs; try congruence. now apply refused.
  - (* RecorderRefused *)
    destruct (media_pending s) eqn:Hm; [|exact Hs].
    phases Hphase; try congruence.
    screens Hs; try congruence. now apply refused.
  - (* DataAvailable *)
    destruct (mediaRecorder s) as [[|]|] eqn:Hrec; try exact Hs.
    unfold ondataavailable. destruct (0 <? size data); [|exact Hs].
    screens Hs; try congruence. now apply listening.
  - (* Elapse *)
    unfold elapse. destruct (ms <? 0); [exact Hs|].
    destruct (timer s) as [due|] eqn:Htimer.
    + destruct (due <=? now s + ms).
      * phases Hphase; try congruence; screens Hs; try congruence.
        -- apply stopped; cbn; rewrite ?Hr; auto.
        -- apply stopped; cbn; rewrite ?Hr; auto.
        -- apply enrolled; cbn; rewrite ?Hr; auto.
           destruct Hx as (tx & audio & Hin). exists tx, audio.
           apply in_or_app. now left.
      * screens Hs; [now apply asking | now apply refused | now apply listening
                    | apply stopped | apply enrolled]; cbn; auto;
          unfold timer_pending in *; cbn; rewrite Htimer in Hie; exact Hie.
    + screens Hs; [now apply asking | now apply refused | now apply listening
                  | apply stopped | apply enrolled]; cbn; auto;
        unfold timer_pending in *; cbn; rewrite Htimer in Hie; exact Hie.
  - (* Stopped *)
    destruct (stop_pending s) eqn:Hsp'; [|exact Hs].
    phases Hphase; try congruence.
    screens Hs; try congruence.
    + unfold ondataavailable. destruct (0 <? size data); now apply stopped.
    + exfalso. destruct Hx as (tx & audio & Hin). rewrite Ha in Hin. cbn in Hin.
      destruct Hin as [Hin|[Hin|[]]]; discriminate Hin.
  - (* Ended *)
    destruct (mediaRecorder s) as [[|]|] eqn:Hrec; try exact Hs.
    phases Hphase; try congruence.
    screens Hs; try congruence.
    unfold ondataavailable.
    destruct (0 <? size data); apply stopped; cbn; auto;
      unfold timer_pending; cbn; now rewrite Ht.
  - (* Response *)
    destruct (fetch_pending s) eqn:Hpending; [|exact Hs].
    screens Hs; try congruence; try (phases Hphase; congruence).
    destruct ok; [|now apply stopped].
    apply enrolled; cbn; auto.
    phases Hphase; try congruence; rewrite Ha; cbn; eauto 6.
Qed.

Lemma shows_run (events : list Event) (s : State) :
  phase s -> shows s -> shows (run s events).
Proof.
  revert s. induction events as [|e events IH]; intros s Hp Hs; [exact Hs|].
  cbn [run fold_left]. apply IH; [now apply phase_step | now apply shows_step].
Qed.

End ScreenFacts.

(** X18. What the user sees stays in step with the invocation, under every
    schedule of events: while the error text is shown nothing has been
    recorded or posted and the button is enabled (so a failed upload never
    shows it); the success text is shown only after the audio was posted,
    with the stream released; the button is disabled ([isEnrolling]) and the
    stream is held throughout the recording; once the recorder is inactive
    the stream is released exactly when the success text is shown, and the
    button is still disabled only when the recorder stopped by itself
    before the 5000 ms were over (the audio was posted before any [stop()]);
    when the recorder does not stop by itself, the button is enabled again
    as soon as the recorder is inactive. *)
Theorem screen_follows_invocation (t : Z) (events : list Capture.Event) :
  let s := Capture.run (Capture.handleEnroll t) events in
  (Capture.status s = "Error during enrollment" ->
     Capture.actions s = [] /\ Capture.isEnrolling s = false) /\
  (Capture.status s = "Voice profile enrolled successfully" ->
     (exists t2 audio, In (Capture.Fetch t2 audio) (Capture.actions s)) /\
     Capture.tracks_live s = false) /\
  (Capture.mediaRecorder s = Some Capture.recording ->
     Capture.isEnrolling s = true /\ Capture.tracks_live s = true) /\
  (Capture.mediaRecorder s = Some Capture.inactive ->
     (Capture.tracks_live s = false <->
      Capture.status s = "Voice profile enrolled successfully") /\
     (Capture.isEnrolling s = true ->
      exists t0 t1 audio rest,
        Capture.actions s = Capture.Start t0 :: Capture.Fetch t1 audio :: rest /\
        t1 < t0 + 5000)) /\
  (existsb Capture.stops_by_itself events = false ->
   Capture.mediaRecorder s = Some Capture.inactive ->
   Capture.isEnrolling s = false).
Proof.
  intros s.
  pose proof (phase_run events _ (phase_handleEnroll t)) as Hphase.
  pose proof (shows_run events _ (phase_handleEnroll t) (shows_handleEnroll t)) as H.
  fold s in H, Hphase.
  assert (Hlate : Capture.mediaRecorder s = Some Capture.inactive ->
                  Capture.isEnrolling s = true ->
                  exists t0 t1 audio rest,
                    Capture.actions s = Capture.Start t0 :: Capture.Fetch t1 audio :: rest /\
                    t1 < t0 + 5000).
  { intros Hrec Hie'.
    assert (Htp : Capture.timer_pending s = true)
      by (screens H; congruence).
    unfold Capture.timer_pending in Htp.
    phases Hphase; rewrite Ht in Htp; try discriminate Htp; try congruence.
    exists t0, t1, (Capture.blob_of (Capture.audioChunks s)), [].
    split; [exact Ha | exact Ht1]. }
  assert (Hregular : existsb Capture.stops_by_itself events = false ->
                     Capture.mediaRecorder s = Some Capture.inactive ->
                     Capture.isEnrolling s = false).
  { intros Hreg Hrec.
    pose proof (well_timed_run events _ (phase_handleEnroll t) I Hreg) as Hw. fold s in Hw.
    destruct (Capture.isEnrolling s) eqn:Hie'; [exfalso|reflexivity].
    destruct (Hlate Hrec eq_refl) as (t0 & t1 & audio & rest & Ha & _).
    rewrite Ha in Hw. cbn in Hw. destruct rest; exact Hw. }
  split; [|split; [|split; [|split; [|exact Hregular]]]].
  - intros Hst'. screens H; rewrite Hst in Hst'; try discriminate Hst'. split; assumption.
  - intros Hst'. screens H; rewrite Hst in Hst'; try discriminate Hst'. split; assumption.
  - intros Hrec. screens H; try congruence. split; assumption.
  - intros Hrec. split; [|now apply Hlate].
    screens H; try congruence; rewrite Hst, Htl; split; intros E; try reflexivity;
      discriminate E.
Qed.

Lemma screen_follows_invocation_witness :
  let s := Capture.run (Capture.handleEnroll 0)
             [Capture.MediaGranted; Capture.Elapse 1000; Capture.Ended [Byte.x52];
              Capture.Response false] in
  Capture.isEnrolling s = true /\
  exists t0 t1 audio rest,
    Capture.actions s = Capture.Start t0 :: Capture.Fetch t1 audio :: rest /\
    t1 < t0 + 5000.
Proof.
  intros s. split; [reflexivity|].
  exact (proj2 (proj1 (proj2 (proj2 (proj2 (screen_follows_invocation 0
                  [Capture.MediaGranted; Capture.Elapse 1000; Capture.Ended [Byte.x52];
                   Capture.Response false])))) eq_refl) eq_refl).
Defined.

Section ScheduleFacts.
Import Capture Screen.

(** Empty chunks add nothing to the blob. *)
Lemma blob_of_nonempty (chunks : list Blob) :
  blob_of (List.filter nonempty chunks) = blob_of chunks.
Proof.
  unfold blob_of. induction chunks as [|b l IH]; [reflexivity|]. cbn [List.filter].
  destruct b as [|x b]; [exact IH|].
  change (nonempty (x :: b)) with true. cbn [concat]. now rewrite IH.
Qed.

(** While the recorder records, the chunks delivered are collected in
    order, the empty ones left out. *)
Lemma collects (chunks : list Blob) (s : State) :
  mediaRecorder s = Some recording ->
  run s (List.map DataAvailable chunks)
  = with_chunks (audioChunks s ++ List.filter nonempty chunks)%list s.
Proof.
  revert s. induction chunks as [|b l IH]; intros s Hrec.
  - cbn. rewrite app_nil_r. now destruct s.
  - cbn [List.map run fold_left step]. rewrite Hrec.
    change (fold_left step (List.map DataAvailable l) (ondataavailable b s))
      with (run (ondataavailable b s) (List.map DataAvailable l)).
    unfold ondataavailable. cbn [List.filter]. change (nonempty b) with (0 <? size b).
    destruct (0 <? size b).
    + rewrite IH by exact Hrec. unfold with_chunks. cbn. now rewrite <- app_assoc.
    + now apply IH.
Qed.

End ScheduleFacts.

(** X19. An invocation that runs its course posts exactly what was recorded:
    when the microphone is granted at time [t], chunks arrive, at least
    5000 ms pass and the recorder delivers its last chunk, the recording
    started at [t], was stopped at [t + 5000], and one request was made,
    whose audio is all the chunks, the last one included, in the order they
    arrived (empty chunks add nothing). *)
Theorem enrollment_posts_what_was_recorded
    (t ms : Z) (chunks : list Capture.Blob) (final : Capture.Blob) :
  5000 <= ms ->
  let s := Capture.run (Capture.handleEnroll t) (Screen.schedule chunks ms final) in
  Capture.actions s
  = [Capture.Start t; Capture.Stop (t + 5000);
     Capture.Fetch (t + ms) (List.concat (chunks ++ [final]))] /\
  Capture.fetch_pending s = true /\
  Capture.isEnrolling s = false.
Proof.
  intros Hms s. subst s. unfold Screen.schedule.
  cbn [Capture.run fold_left Capture.step Capture.handleEnroll Capture.media_pending].
  rewrite fold_left_app.
  change (fold_left Capture.step (List.map Capture.DataAvailable chunks)
            (Capture.on_media (Capture.handleEnroll t)))
    with (Capture.run (Capture.on_media (Capture.handleEnroll t))
            (List.map Capture.DataAvailable chunks)).
  rewrite collects by reflexivity.
  cbn [fold_left Capture.step]. unfold Capture.elapse.
  destruct (Z.ltb_spec ms 0); [lia|].
  cbn [Capture.timer Screen.with_chunks Capture.on_media Capture.now Capture.handleEnroll].
  unfold Capture.recordingWindow.
  destruct (Z.leb_spec (t + 5000) (t + ms)); [|lia].
  rewrite Z.max_l by lia.
  cbn [Capture.set_now Capture.on_timer Capture.stop_pending].
  unfold Capture.ondataavailable.
  destruct final as [|x b].
  - change (0 <? Capture.size []) with false. cbn.
    split; [|split; reflexivity].
    change (concat (List.filter Screen.nonempty chunks))
      with (Capture.blob_of (List.filter Screen.nonempty chunks)).
    rewrite blob_of_nonempty, concat_app. cbn [concat]. now rewrite app_nil_r.
  - change (0 <? Capture.size (x :: b)) with true. cbn.
    split; [|split; reflexivity].
    unfold Capture.blob_of. rewrite !concat_app.
    change (concat (List.filter Screen.nonempty chunks))
      with (Capture.blob_of (List.filter Screen.nonempty chunks)).
    now rewrite blob_of_nonempty.
Qed.

Lemma enrollment_posts_what_was_recorded_witness :
  Capture.actions
    (Capture.run (Capture.handleEnroll 10)
       (Screen.schedule [[Byte.x52]; []; [Byte.x49; Byte.x46]] 5000 [Byte.x46]))
  = [Capture.Start 10; Capture.Stop (10 + 5000);
     Capture.Fetch (10 + 5000)
       (List.concat ([[Byte.x52]; []; [Byte.x49; Byte.x46]] ++ [[Byte.x46]]))].
Proof.
  refine (proj1 (enrollment_posts_what_was_recorded 10 5000
                   [[Byte.x52]; []; [Byte.x49; Byte.x46]] [Byte.x46] _)).
  lia.
Defined.

Section RefusedFacts.
Import Capture Screen.

(** Nothing moves an invocation that is over. *)
Lemma over_step (s : State) (e : Event) : over s -> over (step s e).
Proof.
  intros (Hmp & Hr & Ht & Hsp & Hf & Ha & Hst & Hie).
  destruct e as [| | |data|ms|data|data|ok]; cbn [step];
    rewrite ?Hmp, ?Hr, ?Hsp, ?Hf; try (repeat split; assumption).
  unfold elapse. destruct (ms <? 0); [repeat split; assumption|].
  rewrite Ht. repeat split; assumption.
Qed.

Lemma over_run (events : list Event) (s : State) : over s -> over (run s events).
Proof.
  revert s. induction events as [|e events IH]; intros s Hs; [exact Hs|].
  cbn [run fold_left]. apply IH, over_step, Hs.
Qed.

End RefusedFacts.

(** X20. When [getUserMedia] rejects, the invocation is over: whatever
    events follow, no recording is started, nothing is posted, the button is
    enabled again and the status stays "Error during enrollment". *)
Theorem refused_microphone_ends_invocation
    (t : Z) (before after : list Capture.Event) :
  Capture.media_pending (Capture.run (Capture.handleEnroll t) before) = true ->
  let s := Capture.run (Capture.handleEnroll t)
             (before ++ Capture.MediaDenied :: after)%list in
  Capture.actions s = [] /\
  Capture.mediaRecorder s = None /\
  Capture.status s = "Error during enrollment" /\
  Capture.isEnrolling s = false.
Proof.
  intros Hpending s. subst s. unfold Capture.run in *. rewrite fold_left_app.
  cbn [fold_left Capture.step]. rewrite Hpending.
  set (s1 := fold_left Capture.step before (Capture.handleEnroll t)) in *.
  pose proof (phase_run before _ (phase_handleEnroll t)) as Hphase.
  unfold Capture.run in Hphase. fold s1 in Hphase.
  assert (Hover : Screen.over (Capture.on_error s1)).
  { phases Hphase; try congruence. repeat split; assumption. }
  destruct (over_run after _ Hover) as (_ & Hr & _ & _ & _ & Ha & Hst & Hie).
  unfold Capture.run in *. repeat split; assumption.
Qed.

Lemma refused_microphone_ends_invocation_witness :
  Capture.actions
    (Capture.run (Capture.handleEnroll 0)
       ([Capture.Elapse 300] ++ Capture.MediaDenied
          :: [Capture.MediaGranted; Capture.Elapse 6000; Capture.Stopped [Byte.x52]])%list)
  = [].
Proof.
  refine (proj1 (refused_microphone_ends_invocation 0 [Capture.Elapse 300]
                   [Capture.MediaGranted; Capture.Elapse 6000; Capture.Stopped [Byte.x52]]
                   _)).
  reflexivity.
Defined.

(* ===================================================================== *)
(** * The login form and the font provider *)
(* ===================================================================== *)

(** X21. [handleSubmit] calls [signIn] once with the user name and password
    typed, and however that settles the form ends with [isLoading] false
    and its fields as they were; it navigates to "/" exactly when [signIn]
    resolved with no result or a result without a truthy [error]; a failed
    login changes nothing the user can see, a thrown one is only logged. *)
Theorem handleSubmit_outcomes (outcome : LoginForm.Settled) (s : LoginForm.State) :
  let s' := LoginForm.handleSubmit outcome s in
  LoginForm.isLoading (LoginForm.submit s) = true /\
  LoginForm.isLoading s' = false /\
  LoginForm.username s' = LoginForm.username s /\
  LoginForm.password s' = LoginForm.password s /\
  LoginForm.signIns s'
  = (LoginForm.signIns s ++ [(LoginForm.username s, LoginForm.password s)])%list /\
  (LoginForm.pushed s' = (LoginForm.pushed s ++ ["/"])%list \/
   LoginForm.pushed s' = LoginForm.pushed s) /\
  (LoginForm.pushed s' <> LoginForm.pushed s <->
   exists result, outcome = LoginForm.Resolved result /\
                  (result = Js.Undefined \/ result = Js.Null \/
                   Js.destructurable result = true /\
                   Js.truthy (Js.prop result "error") = false)) /\
  (LoginForm.errorsLogged s' <> LoginForm.errorsLogged s <-> outcome = LoginForm.Thrown).
Proof.
  assert (Hgrow : forall l : list string, (l ++ ["/"])%list <> l).
  { intros l H. apply (f_equal (@length string)) in H. rewrite length_app in H.
    cbn in H. lia. }
  cbv zeta. unfold LoginForm.handleSubmit. cbn.
  repeat split; try reflexivity.
  - destruct outcome as [result|]; [destruct (LoginForm.no_error result)|]; auto.
  - destruct outcome as [result|]; [|congruence].
    intros H. exists result. split; [reflexivity|].
    destruct result; cbn in *; auto;
      try (destruct (Js.truthy _); cbn in *; [congruence | auto]).
  - intros (result & -> & Hres).
    destruct Hres as [->|[->|[Hd Ht]]]; try apply Hgrow.
    unfold LoginForm.no_error. rewrite Ht.
    destruct result; try discriminate Hd; apply Hgrow.
  - destruct outcome; [congruence | reflexivity].
  - intros ->. lia.
Qed.

Section FontFacts.
Import FontProvider.

Lemma filter_fresh (n : nat) (l : list Element) :
  Forall (fun e => (ident e < n)%nat) l ->
  List.filter (fun e => negb (Nat.eqb (ident e) n)) l = l.
Proof.
  induction 1 as [|e l He _ IH]; [reflexivity|]. cbn [List.filter].
  destruct (Nat.eqb_spec (ident e) n); [lia|]. cbn [negb]. now rewrite IH.
Qed.

Lemma classList_remove_absent (token : string) (l : list string) :
  existsb (String.eqb token) l = false -> classList_remove token l = l.
Proof.
  unfold classList_remove. induction l as [|c l IH]; [reflexivity|].
  cbn [existsb List.filter]. intros H. apply orb_false_iff in H. destruct H as [Hc Hl].
  rewrite Hc. cbn [negb]. now rewrite IH.
Qed.

Lemma classList_remove_app (token : string) (l l' : list string) :
  classList_remove token (l ++ l') = (classList_remove token l ++ classList_remove token l')%list.
Proof. apply List.filter_app. Qed.

End FontFacts.

(** X22. The effect of [FontProvider] and its clean-up undo each other on
    the head of the document: after mounting and cleaning up, the children
    of [head] are those from before (the clean-up does not throw), and
    [body] has the classes from before without "fonts-loaded". The class
    list is the one from before when the class was not on [body] then; a
    class that was there already is taken away. *)
Theorem font_effect_cleans_up (css : string) (d : FontProvider.Document) :
  FontProvider.well_numbered d ->
  let mounted := FontProvider.mount css d in
  exists d',
    FontProvider.cleanup (snd mounted) (fst mounted) = Some d' /\
    FontProvider.headChildren d' = FontProvider.headChildren d /\
    FontProvider.bodyClassList d'
    = FontProvider.classList_remove "fonts-loaded" (FontProvider.bodyClassList d) /\
    (existsb (String.eqb "fonts-loaded") (FontProvider.bodyClassList d) = false ->
     FontProvider.bodyClassList d' = FontProvider.bodyClassList d).
Proof.
  intros Hd mounted. subst mounted. unfold FontProvider.mount, FontProvider.cleanup.
  cbn [fst snd FontProvider.headChildren FontProvider.bodyClassList FontProvider.created].
  unfold FontProvider.removeChild. cbn [FontProvider.ident].
  rewrite existsb_app. cbn [existsb FontProvider.ident]. rewrite Nat.eqb_refl, orb_true_r.
  eexists. split; [reflexivity|].
  cbn [FontProvider.headChildren FontProvider.bodyClassList].
  assert (Hclasses : FontProvider.classList_remove "fonts-loaded"
                       (FontProvider.classList_add "fonts-loaded" (FontProvider.bodyClassList d))
                     = FontProvider.classList_remove "fonts-loaded"
                         (FontProvider.bodyClassList d)).
  { unfold FontProvider.classList_add.
    destruct (existsb _ (FontProvider.bodyClassList d)); [reflexivity|].
    rewrite classList_remove_app. cbn. apply app_nil_r. }
  split; [|split].
  - rewrite List.filter_app. cbn [List.filter FontProvider.ident]. rewrite Nat.eqb_refl.
    cbn [negb]. rewrite app_nil_r. now apply filter_fresh.
  - exact Hclasses.
  - intros Habsent. rewrite Hclasses. now apply classList_remove_absent.
Qed.

Lemma font_effect_cleans_up_witness :
  let d := {| FontProvider.bodyClassList := ["dark"];
              FontProvider.headChildren :=
                [{| FontProvider.ident := 0; FontProvider.tagName := "link";
                    FontProvider.textContent := "" |}];
              FontProvider.created := 1 |} in
  exists d',
    FontProvider.cleanup (snd (FontProvider.mount "css" d)) (fst (FontProvider.mount "css" d))
    = Some d' /\
    FontProvider.headChildren d' = FontProvider.headChildren d /\
    FontProvider.bodyClassList d'
    = FontProvider.classList_remove "fonts-loaded" (FontProvider.bodyClassList d) /\
    (existsb (String.eqb "fonts-loaded") (FontProvider.bodyClassList d) = false ->
     FontProvider.bodyClassList d' = FontProvider.bodyClassList d).
Proof.
  intros d.
  apply (font_effect_cleans_up "css" d).
  repeat constructor.
Defined.

Section PutVisualization.
Import Prisma Client Route Views.

Variable permits : Db -> Op -> bool.
Variable gen_id : nat -> string.

(** With unique keys, the first row that carries a visualization id is the
    row known to carry it. *)
Lemma find_visualization (d : Db) (a : QueryHistory) (va : Visualization) :
  List.NoDup (visualization_ids d) ->
  In a (rows d) -> visualization a = Some va ->
  List.find (has_visualization (vid va)) (rows d) = Some a.
Proof.
  intros Hnd Hin Hva.
  destruct (List.find (has_visualization (vid va)) (rows d)) as [b|] eqn:Hfind.
  - apply find_some in Hfind. destruct Hfind as [Hb Hhas].
    unfold has_visualization in Hhas.
    destruct (visualization b) as [vb|] eqn:Hvb; [|discriminate].
    apply String.eqb_eq in Hhas. f_equal.
    eapply unique_visualization; eauto.
  - exfalso. apply (find_none _ _ Hfind) in Hin.
    unfold has_visualization in Hin. rewrite Hva, String.eqb_refl in Hin. discriminate.
Qed.

(** The row a successful PUT leaves under the id, visualization included. *)
Lemma PUT_200_row (session : option Auth.Session) (req : Request) (w w' : World)
    (r : Response) :
  PUT permits gen_id session req w = (r, w') ->
  status r = 200 ->
  unique_keys (db w) ->
  exists v k existing,
    json req = Some v /\
    Js.prop v "id" = Js.Str k /\
    find_row k (db w) = Some existing /\
    find_row k (db w')
    = Some (set_visualization
              (if Js.truthy (Js.prop v "visualization")
               then Some (merged_visualization (Js.prop v "visualization")
                            (visualization existing) (gen_id (issued (db w))) k)
               else visualization existing)
              (apply_update (merged v existing) existing)).
Proof.
  unfold PUT, catching, bind, req_json, destructure, transaction.
  destruct (Auth.session_user session) as [u|]; [|intros [= <- <-]; discriminate].
  destruct (json req) as [v|]; [|intros [= <- <-]; discriminate]. cbn [ret throw].
  destruct (Js.destructurable v); [|intros [= <- <-]; discriminate]. cbn [ret].
  destruct (negb (Js.truthy (Js.prop v "id"))); [intros [= <- <-]; discriminate|].
  unfold findUnique at 1. unfold call at 1.
  destruct (permits (db w) (FindUnique _)); [|intros [= <- <-]; discriminate].
  destruct (Js.prop v "id") as [| | | |k| |] eqn:Hid; try (intros [= <- <-]; discriminate).
  destruct (find_row k (db w)) as [existing|] eqn:Hrow; [|intros [= <- <-]; discriminate].
  cbn [db log].
  destruct (negb _ && negb _); [intros [= <- <-]; discriminate|].
  fold (merged v existing).
  unfold update, call. cbn [db log].
  destruct (permits (db w) (Update _ _)); [|intros [= <- <-]; discriminate].
  rewrite Hrow.
  assert (Hupd : find_row k (replace_row k (apply_update (merged v existing)) (db w))
                 = Some (apply_update (merged v existing) existing))
    by (rewrite find_row_replaced by reflexivity; now rewrite Hrow).
  assert (Hin : In existing (rows (db w))) by (eapply find_some; exact Hrow).
  assert (Hidk : id existing = k)
    by (apply find_some in Hrow; now apply String.eqb_eq).
  destruct (Js.truthy (Js.prop v "visualization")) eqn:Hviz.
  - destruct (visualization existing) as [ev|] eqn:Hvis.
    + unfold visualization_update, call. cbn [db log].
      destruct (permits _ (VisualizationUpdate _ _)); [|intros [= <- <-]; discriminate].
      match goal with
      | |- context [List.find (has_visualization ?a) ?b] =>
          destruct (List.find (has_visualization a) b) as [r0|] eqn:Hfind
      end; [|intros [= <- <-]; discriminate].
      cbn [ret db log]. unfold findUnique, call. cbn [ret db log].
      destruct (permits _ (FindUnique _)); [|intros [= <- <-]; discriminate].
      intros [= <- <-] _ [Hids Hvids]. exists v, k, existing.
      repeat split; try reflexivity; try assumption. cbn [db].
      assert (Hr0 : r0 = apply_update (merged v existing) existing).
      { assert (Hfound : List.find (has_visualization (vid ev))
                           (rows (replace_row k (apply_update (merged v existing)) (db w)))
                         = Some (apply_update (merged v existing) existing)).
        { apply find_visualization.
          - unfold visualization_ids. rewrite rows_replace_row.
            rewrite flat_map_concat_map, map_map, <- flat_map_concat_map.
            erewrite flat_map_ext; [exact Hvids|].
            intros x. cbn. now destruct (String.eqb (id x) k).
          - rewrite rows_replace_row. apply in_map_iff. exists existing.
            split; [|exact Hin]. cbv beta. now rewrite Hidk, String.eqb_refl.
          - exact Hvis. }
        congruence. }
      subst r0. change (id (apply_update (merged v existing) existing)) with (id existing).
      rewrite Hidk.
      rewrite find_row_replaced by reflexivity. rewrite Hupd, ?Hviz, ?Hvis. reflexivity.
    + unfold visualization_create, call. cbn [db log].
      destruct (permits _ (VisualizationCreate _ _)); [|intros [= <- <-]; discriminate].
      rewrite Hupd. cbn [visualization apply_update]. rewrite Hvis.
      cbn [ret db log]. unfold findUnique, call. cbn [ret db log].
      destruct (permits _ (FindUnique _)); [|intros [= <- <-]; discriminate].
      intros [= <- <-] _ _. exists v, k, existing.
      repeat split; try reflexivity; try assumption. cbn [db].
      transitivity (find_row k (replace_row k
                      (set_visualization
                         (Some (created_visualization (gen_id (issued (db w))) k
                                  (visualization_input (Js.prop v "visualization")))))
                      (replace_row k (apply_update (merged v existing)) (db w))));
        [reflexivity|].
      rewrite find_row_replaced by reflexivity. rewrite Hupd, ?Hviz, ?Hvis. reflexivity.
  - cbn [ret db log]. unfold findUnique, call. cbn [ret db log].
    destruct (permits _ (FindUnique _)); [|intros [= <- <-]; discriminate].
    intros [= <- <-] _ _. exists v, k, existing.
    repeat split; try reflexivity; try assumption. cbn [db]. rewrite Hupd, ?Hviz.
    now destruct existing.
Qed.

End PutVisualization.

(** X23. After a PUT that answers 200 on a table with unique primary keys,
    the visualization of the stored row depends on the payload's
    [visualization]: when that is falsy the row keeps the visualization it
    had (or none); when the row had one, it keeps its id and each of
    [chartType], [chartOptions], [title], [description] is the payload's
    value when truthy and the former one otherwise; when the row had none, a
    new visualization of that row is created under a fresh id with exactly
    the payload's four fields, one the payload leaves out being stored as
    [null]. *)
Theorem PUT_stores_visualization
    (permits : Prisma.Db -> Prisma.Op -> bool) (gen_id : nat -> string)
    (session : option Auth.Session) (req : Route.Request) (w : Prisma.World) :
  let out := Route.PUT permits gen_id session req w in
  Route.status (fst out) = 200 ->
  Views.unique_keys (Prisma.db w) ->
  exists v k existing stored,
    Route.json req = Some v /\
    Js.prop v "id" = Js.Str k /\
    Prisma.find_row k (Prisma.db w) = Some existing /\
    Prisma.find_row k (Prisma.db (snd out)) = Some stored /\
    let p := Js.prop v "visualization" in
    match Js.truthy p, Prisma.visualization existing with
    | false, _ => Prisma.visualization stored = Prisma.visualization existing
    | true, Some ev =>
        exists sv, Prisma.visualization stored = Some sv /\
          Prisma.vid sv = Prisma.vid ev /\
          Prisma.chartType sv = Js.or (Js.prop p "chartType") (Prisma.chartType ev) /\
          Prisma.chartOptions sv = Js.or (Js.prop p "chartOptions") (Prisma.chartOptions ev) /\
          Prisma.title sv = Js.or (Js.prop p "title") (Prisma.title ev) /\
          Prisma.description sv = Js.or (Js.prop p "description") (Prisma.description ev)
    | true, None =>
        exists sv, Prisma.visualization stored = Some sv /\
          Prisma.vid sv = gen_id (Prisma.issued (Prisma.db w)) /\
          Prisma.queryId sv = k /\
          Prisma.chartType sv = Client.stored (Js.prop p "chartType") /\
          Prisma.chartOptions sv = Client.stored (Js.prop p "chartOptions") /\
          Prisma.title sv = Client.stored (Js.prop p "title") /\
          Prisma.description sv = Client.stored (Js.prop p "description")
    end.
Proof.
  intros out H200 Hkeys. subst out.
  destruct (Route.PUT permits gen_id session req w) as [r w'] eqn:Hput. cbn [fst snd] in *.
  destruct (PUT_200_row permits gen_id session req w w' r Hput H200 Hkeys)
    as (v & k & existing & Hv & Hid & Hrow & Hstored).
  eexists v, k, existing, _. repeat apply conj; try eassumption.
  cbv zeta. destruct (Js.truthy (Js.prop v "visualization")); [|reflexivity].
  destruct (Prisma.visualization existing) as [ev|];
    eexists; repeat apply conj; reflexivity.
Qed.

Lemma PUT_stores_visualization_witness :
  let alice := Auth.signed_in {| Auth.id := "alice"; Auth.role := "USER" |} in
  let first := Views.with_body
      (Js.Obj [("id", Js.Str "q1");
               ("visualization", Js.Obj [("chartType", Js.Str "bar");
                                         ("title", Js.Str "Top")])]) in
  let w1 := snd (Route.PUT Route.always (fun _ => "v1") alice first Route.one_query_world) in
  let second := Views.with_body
      (Js.Obj [("id", Js.Str "q1");
               ("visualization", Js.Obj [("chartType", Js.Str "pie");
                                         ("title", Js.Str "")])]) in
  let out := Route.PUT Route.always (fun _ => "v2") alice second w1 in
  exists stored sv,
    Prisma.find_row "q1" (Prisma.db (snd out)) = Some stored /\
    Prisma.visualization stored = Some sv /\
    Prisma.vid sv = "v1" /\
    Prisma.chartType sv = Js.Str "pie" /\
    Prisma.title sv = Js.Str "Top".
Proof.
  intros alice first w1 second out.
  assert (Hkeys : Views.unique_keys (Prisma.db w1)).
  { split; vm_compute; (constructor; [intros []|constructor]). }
  destruct (PUT_stores_visualization Route.always (fun _ => "v2") alice second w1
              eq_refl Hkeys)
    as (v & k & existing & stored & Hv & Hid & Hrow & Hstored & Hvis).
  injection Hv as <-. injection Hid as <-.
  vm_compute in Hrow. injection Hrow as <-.
  cbv zeta in Hvis. cbn in Hvis.
  destruct Hvis as (sv & Hsv & Hvid & Hchart & _ & Htitle & _).
  exists stored, sv. repeat split; assumption.
Defined.
